(** * Recoverable-Revenue: segment parsers, EOB-to-835 conversion and patient
    deduplication, embedded from the Python sources.

    Source files covered:
    - [src/denials_db_loader.py]        ([Module DenialsDbLoader])
    - [src/scripts/eob_to_835.py]       ([Module EobTo835])
    - [src/scripts/realtime_eligibility.py] ([Module RealtimeEligibility])
    - [src/scripts/etl_engine.py]       ([Module EtlEngine])

    Python values are modelled as follows.
    - [str] is [string]; the texts are taken to be ASCII, so [str.upper] and
      [str.strip] act on ASCII letters and ASCII white space.
    - [float] is [pyfloat]: a finite value carried as an exact rational, or
      an infinity, or a NaN.  The built-in conversion [float(s)] is a
      parameter of the parsers that call it ([None] stands for [ValueError]);
      the concrete instance [decimal_float] covers plain decimal literals.
    - a [dict] with a fixed key set is a [Record]; a [dict] whose key set
      changes is an insertion-ordered association list.
    - an uncaught exception is the [Raise] result. *)

From Stdlib Require Import List String Ascii ZArith QArith Qround Bool Lia Lqa Arith
  DecimalString.
Import ListNotations.
Close Scope Q_scope.
Open Scope string_scope.
Open Scope nat_scope.

(* ===================================================================== *)
(** * Python built-ins *)
(* ===================================================================== *)

Module Py.

Inductive exn := ValueError | OverflowError.

Inductive result (A : Type) :=
| Ok (a : A)
| Raise (e : exn).
Arguments Ok {A} a.
Arguments Raise {A} e.

Definition bind {A B} (m : result A) (k : A -> result B) : result B :=
  match m with
  | Ok a => k a
  | Raise e => Raise e
  end.

Notation "x <- m ;; k" := (bind m (fun x => k))
  (at level 61, m at next level, right associativity).

Inductive pyfloat :=
| FFin (q : Q)
| FInf (negative : bool)
| FNan.

Definition fzero : pyfloat := FFin 0%Q.

(** [x > 0] on floats. *)
Definition f_gt0 (x : pyfloat) : bool :=
  match x with
  | FFin q => negb (Qle_bool q 0%Q)
  | FInf negative => negb negative
  | FNan => false
  end.

(** [x == 0.0] on floats. *)
Definition f_is_zero (x : pyfloat) : bool :=
  match x with
  | FFin q => Qeq_bool q 0%Q
  | _ => false
  end.

(** [int(x)]: truncation towards zero; [OverflowError] on an infinity and
    [ValueError] on a NaN. *)
Definition int_of_float (x : pyfloat) : result Z :=
  match x with
  | FFin q => Ok (Z.quot (Qnum q) (Zpos (Qden q)))
  | FInf _ => Raise OverflowError
  | FNan => Raise ValueError
  end.

(** ** Strings *)

Definition eqs (a b : string) : bool := String.eqb a b.

(** Truth value of a string: non-empty. *)
Definition truthy (s : string) : bool :=
  match s with
  | EmptyString => false
  | String _ _ => true
  end.

(** [s.split(sep)] for a one-character separator: never the empty list. *)
Fixpoint split (sep : ascii) (s : string) : list string :=
  match s with
  | EmptyString => [EmptyString]
  | String c rest =>
      if Ascii.eqb c sep then EmptyString :: split sep rest
      else match split sep rest with
           | [] => [String c EmptyString]
           | w :: ws => String c w :: ws
           end
  end.

(** [s.replace(c, "")] for a one-character [c]. *)
Fixpoint remove_char (c : ascii) (s : string) : string :=
  match s with
  | EmptyString => EmptyString
  | String d rest =>
      if Ascii.eqb d c then remove_char c rest
      else String d (remove_char c rest)
  end.

(** White space of [str.strip()] within ASCII: TAB, LF, VT, FF, CR, the
    separators 28 to 31 and the space. *)
Definition is_space (c : ascii) : bool :=
  let n := nat_of_ascii c in
  ((9 <=? n) && (n <=? 13)) || ((28 <=? n) && (n <=? 32)).

Fixpoint lstrip (s : string) : string :=
  match s with
  | EmptyString => EmptyString
  | String c rest => if is_space c then lstrip rest else s
  end.

(** Drops trailing white space: a character is kept when it is not a space
    or when something is kept after it. *)
Fixpoint rstrip (s : string) : string :=
  match s with
  | EmptyString => EmptyString
  | String c rest =>
      match rstrip rest with
      | EmptyString => if is_space c then EmptyString else String c EmptyString
      | r => String c r
      end
  end.

Definition strip (s : string) : string := rstrip (lstrip s).

Definition upper_char (c : ascii) : ascii :=
  let n := nat_of_ascii c in
  if (97 <=? n) && (n <=? 122) then ascii_of_nat (n - 32) else c.

Fixpoint upper (s : string) : string :=
  match s with
  | EmptyString => EmptyString
  | String c rest => String (upper_char c) (upper rest)
  end.

(** [s.startswith(p)]. *)
Definition startswith (p s : string) : bool := String.prefix p s.

(** [p in s] for strings. *)
Fixpoint contains (p s : string) : bool :=
  String.prefix p s ||
  match s with
  | EmptyString => false
  | String _ rest => contains p rest
  end.

(** [x in xs] for a tuple of strings. *)
Definition mem (x : string) (xs : list string) : bool :=
  existsb (eqs x) xs.

(** ** Dictionaries

    A [dict] with string keys, in insertion order. *)

Fixpoint dict_get {V : Type} (k : string) (d : list (string * V)) : option V :=
  match d with
  | [] => None
  | (k', v) :: rest => if eqs k k' then Some v else dict_get k rest
  end.

(** [k in d]. *)
Fixpoint dict_mem {V : Type} (k : string) (d : list (string * V)) : bool :=
  match d with
  | [] => false
  | (k', _) :: rest => eqs k k' || dict_mem k rest
  end.

(** [d[k] = f(d[k])] on an existing key. *)
Fixpoint dict_update {V : Type} (k : string) (f : V -> V)
  (d : list (string * V)) : list (string * V) :=
  match d with
  | [] => []
  | (k', v) :: rest =>
      if eqs k k' then (k', f v) :: rest else (k', v) :: dict_update k f rest
  end.

(** [d[k] = v]: an existing key keeps its place, a new key goes last. *)
Fixpoint dict_set {V : Type} (k : string) (v : V) (d : list (string * V))
  : list (string * V) :=
  match d with
  | [] => [(k, v)]
  | (k', v') :: rest =>
      if eqs k k' then (k', v) :: rest else (k', v') :: dict_set k v rest
  end.

(** [d.get(k, default)] on a table of strings. *)
Definition table_get (t : list (string * string)) (k default : string)
  : string :=
  match dict_get k t with
  | Some v => v
  | None => default
  end.

(** ** Dynamically typed values *)

Unset Elimination Schemes.
Inductive pyval :=
| VNone
| VStr (s : string)
| VFloat (x : pyfloat)
| VInt (n : Z)
| VBool (b : bool)
| VList (l : list pyval)
| VDict (d : list (string * pyval)).
Set Elimination Schemes.

Definition pydict := list (string * pyval).

(** [d.get(k)]: [None] on a missing key. *)
Definition item (k : string) (d : pydict) : pyval :=
  match dict_get k d with
  | Some v => v
  | None => VNone
  end.

(** Truth value. *)
Definition val_truthy (v : pyval) : bool :=
  match v with
  | VNone => false
  | VStr s => truthy s
  | VFloat x => negb (f_is_zero x)
  | VInt n => negb (Z.eqb n 0)
  | VBool b => b
  | VList l => match l with [] => false | _ => true end
  | VDict d => match d with [] => false | _ => true end
  end.

(** [v == s] for a string [s]. *)
Definition val_eq_str (v : pyval) (s : string) : bool :=
  match v with
  | VStr t => eqs t s
  | _ => false
  end.

(** [v == 0.0]. *)
Definition val_is_zero (v : pyval) : bool :=
  match v with
  | VFloat x => f_is_zero x
  | VInt n => Z.eqb n 0
  | VBool b => negb b
  | _ => false
  end.

(** The text of a string value. *)
Definition as_str (v : pyval) : string :=
  match v with
  | VStr s => s
  | _ => ""
  end.

(** Truth value of a dict. *)
Definition nonempty_dict {V : Type} (d : list (string * V)) : bool :=
  match d with
  | [] => false
  | _ :: _ => true
  end.

(** [d.setdefault(k, {})]. *)
Definition sub_dict (k : string) (d : pydict) : pydict :=
  match dict_get k d with
  | Some (VDict sub) => sub
  | _ => []
  end.

(** [d.setdefault(k, {})[k2] = v]. *)
Definition set_sub (k k2 : string) (v : pyval) (d : pydict) : pydict :=
  dict_set k (VDict (dict_set k2 v (sub_dict k d))) d.

(** [d.setdefault(k, []).append(v)]. *)
Definition append_to (k : string) (v : pyval) (d : pydict) : pydict :=
  match dict_get k d with
  | Some (VList l) => dict_set k (VList (l ++ [v])%list) d
  | _ => dict_set k (VList [v]) d
  end.

(** [os.path.basename]. *)
Definition basename (path : string) : string :=
  last (split "/" path) "".

(** ** Decimal literals

    [decimal_float] reads [sign? digits ('.' digits)?] with at least one
    digit, the form in which amounts occur in the transaction files, and
    gives its exact value.  It is the instance of [float(s)] used in the
    worked examples; on such literals whose value is a binary64 number
    (whole dollars, for one) it agrees with Python. *)

Definition digit_of (c : ascii) : option Z :=
  let n := nat_of_ascii c in
  if (48 <=? n) && (n <=? 57) then Some (Z.of_nat (n - 48)) else None.

(** Reads digits; returns the accumulated value, the number of digits and
    the rest of the text. *)
Fixpoint read_digits (s : string) (acc : Z) (cnt : nat) : Z * nat * string :=
  match s with
  | EmptyString => (acc, cnt, s)
  | String c rest =>
      match digit_of c with
      | Some d => read_digits rest (10 * acc + d)%Z (S cnt)
      | None => (acc, cnt, s)
      end
  end.

Definition decimal_unsigned (s : string) : option Q :=
  let '(ip, n1, r1) := read_digits s 0%Z 0%nat in
  match r1 with
  | EmptyString => if (0 <? n1)%nat then Some (inject_Z ip) else None
  | String "." r2 =>
      let '(fp, n2, r3) := read_digits r2 0%Z 0%nat in
      match r3 with
      | EmptyString =>
          if (0 <? n1 + n2)%nat
          then Some (Qmake (ip * Z.pow 10 (Z.of_nat n2) + fp)
                           (Z.to_pos (Z.pow 10 (Z.of_nat n2))))
          else None
      | _ => None
      end
  | _ => None
  end.

Definition decimal_float (s : string) : option pyfloat :=
  match s with
  | String "-" r => option_map (fun q => FFin (Qopp q)) (decimal_unsigned r)
  | String "+" r => option_map FFin (decimal_unsigned r)
  | _ => option_map FFin (decimal_unsigned s)
  end.

(** ** More string helpers *)

(** [c in s] for a character [c]. *)
Fixpoint has_char (c : ascii) (s : string) : bool :=
  match s with
  | EmptyString => false
  | String d rest => Ascii.eqb d c || has_char c rest
  end.

Definition is_digit (c : ascii) : bool :=
  let n := nat_of_ascii c in (48 <=? n) && (n <=? 57).

(** The characters of [s] that satisfy [f], in order. *)
Fixpoint filter_chars (f : ascii -> bool) (s : string) : string :=
  match s with
  | EmptyString => EmptyString
  | String c rest =>
      if f c then String c (filter_chars f rest) else filter_chars f rest
  end.

(** [re.sub(r"[^0-9]", "", s)]. *)
Definition digits_only (s : string) : string := filter_chars is_digit s.

(** [all(f(c) for c in s)]. *)
Fixpoint all_chars (f : ascii -> bool) (s : string) : bool :=
  match s with
  | EmptyString => true
  | String c rest => f c && all_chars f rest
  end.

(** [float(s)] on decimal literals and on the text ["inf"]. *)
Definition decimal_or_inf_float (s : string) : option pyfloat :=
  if eqs s "inf" then Some (FInf false) else decimal_float s.

End Py.

Import Py.

(* ===================================================================== *)
(** * src/denials_db_loader.py *)
(* ===================================================================== *)

Module DenialsDbLoader.

(** The denial dict built at a [CLP] segment; its key set never changes. *)
Record denial := mkDenial {
  Claim_ID : string;
  Status : string;
  Balance_Amount : pyfloat;
  Payer_ID : string;
  CPT_Code : string;
  CARC_Code : string;
  RARC_Code : string;
  Denial_Date : string;
  Practice_Type : string
}.

Definition set_CARC (v : string) (d : denial) : denial :=
  mkDenial (Claim_ID d) (Status d) (Balance_Amount d) (Payer_ID d)
           (CPT_Code d) v (RARC_Code d) (Denial_Date d) (Practice_Type d).

Definition set_RARC (v : string) (d : denial) : denial :=
  mkDenial (Claim_ID d) (Status d) (Balance_Amount d) (Payer_ID d)
           (CPT_Code d) (CARC_Code d) v (Denial_Date d) (Practice_Type d).

Definition set_CPT (v : string) (d : denial) : denial :=
  mkDenial (Claim_ID d) (Status d) (Balance_Amount d) (Payer_ID d)
           v (CARC_Code d) (RARC_Code d) (Denial_Date d) (Practice_Type d).

Definition set_Denial_Date (v : string) (d : denial) : denial :=
  mkDenial (Claim_ID d) (Status d) (Balance_Amount d) (Payer_ID d)
           (CPT_Code d) (CARC_Code d) (RARC_Code d) v (Practice_Type d).

(** Loop state of [parse_835_file]. *)
Record pstate := mkPState {
  current : option denial;
  payer : option string;
  results : list denial
}.

Definition or_empty (o : option string) : string :=
  match o with
  | Some s => s
  | None => ""
  end.

Section Parse.

Variable py_float : string -> option pyfloat.

Definition float_or_raise (s : string) : result pyfloat :=
  match py_float s with
  | Some x => Ok x
  | None => Raise ValueError
  end.

Definition flush (st : pstate) : list denial :=
  match current st with
  | Some c => (results st ++ [c])%list
  | None => results st
  end.

(** One iteration of [for seg in segments]. *)
Definition step (practice_type : option string) (st : pstate) (seg : string)
  : result pstate :=
  let parts := split "*" seg in
  let tag := nth 0 parts "" in
  if negb (truthy tag) then Ok st
  else if eqs tag "N1" && (2 <? List.length parts)%nat && eqs (nth 1 parts "") "PR"
  then Ok (mkPState (current st) (Some (nth 2 parts "")) (results st))
  else if eqs tag "CLP" then
    bal <- (if (3 <? List.length parts)%nat && truthy (nth 3 parts "")
            then float_or_raise (nth 3 parts "")
            else Ok (FFin 0%Q)) ;;
    Ok (mkPState
          (Some (mkDenial
                   (if (1 <? List.length parts)%nat then nth 1 parts "" else "")
                   (if (2 <? List.length parts)%nat then nth 2 parts "" else "")
                   bal
                   (or_empty (payer st))
                   "" "" "" ""
                   (or_empty practice_type)))
          (payer st)
          (flush st))
  else match current st with
  | None => Ok st
  | Some cur =>
      if eqs tag "CAS" then
        if (3 <=? List.length parts)%nat then
          let code := nth 2 parts "" in
          if negb (truthy (CARC_Code cur))
          then Ok (mkPState (Some (set_CARC code cur)) (payer st) (results st))
          else if negb (truthy (RARC_Code cur))
          then Ok (mkPState (Some (set_RARC code cur)) (payer st) (results st))
          else Ok st
        else Ok st
      else if eqs tag "SVC" then
        if (1 <? List.length parts)%nat && startswith "HC:" (nth 1 parts "") then
          let cpt := nth 1 (split ":" (nth 1 parts "")) "" in
          if negb (truthy (CPT_Code cur))
          then Ok (mkPState (Some (set_CPT cpt cur)) (payer st) (results st))
          else Ok st
        else Ok st
      else if eqs tag "DTM" then
        if (3 <=? List.length parts)%nat && mem (nth 1 parts "") ["232"; "233"]
        then Ok (mkPState (Some (set_Denial_Date (nth 2 parts "") cur))
                          (payer st) (results st))
        else Ok st
      else Ok st
  end.

Fixpoint loop (practice_type : option string) (st : pstate)
  (segments : list string) : result pstate :=
  match segments with
  | [] => Ok st
  | seg :: rest =>
      st' <- step practice_type st seg ;;
      loop practice_type st' rest
  end.

(** [parse_835_file], from the text read from [filepath]. *)
Definition parse_835_file (raw_text : string) (practice_type : option string)
  : result (list denial) :=
  let raw := remove_char "010" raw_text in
  let segments := split "~" raw in
  st <- loop practice_type (mkPState None None []) segments ;;
  Ok (flush st).

End Parse.

(** The two segments of Example A, as they stand in a file. *)
Definition example_a : string :=
  "CLP*CLM001*4*100.00*0.00*0.00*12*PCN1~CAS*CO*16*100.00*1~".

(** The same claim with another paid amount, adjustment group, adjustment
    amount and quantity. *)
Definition example_a_variant : string :=
  "CLP*CLM001*4*100.00*55.00*0.00*12*PCN1~CAS*PR*16*7.25*3~".

End DenialsDbLoader.

(* ===================================================================== *)
(** * src/scripts/eob_to_835.py *)
(* ===================================================================== *)

Module EobTo835.

(** Amounts of an EOB are the floats read from two-decimal dollar texts
    ([_extract_dollar], [_parse_service_line]); they are finite, and their
    arithmetic is carried out exactly, on rationals. *)

Definition Qgtb (a b : Q) : bool := negb (Qle_bool a b).
Definition Qltb (a b : Q) : bool := negb (Qle_bool b a).

(** Rounding to the nearest integer, ties to even. *)
Definition round_half_even (q : Q) : Z :=
  let f := Qfloor q in
  match Qcompare (q - inject_Z f)%Q (1 # 2)%Q with
  | Lt => f
  | Gt => (f + 1)%Z
  | Eq => if Z.even f then f else (f + 1)%Z
  end.

(** [round(x, 2)]. *)
Definition round2 (q : Q) : Q :=
  Qmake (round_half_even (q * 100)%Q) 100.

(** [format_amount]: the two-decimal number that ["{:.2f}"] prints. *)
Definition format_amount (amount : Q) : Q := round2 amount.

(** [make_service_line]. *)
Record service_line := mkSvc {
  line_number : string;
  cpt : string;
  description : string;
  billed : Q;
  allowed : Q;
  deductible : Q;
  copay : Q;
  adj_codes : list string;
  adj_amount : Q;
  paid : Q
}.

(** [make_eob]. *)
Record eob := mkEob {
  payer_name : string;
  payer_id : string;
  plan_type : string;
  date : string;
  eob_number : string;
  tax_id : string;
  patient_name : string;
  patient_dob : string;
  member_id : string;
  group : string;
  patient_account : string;
  relationship : string;
  provider_name : string;
  npi : string;
  provider_address_line : string;
  provider_city : string;
  provider_state : string;
  provider_zip : string;
  claim_number : string;
  received_date : string;
  service_from : string;
  service_to : string;
  place_of_service : string;
  claim_status : string;
  service_lines : list service_line;
  total_billed : Q;
  total_allowed : Q;
  total_deductible : Q;
  total_copay : Q;
  total_adjustment : Q;
  total_paid : Q;
  patient_responsibility : Q;
  adjustment_reason_codes : list (string * string);
  remarks : list (string * string);
  source_file : string
}.

(** ** CARC mapping *)

Record carc_entry := mkCarc {
  standard_code : string;
  carc_description : string
}.

(** A mapping table: a dict from non-standard code to its entry. *)
Definition carc_table := list (string * carc_entry).

Definition DEFAULT_CARC_MAPPING : carc_table :=
  [ ("N001", mkCarc "167" "Medical necessity");
    ("N002", mkCarc "185" "Provider not eligible");
    ("N003", mkCarc "197" "Authorization");
    ("N004", mkCarc "29" "Timely filing");
    ("N005", mkCarc "27" "Coverage terminated");
    ("N006", mkCarc "18" "Duplicate");
    ("N007", mkCarc "4" "Modifier error");
    ("N008", mkCarc "97" "Bundling");
    ("N009", mkCarc "1" "Deductible");
    ("N010", mkCarc "222" "Benefit limits") ].

Definition STANDARD_CARC_DESCRIPTIONS : list (string * string) :=
  [ ("1", "Deductible amount");
    ("2", "Coinsurance amount");
    ("3", "Copay amount");
    ("4", "The procedure code is inconsistent with the modifier used");
    ("16", "Claim/service lacks information or has submission/billing error(s)");
    ("18", "Exact duplicate claim/service");
    ("27", "Expenses incurred after coverage terminated");
    ("29", "The time limit for filing has expired");
    ("45", "Charge exceeds fee schedule/maximum allowable");
    ("50", "These are non-covered services");
    ("97", "The benefit for this service is included in payment for another service");
    ("167", "This (these) diagnosis(es) is (are) not covered");
    ("185", "The rendering provider is not eligible to perform the service billed");
    ("197", "Precertification/authorization/notification absent");
    ("222", "Exceeds the facility's maximum length of stay or benefit limits") ].

(** [map_carc_code]. *)
Definition map_carc_code (code : string) (mapping : carc_table) : string :=
  let code := strip code in
  match dict_get code mapping with
  | Some e => standard_code e
  | None => code
  end.

(** ** Claim status *)

(** [determine_claim_status_code]. *)
Definition determine_claim_status_code (e : eob) : string :=
  let plan := upper (plan_type e) in
  let status := upper (claim_status e) in
  if eqs status "DENIED" || Qeq_bool (total_paid e) 0%Q then "4"
  else if contains "SECONDARY" plan then "2"
  else "1".

(** [_plan_type_to_code]. *)
Definition _plan_type_to_code (plan_type : string) : string :=
  let pt := upper plan_type in
  let mapping :=
    [ ("HMO", "HM"); ("PPO", "PP"); ("MEDICARE", "MA"); ("MEDICAID", "MC");
      ("GOVERNMENT", "GV"); ("INDEMNITY", "IN"); ("EPO", "EP"); ("POS", "PS") ] in
  match find (fun kc => contains (fst kc) pt) mapping with
  | Some kc => snd kc
  | None => "ZZ"
  end.

(** ** Generated segments

    A segment is the list of its [*]-separated elements.  An element is a
    text or an amount printed by [format_amount]. *)

Inductive elem :=
| EStr (s : string)
| EAmt (q : Q).

Definition segment := list elem.

(** The extra codes of a CO segment: [*code*0.00] for each of
    [co_adjustments[1:6]]. *)
Definition extra_codes (co_adjustments : list string) : list elem :=
  flat_map (fun c => [EStr c; EAmt (format_amount 0%Q)])
           (firstn 5 (skipn 1 co_adjustments)).

(** The coinsurance inferred for a line. *)
Definition line_coinsurance (svc : service_line) : Q :=
  if Qgtb (allowed svc) 0%Q then
    let implied_patient := (allowed svc - paid svc)%Q in
    let known_patient := (deductible svc + copay svc)%Q in
    if Qgtb implied_patient (known_patient + (5 # 1000))%Q
    then round2 (implied_patient - known_patient)%Q
    else 0%Q
  else 0%Q.

(** The mapped codes of a line that are not the patient-responsibility
    codes 1, 2 and 3. *)
Definition line_co_adjustments (svc : service_line) (carc_mapping : carc_table)
  : list string :=
  filter (fun mapped => negb (mem mapped ["1"; "2"; "3"]))
         (map (fun raw_code => map_carc_code raw_code carc_mapping)
              (adj_codes svc)).

Definition nonempty {A} (l : list A) : bool :=
  match l with
  | [] => false
  | _ :: _ => true
  end.

(** The CO segment of a line, if one is written. *)
Definition line_co_segment (svc : service_line) (carc_mapping : carc_table)
  : list segment :=
  let coinsurance := line_coinsurance svc in
  let co_adjustments := line_co_adjustments svc carc_mapping in
  let co_amount := adj_amount svc in
  let pr_total_from_line := (deductible svc + copay svc + coinsurance)%Q in
  let co_net0 := round2 (co_amount - pr_total_from_line)%Q in
  let co_net := if Qltb co_net0 0%Q then 0%Q else co_net0 in
  if nonempty co_adjustments && Qgtb co_net 0%Q then
    [ ([EStr "CAS"; EStr "CO"; EStr (hd "" co_adjustments);
        EAmt (format_amount co_net)] ++ extra_codes co_adjustments)%list ]
  else if nonempty co_adjustments && Qgtb (adj_amount svc) 0%Q
          && Qeq_bool pr_total_from_line 0%Q then
    [ ([EStr "CAS"; EStr "CO"; EStr (hd "" co_adjustments);
        EAmt (format_amount (adj_amount svc))] ++ extra_codes co_adjustments)%list ]
  else if negb (nonempty co_adjustments) && Qgtb (billed svc) (allowed svc)
          && Qgtb (allowed svc) 0%Q then
    let writeoff := round2 (billed svc - allowed svc)%Q in
    if Qgtb writeoff 0%Q
    then [ [EStr "CAS"; EStr "CO"; EStr "45"; EAmt (format_amount writeoff)] ]
    else []
  else if negb (nonempty co_adjustments) && Qeq_bool (paid svc) 0%Q
          && Qgtb (billed svc) 0%Q then
    [ [EStr "CAS"; EStr "CO"; EStr "45"; EAmt (format_amount (billed svc))] ]
  else [].

(** The PR segments of a line. *)
Definition line_pr_segments (svc : service_line) : list segment :=
  let coinsurance := line_coinsurance svc in
  ((if Qgtb (deductible svc) 0%Q
    then [ [EStr "CAS"; EStr "PR"; EStr "1"; EAmt (format_amount (deductible svc))] ]
    else []) ++
   (if Qgtb coinsurance 0%Q
    then [ [EStr "CAS"; EStr "PR"; EStr "2"; EAmt (format_amount coinsurance)] ]
    else []) ++
   (if Qgtb (copay svc) 0%Q
    then [ [EStr "CAS"; EStr "PR"; EStr "3"; EAmt (format_amount (copay svc))] ]
    else []))%list.

(** One iteration of [for svc in eob["service_lines"]] of [generate_835]:
    SVC, DTM*472, the CAS segments and AMT*B6. *)
Definition service_line_segments (service_date : string) (svc : service_line)
  (carc_mapping : carc_table) : list segment :=
  ([ [EStr "SVC"; EStr ("HC:" ++ cpt svc); EAmt (format_amount (billed svc));
      EAmt (format_amount (paid svc)); EStr ""; EStr "1"];
     [EStr "DTM"; EStr "472"; EStr service_date] ]
   ++ line_co_segment svc carc_mapping
   ++ line_pr_segments svc
   ++ [ [EStr "AMT"; EStr "B6"; EAmt (format_amount (allowed svc))] ])%list.

(** The CLP segment of [generate_835]. *)
Definition clp_segment (e : eob) : segment :=
  [ EStr "CLP"; EStr (claim_number e); EStr (determine_claim_status_code e);
    EAmt (format_amount (total_billed e)); EAmt (format_amount (total_paid e));
    EAmt (format_amount (patient_responsibility e));
    EStr (_plan_type_to_code (plan_type e)); EStr (eob_number e) ].

(** The NM1 segment of the patient. *)
Definition nm1_segment (e : eob) : segment :=
  let name_parts := split "," (patient_name e) in
  let last_name := strip (nth 0 name_parts "") in
  let first_name :=
    if (1 <? List.length name_parts) then strip (nth 1 name_parts "") else "" in
  [ EStr "NM1"; EStr "QC"; EStr "1"; EStr last_name; EStr first_name;
    EStr ""; EStr ""; EStr "MI"; EStr (member_id e) ].

(** The claim of [generate_835]: the CLP and NM1 segments and the segments
    of every service line.  The envelope around it (ISA to the payee N4
    before, SE, GE and IEA after) carries neither claim nor adjustment
    amounts; [service_date] is [parse_date_to_edi(eob["service_from"])]. *)
Definition claim_segments (service_date : string) (e : eob)
  (carc_mapping : carc_table) : list segment :=
  clp_segment e :: nm1_segment e ::
  flat_map (fun svc => service_line_segments service_date svc carc_mapping)
           (service_lines e).

(** ** Reading a generated claim back *)

Definition seg_tag (s : segment) : string :=
  match s with
  | EStr t :: _ => t
  | _ => ""
  end.

Definition elem_amount (x : elem) : Q :=
  match x with
  | EAmt q => q
  | EStr _ => 0%Q
  end.

Definition Qsum (l : list Q) : Q := fold_right Qplus 0%Q l.

(** The amounts of one CAS segment. *)
Definition cas_amount (s : segment) : Q :=
  if eqs (seg_tag s) "CAS" then Qsum (map elem_amount s) else 0%Q.

(** The sum of all adjustment amounts of a claim. *)
Definition adjustment_total (segs : list segment) : Q :=
  Qsum (map cas_amount segs).

(** Billed and paid amount of the claim: CLP03 and CLP04. *)
Definition claim_billed (segs : list segment) : Q :=
  match find (fun s => eqs (seg_tag s) "CLP") segs with
  | Some s => elem_amount (nth 3 s (EStr ""))
  | None => 0%Q
  end.

Definition claim_paid (segs : list segment) : Q :=
  match find (fun s => eqs (seg_tag s) "CLP") segs with
  | Some s => elem_amount (nth 4 s (EStr ""))
  | None => 0%Q
  end.

(** ** Conversion tracker *)

Record usage_entry := mkUsage {
  original_description : string;
  mapped_code : string;
  mapped_description : string;
  count : nat
}.

(** [ConversionTracker.carc_mapping_usage]. *)
Definition usage := list (string * usage_entry).

(** [ConversionTracker.record_carc_mapping]. *)
Definition record_carc_mapping (u : usage)
  (original_code original_desc mapped mapped_desc : string) : usage :=
  let u1 :=
    if negb (dict_mem original_code u)
    then (u ++ [(original_code, mkUsage original_desc mapped mapped_desc 0)])%list
    else u in
  dict_update original_code
    (fun e => mkUsage (original_description e) (mapped_code e)
                      (mapped_description e) (count e + 1)) u1.

(** [s.add(x)] on a set kept as a duplicate-free list. *)
Definition set_add (x : string) (s : list string) : list string :=
  if mem x s then s else (s ++ [x])%list.

(** State of the code-collecting loop of [process_practice_type]. *)
Record collect := mkCollect {
  all_original_codes : list string;
  all_mapped_codes : list string;
  any_remapped : bool;
  carc_mapping_usage : usage
}.

(** The body of [for raw_code in svc["adj_codes"]]. *)
Definition collect_code (e : eob) (carc_mapping : carc_table)
  (c : collect) (raw_code : string) : collect :=
  let mapped := map_carc_code raw_code carc_mapping in
  let orig := set_add raw_code (all_original_codes c) in
  let mapd := set_add mapped (all_mapped_codes c) in
  if negb (eqs mapped raw_code) then
    let orig_desc :=
      match dict_get raw_code (adjustment_reason_codes e) with
      | Some d => d
      | None => ""
      end in
    let mapped_desc :=
      match dict_get mapped STANDARD_CARC_DESCRIPTIONS with
      | Some d => d
      | None => ""
      end in
    mkCollect orig mapd true
      (record_carc_mapping (carc_mapping_usage c) raw_code orig_desc mapped
                           mapped_desc)
  else mkCollect orig mapd (any_remapped c) (carc_mapping_usage c).

(** The code-collecting loop of [process_practice_type] for one EOB, on
    the tracker's usage table [u]. *)
Definition collect_codes (e : eob) (carc_mapping : carc_table) (u : usage)
  : collect :=
  fold_left
    (fun c svc => fold_left (collect_code e carc_mapping) (adj_codes svc) c)
    (service_lines e)
    (mkCollect [] [] false u).

(** The codes that [write_conversion_summary] lists under "Codes with no
    mapping (passed through)". *)
Definition unmapped (u : usage) : list string :=
  map fst (filter (fun ce => eqs (mapped_code (snd ce)) (fst ce)) u).

(** An EOB with the given status texts, totals and lines, other fields
    empty. *)
Definition eob_of (plan status : string) (tbilled tpaid : Q)
  (lines : list service_line) : eob :=
  mkEob "" "" plan "" "" "" "" "" "" "" "" "" "" "" "" "" "" "" "" "" "" "" ""
        status lines tbilled 0%Q 0%Q 0%Q 0%Q tpaid 0%Q [] [] "".

(** ** The whole transaction: [generate_835]

    The result is the list of the segments that the function joins with
    line feeds; a segment is the list of the texts and amounts that it
    joins with [*] and closes with [~]. *)

(** [str(n)] for a natural number. *)
Definition str_nat (n : nat) : string :=
  NilEmpty.string_of_uint (Nat.to_uint n).

(** [c * n] for a character [c]. *)
Fixpoint repeat_char (c : ascii) (n : nat) : string :=
  match n with
  | O => EmptyString
  | S k => String c (repeat_char c k)
  end.

(** [s.zfill(width)] for a text without a sign. *)
Definition zfill (width : nat) (s : string) : string :=
  (repeat_char "0" (width - String.length s) ++ s)%string.

(** The list [segments] and the counter [seg_count] of [generate_835]. *)
Record emitter := mkEmit {
  segments : list segment;
  seg_count : nat
}.

(** [segments.append(seg)] followed by [seg_count += 1]. *)
Definition emit (seg : segment) (em : emitter) : emitter :=
  mkEmit (segments em ++ [seg])%list (seg_count em + 1).

Section Generate.

(** [datetime.strptime(s, "%m/%d/%Y").strftime("%Y%m%d")]; [None] is
    [ValueError]. *)
Variable strptime_mdY : string -> option string.

(** [datetime.now().strftime("%H%M")] at the first and at the second
    reading of the clock. *)
Variable now_HM : nat -> string.

(** [parse_date_to_edi]. *)
Definition parse_date_to_edi (date_str : string) : string :=
  let date_str := strip date_str in
  if negb (truthy date_str) then ""
  else
    match strptime_mdY date_str with
    | Some edi => edi
    | None => remove_char "/" date_str
    end.

(** One iteration of [for svc in eob["service_lines"]], appending and
    counting as the loop body does. *)
Definition emit_service_line (service_date : string)
  (carc_mapping : carc_table) (em : emitter) (svc : service_line) : emitter :=
  let em := emit [EStr "SVC"; EStr ("HC:" ++ cpt svc);
                  EAmt (format_amount (billed svc));
                  EAmt (format_amount (paid svc)); EStr ""; EStr "1"] em in
  let em := emit [EStr "DTM"; EStr "472"; EStr service_date] em in
  let pr_deductible := deductible svc in
  let pr_copay := copay svc in
  let coinsurance := line_coinsurance svc in
  let co_adjustments := line_co_adjustments svc carc_mapping in
  let co_amount := adj_amount svc in
  let pr_total_from_line := (pr_deductible + pr_copay + coinsurance)%Q in
  let co_net0 := round2 (co_amount - pr_total_from_line)%Q in
  let co_net := if Qltb co_net0 0%Q then 0%Q else co_net0 in
  let em :=
    if nonempty co_adjustments && Qgtb co_net 0%Q then
      emit ([EStr "CAS"; EStr "CO"; EStr (hd "" co_adjustments);
             EAmt (format_amount co_net)] ++ extra_codes co_adjustments)%list
           em
    else if nonempty co_adjustments && Qgtb (adj_amount svc) 0%Q
            && Qeq_bool pr_total_from_line 0%Q then
      emit ([EStr "CAS"; EStr "CO"; EStr (hd "" co_adjustments);
             EAmt (format_amount (adj_amount svc))]
            ++ extra_codes co_adjustments)%list
           em
    else if negb (nonempty co_adjustments) && Qgtb (billed svc) (allowed svc)
            && Qgtb (allowed svc) 0%Q then
      let writeoff := round2 (billed svc - allowed svc)%Q in
      if Qgtb writeoff 0%Q
      then emit [EStr "CAS"; EStr "CO"; EStr "45";
                 EAmt (format_amount writeoff)] em
      else em
    else if negb (nonempty co_adjustments) && Qeq_bool (paid svc) 0%Q
            && Qgtb (billed svc) 0%Q then
      emit [EStr "CAS"; EStr "CO"; EStr "45";
            EAmt (format_amount (billed svc))] em
    else em in
  let em :=
    if Qgtb pr_deductible 0%Q
    then emit [EStr "CAS"; EStr "PR"; EStr "1";
               EAmt (format_amount pr_deductible)] em
    else em in
  let em :=
    if Qgtb coinsurance 0%Q
    then emit [EStr "CAS"; EStr "PR"; EStr "2";
               EAmt (format_amount coinsurance)] em
    else em in
  let em :=
    if Qgtb pr_copay 0%Q
    then emit [EStr "CAS"; EStr "PR"; EStr "3";
               EAmt (format_amount pr_copay)] em
    else em in
  emit [EStr "AMT"; EStr "B6"; EAmt (format_amount (allowed svc))] em.

(** [generate_835], for the control numbers that [process_practice_type]
    passes: positions of an enumeration. *)
Definition generate_835 (e : eob) (carc_mapping : carc_table)
  (control_number group_control : nat) : list segment :=
  let prod_date := parse_date_to_edi (date e) in
  let service_date := parse_date_to_edi (service_from e) in
  let payer_tax_id := remove_char "-" (tax_id e) in
  let sender_id := substring 0 15 (payer_id e ++ repeat_char " " 15) in
  let receiver_id := substring 0 15 (npi e ++ repeat_char " " 15) in
  let isa :=
    [ EStr "ISA"; EStr "00"; EStr (repeat_char " " 10); EStr "00";
      EStr (repeat_char " " 10); EStr "ZZ"; EStr sender_id; EStr "ZZ";
      EStr receiver_id; EStr (substring 2 6 prod_date); EStr (now_HM 0);
      EStr "^"; EStr "00501"; EStr (zfill 9 (str_nat control_number));
      EStr "0"; EStr "P"; EStr ":" ] in
  let gs :=
    [ EStr "GS"; EStr "HP"; EStr (strip (payer_id e)); EStr (strip (npi e));
      EStr prod_date; EStr (now_HM 1); EStr (str_nat group_control);
      EStr "X"; EStr "005010X221A1" ] in
  let st_control := zfill 4 (str_nat control_number) in
  let st := [ EStr "ST"; EStr "835"; EStr st_control; EStr "005010X221A1" ] in
  let em := mkEmit [isa; gs; st] 1 in
  let bpr_method := if Qgtb (total_paid e) 0%Q then "I" else "H" in
  let em := emit [ EStr "BPR"; EStr bpr_method;
                   EAmt (format_amount (total_paid e)); EStr "C"; EStr "CHK";
                   EStr ""; EStr ""; EStr ""; EStr "";
                   EStr (strip (payer_id e)); EStr ""; EStr ""; EStr "01";
                   EStr ""; EStr ""; EStr prod_date ] em in
  let em := emit [ EStr "TRN"; EStr "1"; EStr (eob_number e);
                   EStr payer_tax_id ] em in
  let em := emit [ EStr "DTM"; EStr "405"; EStr prod_date ] em in
  let em := emit [ EStr "N1"; EStr "PR"; EStr (payer_name e) ] em in
  let em := emit [ EStr "N3"; EStr "PO BOX 1000" ] em in
  let em := emit [ EStr "N4"; EStr "DALLAS"; EStr "TX"; EStr "75201" ] em in
  let em := emit [ EStr "N1"; EStr "PE"; EStr (provider_name e); EStr "XX";
                   EStr (npi e) ] em in
  let em :=
    if truthy (provider_address_line e) then
      let em := emit [ EStr "N3"; EStr (provider_address_line e) ] em in
      if truthy (provider_city e) && truthy (provider_state e)
      then emit [ EStr "N4"; EStr (provider_city e); EStr (provider_state e);
                  EStr (provider_zip e) ] em
      else em
    else em in
  let em := emit (clp_segment e) em in
  let em := emit (nm1_segment e) em in
  let em := fold_left (emit_service_line service_date carc_mapping)
                      (service_lines e) em in
  let seg_count := seg_count em + 1 in
  (segments em ++
   [ [ EStr "SE"; EStr (str_nat seg_count); EStr st_control ];
     [ EStr "GE"; EStr "1"; EStr (str_nat group_control) ];
     [ EStr "IEA"; EStr "1"; EStr (zfill 9 (str_nat control_number)) ] ])%list.

End Generate.

(** ** The per-practice totals of the tracker *)

Record practice_total := mkTotal {
  processed : nat;
  success : nat;
  fail : nat
}.

(** [ConversionTracker.total_by_practice]. *)
Definition totals := list (string * practice_total).

(** [ConversionTracker.record_practice_result]. *)
Definition record_practice_result (t : totals) (practice_type : string)
  (ok : bool) : totals :=
  let t1 :=
    if negb (dict_mem practice_type t)
    then (t ++ [(practice_type, mkTotal 0 0 0)])%list
    else t in
  let t2 :=
    dict_update practice_type
      (fun x => mkTotal (processed x + 1) (success x) (fail x)) t1 in
  if ok then
    dict_update practice_type
      (fun x => mkTotal (processed x) (success x + 1) (fail x)) t2
  else
    dict_update practice_type
      (fun x => mkTotal (processed x) (success x) (fail x + 1)) t2.

End EobTo835.

(* ===================================================================== *)
(** * src/scripts/realtime_eligibility.py: EDI271Parser *)
(* ===================================================================== *)

Module RealtimeEligibility.

Definition SEGMENT_TERMINATOR : ascii := "~".
Definition ELEMENT_SEPARATOR : ascii := "*".

Definition SERVICE_TYPE_CODES : list (string * string) :=
  [ ("1", "Medical Care");
    ("2", "Surgical");
    ("3", "Consultation");
    ("4", "Diagnostic X-Ray");
    ("5", "Diagnostic Lab");
    ("6", "Radiation Therapy");
    ("7", "Anesthesia");
    ("8", "Surgical Assistance");
    ("12", "Durable Medical Equipment");
    ("14", "Renal Supplies In The Home");
    ("23", "Diagnostic Dental");
    ("24", "Periodontics");
    ("25", "Prosthodontics");
    ("26", "Oral Surgery");
    ("27", "Orthodontics");
    ("30", "Health Benefit Plan Coverage");
    ("33", "Chiropractic");
    ("35", "Dental Care");
    ("37", "Optometry");
    ("38", "Eye Exam");
    ("41", "Optometry/Vision");
    ("42", "Home Health Care");
    ("45", "Hospice");
    ("47", "Hospital");
    ("48", "Hospital Inpatient");
    ("50", "Hospital Outpatient");
    ("51", "Hospital Emergency");
    ("52", "Hospital Emergency Medical");
    ("53", "Hospital Ambulatory Surgical");
    ("54", "Long Term Care");
    ("56", "Medically Related Transportation");
    ("60", "General Benefits");
    ("61", "In-vitro Fertilization");
    ("62", "MRI/CAT Scan");
    ("63", "Donor Procedures");
    ("65", "Newborn Care");
    ("67", "Smoking Cessation");
    ("68", "Well Baby Care");
    ("69", "Maternity");
    ("70", "Transplant");
    ("71", "Audiology Exam");
    ("72", "Inhalation Therapy");
    ("73", "Diagnostic Medical");
    ("76", "Dialysis");
    ("82", "Chemotherapy");
    ("83", "Radiation Therapy (Duplicate)");
    ("84", "Physical Therapy");
    ("85", "Occupational Therapy");
    ("86", "Speech Therapy");
    ("88", "Pharmacy");
    ("89", "Free Standing Prescription Drug");
    ("90", "Mail Order Prescription Drug");
    ("91", "Brand Name Prescription Drug");
    ("92", "Generic Prescription Drug");
    ("93", "Podiatry");
    ("94", "Podiatry - Office Visits");
    ("96", "Professional (Physician) Visit - Office");
    ("98", "Professional (Physician) Visit - Inpatient");
    ("99", "Professional (Physician) Visit - Outpatient");
    ("A4", "Psychiatric");
    ("A6", "Psychotherapy");
    ("A7", "Psychiatric - Inpatient");
    ("A8", "Psychiatric - Outpatient");
    ("AB", "Optometry");
    ("AE", "Physical Medicine");
    ("AF", "Speech Therapy (Duplicate)");
    ("AG", "Skilled Nursing Care");
    ("AJ", "Alcoholism");
    ("AK", "Drug Addiction");
    ("AL", "Vision");
    ("BB", "Partial Hospitalization (Psychiatric)");
    ("UC", "Urgent Care") ].

Definition ELIGIBILITY_BENEFIT_CODES : list (string * string) :=
  [ ("1", "Active");
    ("2", "Active - Full Risk Capitation");
    ("3", "Active - Services Capitated");
    ("4", "Active - Services Capitated to Primary Care Physician");
    ("5", "Active - Pending Investigation");
    ("6", "Inactive");
    ("7", "Inactive - Pending Eligibility Update");
    ("8", "Inactive - Pending Investigation");
    ("A", "Co-Insurance");
    ("B", "Co-Payment");
    ("C", "Deductible");
    ("D", "Benefit Description");
    ("E", "Exclusions");
    ("F", "Limitations");
    ("G", "Out of Pocket (Stop Loss)");
    ("H", "Unlimited");
    ("I", "Non-Covered");
    ("J", "Cost Containment");
    ("K", "Reserve");
    ("L", "Primary Care Provider");
    ("M", "Pre-existing Condition");
    ("MC", "Managed Care Coordinator");
    ("N", "Services Restricted to Following Provider");
    ("O", "Not Deemed a Medical Necessity");
    ("P", "Benefit Disclaimer");
    ("Q", "Second Surgical Opinion Required");
    ("R", "Other or Additional Payor");
    ("S", "Prior Year(s) History");
    ("T", "Card(s) Reported Lost/Stolen");
    ("U", "Contact Following Entity for Information");
    ("V", "Cannot Process");
    ("W", "Other Source of Data");
    ("X", "Health Care Facility");
    ("Y", "Spend Down");
    ("CB", "Coverage Basis") ].

Definition INSURANCE_TYPE_MAP : list (string * string) :=
  [ ("12", "Medicare Secondary Working Aged Beneficiary");
    ("13", "Medicare Secondary End-Stage Renal Disease");
    ("14", "Medicare Secondary, No-fault Insurance");
    ("15", "Medicare Secondary Workers Compensation");
    ("16", "Medicare Secondary Public Health Service");
    ("41", "Medicare Secondary Black Lung");
    ("42", "Medicare Secondary Veterans Administration");
    ("43", "Medicare Secondary Disabled Beneficiary Under 65");
    ("47", "Medicare Secondary, Other Liability Insurance");
    ("AP", "Auto Insurance Policy");
    ("C1", "Commercial");
    ("CO", "Consolidated Omnibus Budget Reconciliation Act (COBRA)");
    ("GP", "Group Policy");
    ("HM", "Health Maintenance Organization (HMO)");
    ("HN", "Health Maintenance Organization (HMO) - Medicare Risk");
    ("IP", "Individual Policy");
    ("MA", "Medicare Part A");
    ("MB", "Medicare Part B");
    ("MC", "Medicaid");
    ("MP", "Medicare Primary");
    ("OT", "Other");
    ("PP", "Preferred Provider Organization (PPO)");
    ("SP", "Supplemental Policy") ].

Definition COVERAGE_LEVEL_MAP : list (string * string) :=
  [ ("CHD", "Children Only");
    ("DEP", "Dependents Only");
    ("ECH", "Employee and Children");
    ("EMP", "Employee Only");
    ("ESP", "Employee and Spouse");
    ("FAM", "Family");
    ("IND", "Individual");
    ("SPC", "Spouse and Children");
    ("SPO", "Spouse Only") ].

Definition TIME_PERIOD_MAP : list (string * string) :=
  [ ("6", "Hour");
    ("7", "Day");
    ("13", "24 Hours");
    ("21", "Years");
    ("22", "Service Year");
    ("23", "Calendar Year");
    ("24", "Year to Date");
    ("25", "Contract");
    ("26", "Episode");
    ("27", "Visit");
    ("28", "Outlier");
    ("29", "Remaining");
    ("30", "Exceeded");
    ("31", "Not Exceeded");
    ("32", "Lifetime");
    ("33", "Lifetime Remaining");
    ("34", "Month");
    ("35", "Week");
    ("36", "Admission") ].

Definition RELATIONSHIP_MAP : list (string * string) :=
  [ ("18", "Self");
    ("01", "Spouse");
    ("19", "Child");
    ("20", "Employee");
    ("21", "Unknown");
    ("34", "Other Adult");
    ("39", "Organ Donor");
    ("40", "Cadaver Donor");
    ("53", "Life Partner");
    ("G8", "Other Relationship") ].

Definition PLAN_TYPE_SHORT : list (string * string) :=
  [ ("HM", "HMO");
    ("HN", "HMO-Medicare");
    ("PP", "PPO");
    ("MA", "Medicare A");
    ("MB", "Medicare B");
    ("MP", "Medicare");
    ("MC", "Medicaid");
    ("C1", "Commercial");
    ("GP", "Group");
    ("IP", "Individual");
    ("CO", "COBRA");
    ("SP", "Supplement");
    ("OT", "Other") ].

(** [EDI271Parser._elem]. *)
Definition _elem (seg : list string) (idx : nat) : string :=
  if idx <? List.length seg then strip (nth idx seg "") else "".

(** [EDI271Parser._tokenize]. *)
Definition _tokenize (raw : string) : list (list string) :=
  let raw := remove_char "013" (remove_char "010" raw) in
  let seg_strings := filter truthy (map strip (split SEGMENT_TERMINATOR raw)) in
  map (split ELEMENT_SEPARATOR) seg_strings.

(** [EDI271Parser._new_patient_record]. *)
Definition _new_patient_record (filepath : string) : pydict :=
  [ ("source_file", VStr (basename filepath));
    ("patient_name", VStr "");
    ("patient_first", VStr "");
    ("patient_last", VStr "");
    ("member_id", VStr "");
    ("dob", VStr "");
    ("gender", VStr "");
    ("address", VStr "");
    ("city", VStr "");
    ("state", VStr "");
    ("zip", VStr "");
    ("relationship", VStr "");
    ("coverage_status", VStr "Unknown");
    ("plan_type", VStr "");
    ("plan_type_code", VStr "");
    ("payer_name", VStr "");
    ("payer_id", VStr "");
    ("group_number", VStr "");
    ("group_name", VStr "");
    ("effective_date", VStr "");
    ("term_date", VStr "");
    ("provider_npi", VStr "");
    ("provider_name", VStr "");
    ("provider_taxonomy", VStr "");
    ("network_status", VStr "Unknown");
    ("participating", VStr "Unknown");
    ("trace_number", VStr "");
    ("deductible", VFloat fzero);
    ("deductible_remaining", VFloat fzero);
    ("family_deductible", VFloat fzero);
    ("family_deductible_remaining", VFloat fzero);
    ("copay", VFloat fzero);
    ("copays", VDict []);
    ("copays_oon", VDict []);
    ("coinsurance_pct", VInt 0);
    ("coinsurance_pct_oon", VInt 0);
    ("coinsurance_in", VDict []);
    ("coinsurance_oon", VDict []);
    ("oop_max", VFloat fzero);
    ("oop_remaining", VFloat fzero);
    ("lifetime_max", VFloat fzero);
    ("services", VList []);
    ("preauth_services", VList []);
    ("preauth_messages", VList []);
    ("messages", VList []) ].

(** Instants of the wall clock and of parsed dates, on one time line. *)
Definition instant := Z.

Section Parser.

(** [float(s)]; [None] is [ValueError]. *)
Variable py_float : string -> option pyfloat.

(** [datetime.strptime(s, "%Y%m%d")]; [None] is [ValueError]. *)
Variable strptime_Ymd : string -> option instant.

(** [PLAN_TYPE_SHORT.get(c, INSURANCE_TYPE_MAP.get(c, c))]. *)
Definition plan_type_name (c : string) : string :=
  table_get PLAN_TYPE_SHORT c (table_get INSURANCE_TYPE_MAP c c).

Definition or_general (eb03 : string) (general : string) : string :=
  if truthy eb03 then eb03 else general.

(** The coverage-status part of [_parse_eb_segment]. *)
Definition eb_coverage (eb01 eb05 : string) (patient : pydict) : pydict :=
  if mem eb01 ["1"; "2"; "3"; "4"; "5"] then
    let p := dict_set "coverage_status" (VStr "Active") patient in
    if truthy eb05 then
      dict_set "plan_type" (VStr (plan_type_name eb05))
        (dict_set "plan_type_code" (VStr eb05) p)
    else p
  else if mem eb01 ["6"; "7"; "8"] then
    if negb (val_eq_str (item "coverage_status" patient) "Active")
    then dict_set "coverage_status" (VStr "Inactive") patient
    else patient
  else patient.

(** [pct = int(float(eb07))] under [except (ValueError, TypeError)]. *)
Definition eb_pct (eb07 : string) : result Z :=
  if truthy eb07 then
    match py_float eb07 with
    | None => Ok 0%Z
    | Some x =>
        match int_of_float x with
        | Ok n => Ok n
        | Raise ValueError => Ok 0%Z
        | Raise e => Raise e
        end
    end
  else Ok 0%Z.

(** The benefit part of [_parse_eb_segment]: the chain on EB01 from
    deductible (C) to cost containment (J). *)
Definition eb_benefit (eb01 eb02 eb03 eb06 eb07 : string)
  (coverage_level : string) (is_out_of_network : bool) (amount : pyfloat)
  (patient : pydict) : result pydict :=
  if eqs eb01 "C" then
    if eqs eb02 "IND" then
      if eqs eb06 "29"
      then Ok (dict_set "deductible_remaining" (VFloat amount) patient)
      else if mem eb06 ["23"; "24"; "25"]
      then Ok (dict_set "deductible" (VFloat amount) patient)
      else Ok patient
    else if eqs eb02 "FAM" then
      if eqs eb06 "29"
      then Ok (dict_set "family_deductible_remaining" (VFloat amount) patient)
      else if mem eb06 ["23"; "24"; "25"]
      then Ok (dict_set "family_deductible" (VFloat amount) patient)
      else Ok patient
    else Ok patient
  else if eqs eb01 "B" then
    if f_gt0 amount then
      let svc_label := or_general eb03 "general" in
      let copay_key := ("copay_" ++ svc_label)%string in
      if negb is_out_of_network then
        let p := set_sub "copays" copay_key (VFloat amount) patient in
        if mem svc_label ["96"; "UC"; "general"]
        then Ok (dict_set "copay" (VFloat amount) p)
        else Ok p
      else Ok (set_sub "copays_oon" copay_key (VFloat amount) patient)
    else Ok patient
  else if eqs eb01 "A" then
    pct <- eb_pct eb07 ;;
    if (0 <? pct)%Z then
      if is_out_of_network then
        let p := set_sub "coinsurance_oon" (or_general eb03 "general")
                         (VInt pct) patient in
        if negb (val_truthy (item "coinsurance_pct_oon" p))
        then Ok (dict_set "coinsurance_pct_oon" (VInt pct) p)
        else Ok p
      else
        let p := set_sub "coinsurance_in" (or_general eb03 "general")
                         (VInt pct) patient in
        if negb (val_truthy (item "coinsurance_pct" p))
        then Ok (dict_set "coinsurance_pct" (VInt pct) p)
        else Ok p
    else Ok patient
  else if eqs eb01 "G" then
    if eqs eb02 "IND" then
      if eqs eb06 "29"
      then Ok (dict_set "oop_remaining" (VFloat amount) patient)
      else if mem eb06 ["23"; "24"; "25"]
      then Ok (dict_set "oop_max" (VFloat amount) patient)
      else Ok patient
    else Ok patient
  else if eqs eb01 "F" then
    if eqs eb06 "32"
    then Ok (dict_set "lifetime_max" (VFloat amount) patient)
    else Ok patient
  else if eqs eb01 "J" then
    let svc := if truthy eb03 then table_get SERVICE_TYPE_CODES eb03 eb03
               else "General" in
    Ok (append_to "preauth_services"
          (VDict [ ("service_type_code", VStr eb03);
                   ("service_type", VStr svc);
                   ("coverage_level", VStr coverage_level) ])
          patient)
  else Ok patient.

(** [EDI271Parser._parse_eb_segment]. *)
Definition _parse_eb_segment (seg : list string) (patient : pydict)
  : result pydict :=
  let eb01 := _elem seg 1 in
  let eb02 := _elem seg 2 in
  let eb03 := _elem seg 3 in
  let eb05 := _elem seg 5 in
  let eb06 := _elem seg 6 in
  let eb07 := _elem seg 7 in
  let eb12 := if 11 <? List.length seg then _elem seg 11 else "" in
  let coverage_level := table_get COVERAGE_LEVEL_MAP eb02 eb02 in
  let service_type :=
    if truthy eb03 then table_get SERVICE_TYPE_CODES eb03 eb03 else "General" in
  let time_period := table_get TIME_PERIOD_MAP eb06 eb06 in
  let is_out_of_network := eqs eb12 "N" in
  let benefit_type := table_get ELIGIBILITY_BENEFIT_CODES eb01 eb01 in
  let amount :=
    if truthy eb07 then
      match py_float eb07 with
      | Some x => x
      | None => fzero
      end
    else fzero in
  let p1 := eb_coverage eb01 eb05 patient in
  p2 <- eb_benefit eb01 eb02 eb03 eb06 eb07 coverage_level is_out_of_network
                   amount p1 ;;
  if truthy eb03 && negb (mem eb01 ["J"]) then
    Ok (append_to "services"
          (VDict [ ("service_type_code", VStr eb03);
                   ("service_type", VStr service_type);
                   ("benefit_type", VStr benefit_type);
                   ("coverage_level", VStr coverage_level);
                   ("amount", VFloat amount);
                   ("time_period", VStr time_period);
                   ("in_network", VBool (negb is_out_of_network)) ])
          p2)
  else Ok p2.

(** The termination part of [_finalize_patient]; [now] is the value that
    [datetime.now()] returns if it is called. *)
Definition finalize_status (now : instant) (patient : pydict) : pydict :=
  if val_truthy (item "term_date" patient) then
    match strptime_Ymd (as_str (item "term_date" patient)) with
    | Some td =>
        if (td <? now)%Z then
          if mem (as_str (item "coverage_status" patient))
                 ["Unknown"; "Inactive"]
          then dict_set "coverage_status" (VStr "Terminated") patient
          else patient
        else patient
    | None => patient
    end
  else patient.

(** The copay part of [_finalize_patient]. *)
Definition finalize_copay (patient : pydict) : pydict :=
  if val_is_zero (item "copay" patient) && val_truthy (item "copays" patient)
  then
    let copays := sub_dict "copays" patient in
    let p1 :=
      match find (fun key => dict_mem key copays)
                 ["copay_96"; "copay_UC"; "copay_30"] with
      | Some key => dict_set "copay" (item key copays) patient
      | None => patient
      end in
    if val_is_zero (item "copay" p1) then
      match map snd copays with
      | v :: _ => dict_set "copay" v p1
      | [] => p1
      end
    else p1
  else patient.

(** The date-display part of [_finalize_patient], for one field. *)
Definition format_date_field (date_field : string) (patient : pydict)
  : pydict :=
  let val := match dict_get date_field patient with
             | Some v => v
             | None => VStr ""
             end in
  if val_truthy val && (String.length (as_str val) =? 8) then
    dict_set (date_field ++ "_formatted")%string
      (VStr (String.substring 4 2 (as_str val) ++ "/" ++
             String.substring 6 2 (as_str val) ++ "/" ++
             String.substring 0 4 (as_str val))%string)
      patient
  else patient.

(** [EDI271Parser._finalize_patient]. *)
Definition _finalize_patient (now : instant) (patient : pydict) : pydict :=
  let p1 := finalize_status now patient in
  let p2 := finalize_copay p1 in
  fold_left (fun p date_field => format_date_field date_field p)
            ["dob"; "effective_date"; "term_date"] p2.

(** ** The segment walker

    Patient records live in a store and are referred to by their index:
    [patients] and [current_patient] hold references, as the Python
    variables do. *)

Definition store := list pydict.

Definition store_get (h : store) (l : nat) : pydict := nth l h [].

Fixpoint store_set (h : store) (l : nat) (p : pydict) : store :=
  match h, l with
  | [], _ => []
  | _ :: t, O => p :: t
  | x :: t, S l' => x :: store_set t l' p
  end.

Record wstate := mkW {
  heap : store;
  patients : list nat;
  current_payer : list (string * string);
  current_provider : list (string * string);
  current_patient : option nat;
  context : string
}.

(** Truth value of [current_patient]: not [None] and not an empty dict. *)
Definition has_patient (st : wstate) : bool :=
  match current_patient st with
  | Some l => nonempty_dict (store_get (heap st) l)
  | None => false
  end.

(** Applies an update to the record [current_patient] refers to. *)
Definition on_patient (f : pydict -> pydict) (st : wstate) : wstate :=
  match current_patient st with
  | Some l =>
      mkW (store_set (heap st) l (f (store_get (heap st) l)))
          (patients st) (current_payer st) (current_provider st)
          (current_patient st) (context st)
  | None => st
  end.

Definition set_payer (d : list (string * string)) (st : wstate) : wstate :=
  mkW (heap st) (patients st) d (current_provider st) (current_patient st)
      (context st).

Definition set_provider (d : list (string * string)) (st : wstate) : wstate :=
  mkW (heap st) (patients st) (current_payer st) d (current_patient st)
      (context st).

Definition set_context (c : string) (st : wstate) : wstate :=
  mkW (heap st) (patients st) (current_payer st) (current_provider st)
      (current_patient st) c.

(** The patients list after [if current_patient is not None:
    patients.append(current_patient)]. *)
Definition flushed (st : wstate) : list nat :=
  match current_patient st with
  | Some l => (patients st ++ [l])%list
  | None => patients st
  end.

(** The [HL*..*22] branch: flush, then a fresh record that inherits the
    payer and the provider. *)
Definition open_subscriber (filepath : string) (st : wstate) : wstate :=
  let payer := current_payer st in
  let prov := current_provider st in
  let rec :=
    dict_set "provider_taxonomy" (VStr (table_get prov "taxonomy" ""))
    (dict_set "participating" (VStr (table_get prov "participating" "Unknown"))
    (dict_set "network_status" (VStr (table_get prov "network_status" "Unknown"))
    (dict_set "provider_name" (VStr (table_get prov "name" ""))
    (dict_set "provider_npi" (VStr (table_get prov "npi" ""))
    (dict_set "payer_id" (VStr (table_get payer "payer_id" ""))
    (dict_set "payer_name" (VStr (table_get payer "name" ""))
       (_new_patient_record filepath))))))) in
  mkW (heap st ++ [rec])%list (flushed st) payer prov
      (Some (List.length (heap st))) "subscriber".

(** The [MSG] branch on the current record. *)
Definition add_message (msg_text : string) (p : pydict) : pydict :=
  if truthy msg_text then
    let p1 := append_to "messages" (VStr msg_text) p in
    if contains "PRE-AUTHORIZATION" (upper msg_text)
       || contains "PREAUTH" (upper msg_text)
    then append_to "preauth_messages" (VStr msg_text) p1
    else p1
  else p.

(** One iteration of the [while] loop of [_walk_segments]. *)
Definition step (filepath : string) (st : wstate) (seg : list string)
  : result wstate :=
  let seg_id := nth 0 seg "" in
  if eqs seg_id "ISA" then Ok st
  else if eqs seg_id "GS" then Ok st
  else if eqs seg_id "ST" then Ok st
  else if eqs seg_id "BHT" then Ok st
  else if eqs seg_id "HL" then
    let hl_level := _elem seg 3 in
    if eqs hl_level "20" then Ok (set_payer [] (set_context "payer" st))
    else if eqs hl_level "21"
    then Ok (set_provider [] (set_context "provider" st))
    else if eqs hl_level "22" then Ok (open_subscriber filepath st)
    else Ok st
  else if eqs seg_id "NM1" then
    let entity_code := _elem seg 1 in
    if eqs (context st) "payer" && eqs entity_code "PR" then
      Ok (set_payer (dict_set "payer_id" (_elem seg 9)
                       (dict_set "name" (_elem seg 3) (current_payer st))) st)
    else if eqs (context st) "provider" && eqs entity_code "1P" then
      let prov_last := _elem seg 3 in
      let prov_first := _elem seg 4 in
      Ok (set_provider
            (dict_set "npi" (_elem seg 9)
               (dict_set "name" (strip (prov_first ++ " " ++ prov_last)%string)
                         (current_provider st))) st)
    else if eqs (context st) "subscriber" && eqs entity_code "IL"
            && has_patient st then
      Ok (on_patient (fun p =>
            dict_set "member_id" (VStr (_elem seg 9))
            (dict_set "patient_name"
               (VStr (strip (_elem seg 4 ++ " " ++ _elem seg 3)%string))
            (dict_set "patient_first" (VStr (_elem seg 4))
            (dict_set "patient_last" (VStr (_elem seg 3)) p)))) st)
    else Ok st
  else if eqs seg_id "DMG" && eqs (context st) "subscriber" && has_patient st
  then Ok (on_patient (fun p =>
             dict_set "gender" (VStr (_elem seg 3))
               (dict_set "dob" (VStr (_elem seg 2)) p)) st)
  else if eqs seg_id "N3" && eqs (context st) "subscriber" && has_patient st
  then Ok (on_patient (dict_set "address" (VStr (_elem seg 1))) st)
  else if eqs seg_id "N4" && eqs (context st) "subscriber" && has_patient st
  then Ok (on_patient (fun p =>
             dict_set "zip" (VStr (_elem seg 3))
               (dict_set "state" (VStr (_elem seg 2))
                  (dict_set "city" (VStr (_elem seg 1)) p))) st)
  else if eqs seg_id "INS" && eqs (context st) "subscriber" && has_patient st
  then
    let rel_code := _elem seg 2 in
    Ok (on_patient (dict_set "relationship"
                      (VStr (table_get RELATIONSHIP_MAP rel_code rel_code))) st)
  else if eqs seg_id "TRN" && eqs (context st) "subscriber" && has_patient st
  then Ok (on_patient (dict_set "trace_number" (VStr (_elem seg 2))) st)
  else if eqs seg_id "DTP" && eqs (context st) "subscriber" && has_patient st
  then
    let qualifier := _elem seg 1 in
    let date_val := _elem seg 3 in
    if eqs qualifier "356"
    then Ok (on_patient (dict_set "effective_date" (VStr date_val)) st)
    else if eqs qualifier "357"
    then Ok (on_patient (dict_set "term_date" (VStr date_val)) st)
    else Ok st
  else if eqs seg_id "REF" && has_patient st then
    let ref_qual := _elem seg 1 in
    let ref_val := _elem seg 2 in
    if eqs (context st) "provider" then
      if eqs ref_qual "EO" then
        Ok (set_provider
              (dict_set "network_status"
                 (if eqs ref_val "IN" then "In-Network" else "Out-of-Network")
                 (current_provider st)) st)
      else if eqs ref_qual "9K" then
        Ok (set_provider
              (dict_set "participating"
                 (if eqs ref_val "Y" then "Yes" else "No")
                 (current_provider st)) st)
      else Ok st
    else if eqs (context st) "subscriber" then
      if eqs ref_qual "18"
      then Ok (on_patient (dict_set "group_number" (VStr ref_val)) st)
      else if eqs ref_qual "1L"
      then Ok (on_patient (dict_set "group_name" (VStr ref_val)) st)
      else if eqs ref_qual "6P"
      then Ok (on_patient (fun p =>
                 dict_set "plan_type" (VStr (plan_type_name ref_val))
                   (dict_set "plan_type_code" (VStr ref_val) p)) st)
      else Ok st
    else Ok st
  else if eqs seg_id "PRV" && eqs (context st) "provider" then
    Ok (set_provider (dict_set "taxonomy" (_elem seg 3) (current_provider st))
                     st)
  else if eqs seg_id "EB" && has_patient st then
    match current_patient st with
    | Some l =>
        p <- _parse_eb_segment seg (store_get (heap st) l) ;;
        Ok (on_patient (fun _ => p) st)
    | None => Ok st
    end
  else if eqs seg_id "MSG" && has_patient st then
    Ok (on_patient (add_message (_elem seg 1)) st)
  else if mem seg_id ["SE"; "GE"; "IEA"] then Ok st
  else Ok st.

(** The [while i < len(segments)] loop. *)
Fixpoint walk (filepath : string) (st : wstate) (segments : list (list string))
  : result wstate :=
  match segments with
  | [] => Ok st
  | seg :: rest =>
      st' <- step filepath st seg ;;
      walk filepath st' rest
  end.

Definition initial : wstate := mkW [] [] [] [] None "envelope".

(** [for pat in patients: self._finalize_patient(pat)]; [clock i] is what
    [datetime.now()] returns while the record at position [i] of
    [patients] is finalized. *)
Fixpoint finalize_all (clock : nat -> instant) (i : nat) (refs : list nat)
  (h : store) : store :=
  match refs with
  | [] => h
  | l :: rest =>
      finalize_all clock (S i) rest
        (store_set h l (_finalize_patient (clock i) (store_get h l)))
  end.

(** [EDI271Parser._walk_segments]: the final store and the returned list
    of references. *)
Definition _walk_segments (clock : nat -> instant)
  (segments : list (list string)) (filepath : string)
  : result (store * list nat) :=
  st <- walk filepath initial segments ;;
  let refs := flushed st in
  Ok (finalize_all clock 0 refs (heap st), refs).

(** The returned list, as values. *)
Definition records (out : store * list nat) : list pydict :=
  map (store_get (fst out)) (snd out).

(** [EDI271Parser.parse_file], from the text read from [filepath]. *)
Definition parse_file (clock : nat -> instant) (raw : string)
  (filepath : string) : result (list pydict) :=
  out <- _walk_segments clock (_tokenize raw) filepath ;;
  Ok (records out).

End Parser.

(** ** A calendar for the worked examples

    Instants are written as the number YYYYMMDDhhmmss, which orders them as
    the calendar does.  [ymd8] is [strptime(s, "%Y%m%d")] on eight-digit
    texts that name a day of the calendar. *)

Definition is_leap (y : Z) : bool :=
  ((y mod 4 =? 0) && negb (y mod 100 =? 0) || (y mod 400 =? 0))%Z.

Definition days_in_month (y m : Z) : Z :=
  if (m =? 2)%Z then (if is_leap y then 29 else 28)%Z
  else if ((m =? 4) || (m =? 6) || (m =? 9) || (m =? 11))%Z then 30%Z
  else 31%Z.

Definition ymd8 (s : string) : option instant :=
  if String.length s =? 8 then
    let '(n, cnt, rest) := read_digits s 0%Z 0 in
    if cnt =? 8 then
      let y := (n / 10000)%Z in
      let m := ((n / 100) mod 100)%Z in
      let d := (n mod 100)%Z in
      if ((1 <=? y) && (1 <=? m) && (m <=? 12) && (1 <=? d)
          && (d <=? days_in_month y m))%Z
      then Some (n * 1000000)%Z
      else None
    else None
  else None.

(** ** Alerts

    An alert is represented by its [alert_type]; the description and the
    action text, which no condition reads, are left out.  [None] stands
    for an exception that [generate_alerts] lets through. *)

Section Alerts.

(** [datetime.strptime(s, "%Y%m%d")]; [None] is [ValueError]. *)
Variable strptime_Ymd : string -> option instant.

(** [remaining / deductible > 0.75] on two values that are both greater
    than 0; [None] is an exception. *)
Variable ratio_above : pyval -> pyval -> option bool.

(** [v > 0]; [None] is [TypeError]. *)
Definition val_gt0 (v : pyval) : option bool :=
  match v with
  | VFloat x => Some (f_gt0 x)
  | VInt n => Some (0 <? n)%Z
  | VBool b => Some b
  | _ => None
  end.

(** [s.get("service_type", s.get("service_type_code", ""))] as an item of
    [", ".join(...)]; [None] is [AttributeError] on a value without [get]
    or [TypeError] on a label that is not a text. *)
Definition service_label (s : pyval) : option string :=
  match s with
  | VDict d =>
      match dict_get "service_type" d with
      | Some (VStr t) => Some t
      | Some _ => None
      | None =>
          match dict_get "service_type_code" d with
          | Some (VStr t) => Some t
          | Some _ => None
          | None => Some ""
          end
      end
  | _ => None
  end.

Fixpoint service_labels (l : list pyval) : option (list string) :=
  match l with
  | [] => Some []
  | s :: rest =>
      match service_label s, service_labels rest with
      | Some t, Some ts => Some (t :: ts)
      | _, _ => None
      end
  end.

(** The expired-coverage check; [now] is the value that [datetime.now()]
    returns if it is called. *)
Definition expired_alert (now : instant) (patient : pydict) : list string :=
  match item "term_date" patient with
  | VStr s =>
      if truthy s then
        match strptime_Ymd s with
        | Some td => if (td <? now)%Z then ["EXPIRED_COVERAGE"] else []
        | None => []
        end
      else []
  | _ => []
  end.

(** The high-deductible check. *)
Definition deductible_alert (patient : pydict) : option (list string) :=
  let deductible := match dict_get "deductible" patient with
                    | Some v => v
                    | None => VInt 0
                    end in
  let remaining := match dict_get "deductible_remaining" patient with
                   | Some v => v
                   | None => VInt 0
                   end in
  match val_gt0 deductible with
  | None => None
  | Some false => Some []
  | Some true =>
      match val_gt0 remaining with
      | None => None
      | Some false => Some []
      | Some true =>
          match ratio_above remaining deductible with
          | None => None
          | Some true => Some ["HIGH_DEDUCTIBLE_REMAINING"]
          | Some false => Some []
          end
      end
  end.

(** The pre-authorization check. *)
Definition preauth_alert (patient : pydict) : option (list string) :=
  if val_truthy (item "preauth_services" patient) then
    match item "preauth_services" patient with
    | VList l =>
        match service_labels l with
        | Some _ => Some ["PREAUTH_REQUIRED"]
        | None => None
        end
    | _ => None
    end
  else Some [].

(** [generate_alerts]. *)
Definition generate_alerts (now : instant) (patient : pydict)
  : option (list string) :=
  let status := match dict_get "coverage_status" patient with
                | Some v => v
                | None => VStr "Unknown"
                end in
  let inactive :=
    if val_eq_str status "Inactive" || val_eq_str status "Terminated"
    then ["INACTIVE_COVERAGE"] else [] in
  let expired := expired_alert now patient in
  let out_of_network :=
    if val_eq_str (item "network_status" patient) "Out-of-Network"
    then ["OUT_OF_NETWORK"] else [] in
  match deductible_alert patient with
  | None => None
  | Some high_deductible =>
      match preauth_alert patient with
      | None => None
      | Some preauth =>
          let unknown :=
            if val_eq_str status "Unknown" then ["UNKNOWN_COVERAGE"] else [] in
          Some (inactive ++ expired ++ out_of_network ++ high_deductible
                ++ preauth ++ unknown)%list
      end
  end.

End Alerts.

End RealtimeEligibility.

(* ===================================================================== *)
(** * src/scripts/etl_engine.py *)
(* ===================================================================== *)

Module EtlEngine.

(** [split_fields]. *)
Definition split_fields (segment : string) : list string :=
  let parts := split "|" segment in
  if eqs (nth 0 parts "") "MSH" then ("MSH" :: "|" :: tl parts)%list
  else parts.

(** [get_component]. *)
Definition get_component (field : string) (index : nat) : string :=
  if negb (truthy field) then ""
  else
    let components := split "^" field in
    if index <? List.length components then strip (nth index components "")
    else "".

(** [get_field]. *)
Definition get_field (fields : list string) (index : nat) (default : string)
  : string :=
  if index <? List.length fields then nth index fields "" else default.

(** [get_subcomponent]. *)
Definition get_subcomponent (component_str : string) (index : nat) : string :=
  if negb (truthy component_str) then ""
  else
    let parts := split "&" component_str in
    if index <? List.length parts then strip (nth index parts "") else "".

(** A patient row ([build_patient_row]): a dict of texts. *)
Definition row := list (string * string).

(** [build_dedup_key]. *)
Definition build_dedup_key (patient : row) : string :=
  let last := upper (strip (table_get patient "last_name" "")) in
  let first := upper (strip (table_get patient "first_name" "")) in
  let dob := strip (table_get patient "dob" "") in
  (last ++ "|" ++ first ++ "|" ++ dob)%string.

(** The keys of a dict, each once, in order. *)
Fixpoint keys_of (seen_keys : list string) (d : row) : list string :=
  match d with
  | [] => []
  | (k, _) :: rest =>
      if mem k seen_keys then keys_of seen_keys rest
      else k :: keys_of (k :: seen_keys) rest
  end.

(** The body of [for field in patient] of the merge: [orig] is
    [seen[key]], [dup] is [patient]. *)
Definition merge_field (dup : row) (orig : row) (field : string) : row :=
  if negb (dict_mem field orig) || negb (truthy (table_get orig field ""))
  then dict_set field (table_get dup field "") orig
  else orig.

(** The merge loop of [deduplicate_patients]. *)
Definition merge (orig dup : row) : row :=
  fold_left (merge_field dup) (keys_of [] dup) orig.

(** An entry of [duplicate_details]. *)
Record detail := mkDetail {
  patient_key : string;
  duplicate_system : string;
  original_system : string;
  patient_id_dup : string;
  patient_id_orig : string
}.

(** The rows live in a store; the input list, [seen] and [deduplicated]
    hold references into it, as the Python containers do, so that a merge
    into [seen[key]] shows in [deduplicated] and in the caller's rows. *)
Definition store := list row.

Definition store_get (h : store) (l : nat) : row := nth l h [].

Fixpoint store_set (h : store) (l : nat) (p : row) : store :=
  match h, l with
  | [], _ => []
  | _ :: t, O => p :: t
  | x :: t, S l' => x :: store_set t l' p
  end.

Record dstate := mkD {
  heap : store;
  seen : list (string * nat);
  deduplicated : list nat;
  duplicate_count : nat;
  duplicate_details : list detail
}.

(** The test [not key or key == "||"]. *)
Definition no_key (key : string) : bool :=
  negb (truthy key) || eqs key "||".

(** One iteration of [for patient in patient_records]. *)
Definition step (st : dstate) (p : nat) : dstate :=
  let patient := store_get (heap st) p in
  let key := build_dedup_key patient in
  if no_key key then
    mkD (heap st) (seen st) (deduplicated st ++ [p])%list
        (duplicate_count st) (duplicate_details st)
  else
    match dict_get key (seen st) with
    | Some o =>
        let orig := store_get (heap st) o in
        mkD (store_set (heap st) o (merge orig patient))
            (seen st)
            (deduplicated st)
            (duplicate_count st + 1)
            (duplicate_details st ++
               [ mkDetail key
                   (table_get patient "source_system" "")
                   (table_get orig "source_system" "")
                   (table_get patient "patient_id" "")
                   (table_get orig "patient_id" "") ])%list
    | None =>
        mkD (heap st) (dict_set key p (seen st)) (deduplicated st ++ [p])%list
            (duplicate_count st) (duplicate_details st)
    end.

(** [deduplicate_patients], on the store [h] holding the rows that
    [patient_records] refers to. *)
Definition deduplicate_patients (h : store) (patient_records : list nat)
  : dstate :=
  fold_left step patient_records (mkD h [] [] 0 []).

(** The deduplicated rows, as values. *)
Definition deduplicated_rows (st : dstate) : list row :=
  map (store_get (heap st)) (deduplicated st).

(** ** Standardization *)

(** [s[1:]]. *)
Definition drop_first (s : string) : string :=
  match s with
  | EmptyString => EmptyString
  | String _ rest => rest
  end.

(** [standardize_phone]. *)
Definition standardize_phone (raw_phone : string) : string :=
  if negb (truthy raw_phone) then ""
  else
    let digits := digits_only raw_phone in
    let digits :=
      if (String.length digits =? 11) && eqs (substring 0 1 digits) "1"
      then drop_first digits
      else digits in
    if String.length digits =? 10 then
      ("(" ++ substring 0 3 digits ++ ") " ++ substring 3 3 digits ++ "-"
       ++ substring 6 4 digits)%string
    else strip raw_phone.

(** [standardize_ssn]. *)
Definition standardize_ssn (raw_ssn : string) : string :=
  if negb (truthy raw_ssn) then ""
  else
    let digits := digits_only raw_ssn in
    if String.length digits =? 9 then
      (substring 0 3 digits ++ "-" ++ substring 3 2 digits ++ "-"
       ++ substring 5 4 digits)%string
    else strip raw_ssn.

(** The character classes [[A-Z]] and [[A-Z0-9]]. *)
Definition is_upper_alpha (c : ascii) : bool :=
  let n := nat_of_ascii c in (65 <=? n) && (n <=? 90).

Definition is_upper_alnum (c : ascii) : bool :=
  is_upper_alpha c || is_digit c.

(** [[A-Z0-9]{0,n}$] on the rest of a text: up to [n] such characters and
    then the end of the text, or a line feed that ends the text. *)
Fixpoint tail_matches (n : nat) (t : string) {struct t} : bool :=
  match t with
  | EmptyString => true
  | String c rest =>
      if is_upper_alnum c then
        match n with
        | O => false
        | S k => tail_matches k rest
        end
      else Ascii.eqb c "010" && negb (truthy rest)
  end.

(** [re.match(r"^[A-Z]\d{2}\.?[A-Z0-9]{0,n}$", s)] as a truth value. *)
Definition icd10_pattern (n : nat) (s : string) : bool :=
  match s with
  | String c0 (String c1 (String c2 rest)) =>
      is_upper_alpha c0 && is_digit c1 && is_digit c2
      && (match rest with
          | String "." after_dot => tail_matches n after_dot
          | _ => tail_matches n rest
          end)
  | _ => false
  end.

(** [validate_icd10]. *)
Definition validate_icd10 (code : string) : bool * string :=
  if negb (truthy code) then (false, "")
  else
    let cleaned := upper (strip code) in
    if icd10_pattern 4 cleaned then (true, cleaned)
    else if icd10_pattern 7 cleaned then (true, cleaned)
    else (false, cleaned).

(** [s.split(sep, 1)] for a one-character separator. *)
Fixpoint split_once (sep : ascii) (s : string) : list string :=
  match s with
  | EmptyString => [EmptyString]
  | String c rest =>
      if Ascii.eqb c sep then [EmptyString; rest]
      else match split_once sep rest with
           | [] => [String c EmptyString]
           | w :: ws => String c w :: ws
           end
  end.

(** [s.split()]: the maximal runs of characters that are not white
    space. *)
Fixpoint split_ws (s : string) : list string :=
  match s with
  | EmptyString => []
  | String c rest =>
      if is_space c then split_ws rest
      else
        match rest with
        | EmptyString => [String c EmptyString]
        | String d _ =>
            if is_space d then String c EmptyString :: split_ws rest
            else match split_ws rest with
                 | w :: ws => String c w :: ws
                 | [] => [String c EmptyString]
                 end
        end
  end.

(** [standardize_name]. *)
Definition standardize_name (raw_name_field : string) : string * string :=
  if negb (truthy raw_name_field) then ("", "")
  else if has_char "^" raw_name_field then
    let parts := split "^" raw_name_field in
    let last := if 0 <? List.length parts then strip (nth 0 parts "") else "" in
    let first := if 1 <? List.length parts then strip (nth 1 parts "") else "" in
    (upper last, upper first)
  else if has_char "," raw_name_field then
    let parts := split_once "," raw_name_field in
    let last := strip (nth 0 parts "") in
    let first := if 1 <? List.length parts then strip (nth 1 parts "") else "" in
    (upper last, upper first)
  else
    let parts := split_ws (strip raw_name_field) in
    if 2 <=? List.length parts then (upper (last parts ""), upper (hd "" parts))
    else if List.length parts =? 1 then (upper (hd "" parts), "")
    else ("", "").

(** The names that [parse_pid] stores under ["last_name"] and
    ["first_name"]: those of PID-5. *)
Definition parse_pid_names (fields : list string) : string * string :=
  standardize_name (get_field fields 5 "").

End EtlEngine.

(* ===================================================================== *)
(** * Specification vocabulary and worked inputs *)
(* ===================================================================== *)

(** ** Generated claims and the conversion tracker *)

Section EobVocabulary.
Import EobTo835.
Local Open Scope Q_scope.

(** No entry of a usage table is its own mapping. *)
Definition no_self_mapping (u : usage) : Prop :=
  Forall (fun ce => eqs (mapped_code (snd ce)) (fst ce) = false) u.

(** An EOB with one service line whose only adjustment code is ["N999"]. *)
Definition eob_n999 : eob :=
  eob_of "PPO" "PROCESSED" 100 80
    [ mkSvc "1" "99213" "Office visit" 100 80 0 0 ["N999"] 20 80 ].

(** An amount in whole cents. *)
Definition is_cents (q : Q) : Prop := exists c : Z, q == c # 100.

(** A service line whose amounts agree with one another. *)
Record line_consistent (carc_mapping : carc_table) (svc : service_line)
  : Prop := {
  lc_billed : is_cents (billed svc) /\ 0 <= billed svc;
  lc_allowed : is_cents (allowed svc) /\ 0 <= allowed svc;
  lc_deductible : is_cents (deductible svc) /\ 0 <= deductible svc;
  lc_copay : is_cents (copay svc) /\ 0 <= copay svc;
  lc_adj : is_cents (adj_amount svc) /\ 0 <= adj_amount svc;
  lc_paid : is_cents (paid svc) /\ 0 <= paid svc;
  lc_allowed_le : allowed svc <= billed svc;
  lc_patient_le : deductible svc + copay svc <= allowed svc - paid svc;
  lc_adj_le : adj_amount svc <= billed svc - paid svc;
  lc_denied :
    paid svc == 0 -> line_co_adjustments svc carc_mapping = [] ->
    allowed svc < billed svc \/ allowed svc == 0
}.

(** An EOB whose lines are consistent and whose totals are the sums of
    its lines. *)
Record eob_consistent (carc_mapping : carc_table) (e : eob) : Prop := {
  ec_lines : Forall (line_consistent carc_mapping) (service_lines e);
  ec_billed : total_billed e == Qsum (map billed (service_lines e));
  ec_paid : total_paid e == Qsum (map paid (service_lines e))
}.

(** A claim applied in full to the deductible: billed 100.00, allowed
    100.00, deductible 100.00, adjustment code 1, nothing paid. *)
Definition eob_all_deductible : eob :=
  eob_of "PPO" "PROCESSED" 100 0
    [ mkSvc "1" "99213" "Office visit" 100 100 100 0 ["1"] 100 0 ].

(** A line billed 100.00, allowed 80.00, deductible 10.00, with the
    contractual code 45 for 20.00, paid 70.00. *)
Definition eob_contractual : eob :=
  eob_of "PPO" "PROCESSED" 100 70
    [ mkSvc "1" "99213" "Office visit" 100 80 10 0 ["45"] 20 70 ].

End EobVocabulary.

(** ** The 271 walker *)

Section EligibilityVocabulary.
Import RealtimeEligibility.

Variable py_float : string -> option pyfloat.
Variable strptime_Ymd : string -> option instant.

(** A segment that opens a subscriber loop: [HL] with level code 22. *)
Definition opens (seg : list string) : bool :=
  eqs (nth 0 seg "") "HL" && eqs (_elem seg 3) "22".

(** The number of subscriber loops opened by a segment list. *)
Definition opened (segments : list (list string)) : nat :=
  List.length (filter opens segments).

(** What a step that opens no subscriber loop leaves alone. *)
Definition frame (st st' : wstate) : Prop :=
  patients st' = patients st
  /\ current_patient st' = current_patient st
  /\ List.length (heap st') = List.length (heap st).

(** The EB segments of one record, interpreted in turn. *)
Fixpoint parse_eb_all (segs : list (list string)) (p : pydict)
  : result pydict :=
  match segs with
  | [] => Ok p
  | seg :: rest =>
      p1 <- _parse_eb_segment py_float seg p ;;
      parse_eb_all rest p1
  end.

Definition is_active_code (seg : list string) : bool :=
  mem (_elem seg 1) ["1"; "2"; "3"; "4"; "5"].

Definition is_inactive_code (seg : list string) : bool :=
  mem (_elem seg 1) ["6"; "7"; "8"].

(** A termination date that exists, parses and lies before [now]. *)
Definition terminated_before (now : instant) (p : pydict) : bool :=
  val_truthy (item "term_date" p) &&
  match strptime_Ymd (as_str (item "term_date" p)) with
  | Some td => (td <? now)%Z
  | None => false
  end.

(** The status the code derives: an active code wins; otherwise a past
    termination date; otherwise an inactive code; otherwise the initial
    ["Unknown"]. *)
Definition derived_status (segs : list (list string)) (now : instant)
  (p : pydict) : string :=
  if existsb is_active_code segs then "Active"
  else if terminated_before now p then "Terminated"
  else if existsb is_inactive_code segs then "Inactive"
  else "Unknown".

(** The termination dates a file can put on a record: element 3 of its
    [DTP*357] segments. *)
Definition termination_date_of (segments : list (list string)) (s : string)
  : Prop :=
  exists seg, In seg segments /\ nth 0 seg "" = "DTP"
              /\ _elem seg 1 = "357" /\ s = _elem seg 3.

(** A record whose termination date, if it has one, comes from the file. *)
Definition term_from (segments : list (list string)) (p : pydict) : Prop :=
  val_truthy (item "term_date" p) = true ->
  exists s, termination_date_of segments s /\ item "term_date" p = VStr s.

Definition store_term_from (segments : list (list string)) (h : store)
  : Prop :=
  forall l, term_from segments (store_get h l).

(** Two clock readings on the same side of every termination date of the
    file. *)
Definition same_side (segments : list (list string)) (now1 now2 : instant)
  : Prop :=
  forall s td, termination_date_of segments s ->
               strptime_Ymd s = Some td ->
               (td <? now1)%Z = (td <? now2)%Z.

End EligibilityVocabulary.

Section EligibilityInputs.
Import RealtimeEligibility.

(** Two subscribers: the first has an active benefit code and a
    termination date of 2020-01-01, the second has neither. *)
Definition example_271 : string :=
  "HL*1**20*1~HL*2*1*21*1~HL*3*2*22*0~NM1*IL*1*DOE*JOHN****MI*W1~EB*1~DTP*357*D8*20200101~HL*4*2*22*0~NM1*IL*1*ROE*JANE****MI*W2~".

(** One subscriber with an inactive benefit code and a termination date of
    2020-01-01. *)
Definition example_271_inactive : string :=
  "HL*1**22*0~NM1*IL*1*ROE*JANE****MI*W2~EB*6~DTP*357*D8*20200101~".

(** Noon of 2024-01-01 and of 2019-01-01. *)
Definition noon_2024 : instant := 20240101120000%Z.
Definition noon_2019 : instant := 20190101120000%Z.

(** Noon of 2021-06-15. *)
Definition noon_2021 : instant := 20210615120000%Z.

(** A fresh record whose termination date is 2020-01-01. *)
Definition record_terminated_2020 : pydict :=
  dict_set "term_date" (VStr "20200101") (_new_patient_record "f.edi").

(** The term date and the coverage status of each record of a result. *)
Definition term_and_status (r : result (list pydict))
  : list (pyval * pyval) :=
  match r with
  | Ok recs => map (fun p => (item "term_date" p, item "coverage_status" p)) recs
  | Raise _ => []
  end.

End EligibilityInputs.

(** ** Deduplication *)

Section DedupVocabulary.
Import EtlEngine.

(** The key of the row a reference denotes in the store [h]. *)
Definition key_in (h : store) (l : nat) : string :=
  build_dedup_key (store_get h l).

(** A reference whose row cannot be deduplicated: its key is ["||"]. *)
Definition keyless (h : store) (l : nat) : bool := no_key (key_in h l).

(** What the loop maintains about keyless rows, [done] being the part of
    the input already processed and [h] the store at the start. *)
Record keyless_inv (h : store) (st : dstate) (done : list nat) : Prop := {
  kl_unchanged :
    forall l, keyless h l = true -> store_get (heap st) l = store_get h l;
  kl_not_seen :
    forall k o, dict_get k (seen st) = Some o -> keyless h o = false;
  kl_kept :
    forall p, keyless h p = true ->
              count_occ Nat.eq_dec (deduplicated st) p
              = count_occ Nat.eq_dec done p;
  kl_count :
    duplicate_count st
    <= List.length (filter (fun q => negb (keyless h q)) done);
  kl_details :
    forall d, In d (duplicate_details st) -> no_key (patient_key d) = false
}.

(** The value a merged field ends with: the first-seen value when there
    is one and it is not empty, the duplicate's value otherwise. *)
Definition merged_value (orig dup : row) (field : string) : option string :=
  match dict_get field orig with
  | Some v => if truthy v then Some v else Some (table_get dup field "")
  | None => Some (table_get dup field "")
  end.

(** What the loop maintains on an input without repeated references. *)
Record dedup_inv (h : store) (st : dstate) (done : list nat) : Prop := {
  di_untouched :
    forall l, ~ In l done -> store_get (heap st) l = store_get h l;
  di_seen :
    forall k o, dict_get k (seen st) = Some o ->
                In o (deduplicated st) /\ key_in h o = k;
  di_first :
    forall q, In q (deduplicated st) -> keyless h q = false ->
              dict_get (key_in h q) (seen st) = Some q;
  di_present :
    forall p, In p done ->
              if keyless h p then In p (deduplicated st)
              else exists q, dict_get (key_in h p) (seen st) = Some q;
  di_count :
    List.length (deduplicated st) + duplicate_count st = List.length done;
  di_sub :
    forall q, In q (deduplicated st) -> In q done
}.

(** Two rows of one patient from two systems, and two rows without name
    and date of birth. *)
Definition row_doe_epic : row :=
  [ ("patient_id", "A1"); ("source_system", "epic"); ("last_name", "DOE");
    ("first_name", "JOHN"); ("dob", "1980-01-01"); ("phone", "") ].

Definition row_doe_cerner : row :=
  [ ("patient_id", "B7"); ("source_system", "cerner"); ("last_name", "DOE");
    ("first_name", "JOHN"); ("dob", "1980-01-01"); ("phone", "(555) 010-2000");
    ("ssn", "123-45-6789") ].

Definition row_blank_1 : row :=
  [ ("patient_id", "C1"); ("last_name", ""); ("first_name", ""); ("dob", "") ].

Definition row_blank_2 : row :=
  [ ("patient_id", "C2"); ("last_name", ""); ("first_name", ""); ("dob", "") ].

End DedupVocabulary.

(** ** The 835 loader *)

Section LoaderVocabulary.
Import DenialsDbLoader.

(** The tag of a segment text: its first [*]-separated element. *)
Definition tag_of (seg : string) : string := nth 0 (split "*" seg) "".

(** A claim-payment segment. *)
Definition is_clp (seg : string) : bool := eqs (tag_of seg) "CLP".

(** The tags [parse_835_file] interprets. *)
Definition known_tag (seg : string) : bool :=
  mem (tag_of seg) ["N1"; "CLP"; "CAS"; "SVC"; "DTM"].

(** The segment texts of a file, as [parse_835_file] cuts them. *)
Definition segments_of (raw_text : string) : list string :=
  split "~" (remove_char "010" raw_text).

(** A CLP segment whose amount element, if present and not empty, is read
    by the float conversion. *)
Definition clp_amount_ok (py_float : string -> option pyfloat) (seg : string)
  : Prop :=
  is_clp seg = true ->
  3 < List.length (split "*" seg) ->
  truthy (nth 3 (split "*" seg) "") = true ->
  py_float (nth 3 (split "*" seg) "") <> None.

(** A file with a payer, two claims and segments the loader does not
    interpret. *)
Definition example_two_claims : string :=
  "ISA*00~N1*PR*ACME~CLP*A1*4*10.00*0~CAS*CO*16*10.00~NM1*QC*1*DOE~CLP*B2*1*5*5~SE*7*0001~".

End LoaderVocabulary.

(** ** The 271 tokenizer and the keys of a record *)

Section TokenizerVocabulary.
Import RealtimeEligibility.

(** A text free of the separators and line breaks of a 271 file. *)
Definition clean_element (x : string) : Prop :=
  has_char "*" x = false /\ has_char "~" x = false
  /\ has_char "010" x = false /\ has_char "013" x = false.

(** The keys every patient record is created with. *)
Definition record_keys : list string :=
  map fst (_new_patient_record "").

(** A record that has every key it was created with. *)
Definition has_record_keys (p : pydict) : Prop :=
  forall k, In k record_keys -> dict_mem k p = true.

(** Every record of the store has its keys. *)
Definition store_has_keys (h : store) : Prop := Forall has_record_keys h.

(** A subscriber whose coinsurance percentage reads as infinite. *)
Definition segments_infinite_coinsurance : list (list string) :=
  [ ["HL"; "1"; ""; "22"; "0"];
    ["EB"; "A"; "IND"; "30"; ""; ""; ""; "inf"] ].

End TokenizerVocabulary.

(** ** Deduplication: order, details and a second pass *)

Section DedupOrderVocabulary.
Import EtlEngine.

(** [a] is [b] with some elements left out, the others in their order. *)
Inductive subsequence {A : Type} : list A -> list A -> Prop :=
| subsequence_nil : subsequence [] []
| subsequence_keep (x : A) (a b : list A) :
    subsequence a b -> subsequence (x :: a) (x :: b)
| subsequence_drop (x : A) (a b : list A) :
    subsequence a b -> subsequence a (x :: b).

(** The three parts of a row's key. *)
Definition key_fields (r : row) : string * string * string :=
  (upper (strip (table_get r "last_name" "")),
   upper (strip (table_get r "first_name" "")),
   strip (table_get r "dob" "")).

(** A row whose names hold no [|], the character that joins the parts of
    a key. *)
Definition pipe_free (r : row) : Prop :=
  has_char "|" (table_get r "last_name" "") = false
  /\ has_char "|" (table_get r "first_name" "") = false.

(** The keys of the rows of [refs] that have one, in order. *)
Definition keys_in (h : store) (refs : list nat) : list string :=
  map (key_in h) (filter (fun q => negb (keyless h q)) refs).

(** What the loop maintains about keys on rows without [|] in the names. *)
Record key_inv (h : store) (st : dstate) (done : list nat) : Prop := {
  ki_fields :
    forall l, key_fields (store_get (heap st) l) = key_fields (store_get h l);
  ki_seen :
    forall k o, dict_get k (seen st) = Some o -> In o done /\ key_in h o = k;
  ki_keys : keys_in h (deduplicated st) = map fst (seen st);
  ki_nodup : NoDup (map fst (seen st))
}.

(** Three rows: the second and the third have the same key though their
    names differ, and the merge gives the second the key of the first. *)
Definition row_pipe_1 : row :=
  [ ("last_name", "|A"); ("first_name", "A"); ("dob", "B|C") ].

Definition row_pipe_2 : row :=
  [ ("last_name", ""); ("first_name", "A"); ("dob", "B|C") ].

Definition row_pipe_3 : row :=
  [ ("last_name", "|A"); ("first_name", "B"); ("dob", "C") ].

End DedupOrderVocabulary.

(** ** The generated transaction *)

Section GenerateVocabulary.
Import EobTo835.

(** The tags of the segments that [generate_835] writes before the claim. *)
Definition header_tags : list string :=
  ["ISA"; "GS"; "ST"; "BPR"; "TRN"; "DTM"; "N1"; "N3"; "N4"].

(** The SE segment of a transaction: the third from the end. *)
Definition se_segment (out : list segment) : segment :=
  nth (List.length out - 3) out [].

(** The transaction set of an interchange: what lies between the GS
    segment and the GE segment, from ST to SE. *)
Definition transaction_set (out : list segment) : list segment :=
  firstn (List.length out - 4) (skipn 2 out).

(** The calls of [record_practice_result] for one practice type. *)
Definition calls_of (practice_type : string) (calls : list (string * bool))
  : list bool :=
  map snd (filter (fun c => eqs (fst c) practice_type) calls).

(** The tracker's totals after a sequence of calls. *)
Definition totals_after (calls : list (string * bool)) : totals :=
  fold_left (fun t c => record_practice_result t (fst c) (snd c)) calls [].

End GenerateVocabulary.

(** ** The tracker and the collected codes *)

Section TrackerVocabulary.
Import EobTo835.

(** A call [record_carc_mapping(original_code, original_desc, mapped_code,
    mapped_desc)]. *)
Record mapping_call := mkCall {
  call_code : string;
  call_desc : string;
  call_mapped : string;
  call_mapped_desc : string
}.

(** The usage table after a sequence of calls on a fresh tracker. *)
Definition usage_after (calls : list mapping_call) : usage :=
  fold_left
    (fun u c => record_carc_mapping u (call_code c) (call_desc c)
                                    (call_mapped c) (call_mapped_desc c))
    calls [].

(** The calls for one original code. *)
Definition calls_for (code : string) (calls : list mapping_call)
  : list mapping_call :=
  filter (fun c => eqs (call_code c) code) calls.

(** The adjustment codes of all service lines of an EOB, in order. *)
Definition all_adj_codes (e : eob) : list string :=
  flat_map adj_codes (service_lines e).

(** A mapping table that sends no code to one of its own keys and whose
    standard codes have no white space around them. *)
Definition closed_mapping (mapping : carc_table) : Prop :=
  Forall (fun kv => dict_mem (standard_code (snd kv)) mapping = false
                    /\ strip (standard_code (snd kv)) = standard_code (snd kv))
         mapping.

End TrackerVocabulary.

(** ** Records as the alert generator reads them *)

Section AlertVocabulary.
Import RealtimeEligibility.

Variable strptime_Ymd : string -> option instant.

(** An entry of [preauth_services] whose service type is a text. *)
Definition preauth_entry_ok (s : pyval) : Prop :=
  exists d t, s = VDict d /\ dict_get "service_type" d = Some (VStr t).

(** The fields that [generate_alerts] computes with hold values of the
    types it expects. *)
Record alert_typed (p : pydict) : Prop := {
  at_deductible : exists x, dict_get "deductible" p = Some (VFloat x);
  at_remaining : exists x, dict_get "deductible_remaining" p = Some (VFloat x);
  at_preauth :
    exists l, dict_get "preauth_services" p = Some (VList l)
              /\ Forall preauth_entry_ok l;
  at_term : exists s, dict_get "term_date" p = Some (VStr s);
  at_status : exists s, dict_get "coverage_status" p = Some (VStr s)
}.

(** The keys of [alert_typed]. *)
Definition alert_keys : list string :=
  ["deductible"; "deductible_remaining"; "preauth_services"; "term_date";
   "coverage_status"].

(** A record while the segments are walked: not yet terminated. *)
Definition walk_inv (p : pydict) : Prop :=
  alert_typed p /\ item "coverage_status" p <> VStr "Terminated".

(** A returned record, seen at the time [now]: a terminated record has a
    termination date before [now]. *)
Definition alert_inv (now : instant) (p : pydict) : Prop :=
  alert_typed p
  /\ (item "coverage_status" p = VStr "Terminated" ->
      terminated_before strptime_Ymd now p = true).

(** [remaining / deductible > 0.75] on finite floats, computed exactly;
    the instance used in the worked examples. *)
Definition exact_ratio_above (remaining deductible : pyval) : option bool :=
  match remaining, deductible with
  | VFloat (FFin r), VFloat (FFin d) =>
      Some (negb (Qle_bool (r / d)%Q (3 # 4)%Q))
  | VFloat _, VFloat _ => Some false
  | _, _ => None
  end.

End AlertVocabulary.

Section AlertInputs.

(** One subscriber with an inactive benefit code, a deductible of 1000 of
    which 900 remain, a service that needs pre-authorization and a
    termination date of 2020-01-01. *)
Definition example_271_alerts : string :=
  "HL*1**22*0~NM1*IL*1*ROE*JANE****MI*W2~EB*6~EB*C*IND*30***23*1000~EB*C*IND*30***29*900~EB*J*IND*42~DTP*357*D8*20200101~".

End AlertInputs.

(** ** The segments between one CLP segment and the next *)

Section LoaderBlockVocabulary.
Import DenialsDbLoader.

(** The reason codes of the CAS segments that have at least three
    elements. *)
Definition cas_codes (segs : list string) : list string :=
  map (fun seg => nth 2 (split "*" seg) "")
      (filter (fun seg => eqs (tag_of seg) "CAS"
                          && (3 <=? List.length (split "*" seg))) segs).

(** The procedure codes of the SVC segments whose second element starts
    with [HC:]. *)
Definition svc_codes (segs : list string) : list string :=
  map (fun seg => nth 1 (split ":" (nth 1 (split "*" seg) "")) "")
      (filter (fun seg => eqs (tag_of seg) "SVC"
                          && (1 <? List.length (split "*" seg))
                          && startswith "HC:" (nth 1 (split "*" seg) "")) segs).

(** The dates of the DTM segments with qualifier 232 or 233. *)
Definition denial_dates (segs : list string) : list string :=
  map (fun seg => nth 2 (split "*" seg) "")
      (filter (fun seg => eqs (tag_of seg) "DTM"
                          && (3 <=? List.length (split "*" seg))
                          && mem (nth 1 (split "*" seg) "") ["232"; "233"])
              segs).

(** The texts of a list that are not empty. *)
Definition nonempty_texts (l : list string) : list string := filter truthy l.

(** What a block of segments makes of a record. *)
Definition block_result (c : denial) (segs : list string) : denial :=
  mkDenial
    (Claim_ID c) (Status c) (Balance_Amount c) (Payer_ID c)
    (if truthy (CPT_Code c) then CPT_Code c
     else nth 0 (nonempty_texts (svc_codes segs)) "")
    (if truthy (CARC_Code c) then CARC_Code c
     else nth 0 (nonempty_texts (cas_codes segs)) "")
    (if truthy (RARC_Code c) then RARC_Code c
     else nth (if truthy (CARC_Code c) then 0 else 1)
              (nonempty_texts (cas_codes segs)) "")
    (last (denial_dates segs) (Denial_Date c))
    (Practice_Type c).

(** The segments of a claim after its CLP segment. *)
Definition example_block : list string :=
  [ "CAS*CO**5.00"; "NM1*QC*1*DOE"; "CAS*CO*16*10.00"; "SVC*HC:99213*10*0";
    "DTM*232*20240101"; "CAS*PR*1*2.00"; "CAS*OA*23*1.00"; "SVC*HC:80050*5*0";
    "DTM*233*20240105" ].

End LoaderBlockVocabulary.

(* ===================================================================== *)
(** * Properties *)
(* ===================================================================== *)

(** ** Built-ins *)

Lemma eqs_true_iff (a b : string) : eqs a b = true <-> a = b.
Proof. unfold eqs. apply String.eqb_eq. Qed.

Lemma eqs_false_iff (a b : string) : eqs a b = false <-> a <> b.
Proof. unfold eqs. apply String.eqb_neq. Qed.

Lemma eqs_refl (a : string) : eqs a a = true.
Proof. apply eqs_true_iff. reflexivity. Qed.

Lemma truthy_false_iff (s : string) : truthy s = false <-> s = "".
Proof. destruct s; simpl; split; congruence. Qed.

Lemma strip_empty : strip "" = "".
Proof. reflexivity. Qed.

Lemma split_nonempty (sep : ascii) (s : string) : split sep s <> [].
Proof.
  destruct s as [|c s]; simpl; [discriminate|].
  destruct (Ascii.eqb c sep); [discriminate|].
  destruct (split sep s); discriminate.
Qed.

(** ** [parse_835_file] on Example A *)

Section LoaderFacts.
Import DenialsDbLoader.

(** C1 (amended).  For the text [CLP*CLM001*4*100.00*0.00*0.00*12*PCN1~]
    followed by [CAS*CO*16*100.00*1~], and any float conversion that reads
    ["100.00"] as [v], [parse_835_file] returns exactly one record: claim
    id ["CLM001"], status ["4"] (denied), balance amount [v] (the billed
    amount CLP03) and CARC code ["16"]; payer, CPT code, RARC code, denial
    date and practice type are empty.  The record has no field for the
    paid amount, the adjustment group or the adjustment amount. *)
Theorem example_a_record (py_float : string -> option pyfloat) (v : pyfloat) :
  py_float "100.00" = Some v ->
  parse_835_file py_float example_a None
  = Ok [ mkDenial "CLM001" "4" v "" "" "16" "" "" "" ].
Proof.
  intros Hv. unfold parse_835_file, example_a. cbn.
  unfold float_or_raise. rewrite Hv. reflexivity.
Qed.

Lemma example_a_record_witness :
  decimal_float "100.00" = Some (FFin (10000 # 100)) /\
  parse_835_file decimal_float example_a None
  = Ok [ mkDenial "CLM001" "4" (FFin (10000 # 100)) "" "" "16" "" "" "" ].
Proof.
  split; [reflexivity|].
  apply (example_a_record decimal_float (FFin (10000 # 100))).
  reflexivity.
Defined.

(** C1 as stated fails: the record of Example A is the nine-field record
    below, and the very same record comes out when the paid amount is
    55.00 and the adjustment is [PR], 7.25, so neither a paid amount of
    0.00 nor an adjustment entry with group ["CO"] and amount 100.00 is
    part of it. *)
Lemma example_a_drops_paid_and_adjustment :
  parse_835_file decimal_float example_a None
  = Ok [ mkDenial "CLM001" "4" (FFin (10000 # 100)) "" "" "16" "" "" "" ]
  /\ parse_835_file decimal_float example_a_variant None
     = parse_835_file decimal_float example_a None.
Proof. split; reflexivity. Qed.

End LoaderFacts.

(** ** Claim status and code mapping of [eob_to_835] *)

Section EobFacts.
Import EobTo835.

(** C3 (amended).  The CLP status code is ["4"] (denied) exactly when the
    claim-status text, upper-cased, is ["DENIED"] or the paid total is
    zero; every other EOB gets ["1"] or ["2"] (processed), ["2"] when the
    upper-cased plan type mentions ["SECONDARY"]. *)
Theorem claim_status_code_denied_iff (e : eob) :
  (determine_claim_status_code e = "4"
   <-> (upper (claim_status e) = "DENIED" \/ (total_paid e == 0)%Q))
  /\ (determine_claim_status_code e = "4"
      \/ (determine_claim_status_code e = "2"
          /\ contains "SECONDARY" (upper (plan_type e)) = true)
      \/ (determine_claim_status_code e = "1"
          /\ contains "SECONDARY" (upper (plan_type e)) = false)).
Proof.
  unfold determine_claim_status_code.
  destruct (eqs (upper (claim_status e)) "DENIED") eqn:Hs;
    destruct (Qeq_bool (total_paid e) 0) eqn:Hp; simpl.
  - apply eqs_true_iff in Hs. split; [split; auto | auto].
  - apply eqs_true_iff in Hs. split; [split; auto | auto].
  - apply Qeq_bool_iff in Hp. split; [split; auto | auto].
  - apply eqs_false_iff in Hs. apply Qeq_bool_neq in Hp.
    destruct (contains "SECONDARY" (upper (plan_type e))) eqn:Hc.
    + split; [|auto]. split; [discriminate|]. intros [H|H]; contradiction.
    + split; [|auto]. split; [discriminate|]. intros [H|H]; contradiction.
Qed.

(** C3 as stated fails: an EOB whose claim-status text is ["Denied"], not
    ["DENIED"], with 50.00 paid is given the denied code ["4"]. *)
Lemma mixed_case_denied_is_denied :
  determine_claim_status_code (eob_of "PPO" "Denied" 100 50 []) = "4"
  /\ claim_status (eob_of "PPO" "Denied" 100 50 []) <> "DENIED"
  /\ Qeq_bool (total_paid (eob_of "PPO" "Denied" 100 50 [])) 0 = false.
Proof. repeat split. discriminate. Qed.

(** The remapper returns the standard code of a code in the table. *)
Lemma map_carc_code_present (code : string) (mapping : carc_table)
  (e : carc_entry) :
  dict_get (strip code) mapping = Some e ->
  map_carc_code code mapping = standard_code e.
Proof. intros H. unfold map_carc_code. rewrite H. reflexivity. Qed.

(** The remapper returns a code that is not in the table as it is, white
    space around it removed. *)
Lemma map_carc_code_absent (code : string) (mapping : carc_table) :
  dict_get (strip code) mapping = None ->
  map_carc_code code mapping = strip code.
Proof. intros H. unfold map_carc_code. rewrite H. reflexivity. Qed.

Lemma dict_update_count_no_self (k : string) (u : usage) :
  no_self_mapping u ->
  no_self_mapping
    (dict_update k
       (fun e => mkUsage (original_description e) (mapped_code e)
                         (mapped_description e) (count e + 1)) u).
Proof.
  unfold no_self_mapping. induction u as [|[k' v] u IH]; intros H; simpl.
  - constructor.
  - inversion H as [|? ? Hh Ht]; subst.
    destruct (eqs k k'); constructor; simpl in *; auto.
Qed.

Lemma record_carc_mapping_no_self (u : usage) (oc od mc md : string) :
  eqs mc oc = false ->
  no_self_mapping u ->
  no_self_mapping (record_carc_mapping u oc od mc md).
Proof.
  intros Hne Hu. unfold record_carc_mapping.
  apply dict_update_count_no_self.
  destruct (negb (dict_mem oc u)); [|exact Hu].
  unfold no_self_mapping. apply Forall_app. split; [exact Hu|].
  constructor; [simpl; exact Hne | constructor].
Qed.

Lemma collect_code_no_self (e : eob) (m : carc_table) (c : collect)
  (raw : string) :
  no_self_mapping (carc_mapping_usage c) ->
  no_self_mapping (carc_mapping_usage (collect_code e m c raw)).
Proof.
  intros H. unfold collect_code.
  destruct (eqs (map_carc_code raw m) raw) eqn:E; simpl; [exact H|].
  apply record_carc_mapping_no_self; assumption.
Qed.

Lemma fold_collect_code_no_self (e : eob) (m : carc_table)
  (codes : list string) (c : collect) :
  no_self_mapping (carc_mapping_usage c) ->
  no_self_mapping
    (carc_mapping_usage (fold_left (collect_code e m) codes c)).
Proof.
  revert c. induction codes as [|raw codes IH]; intros c H; simpl.
  - exact H.
  - apply IH. apply collect_code_no_self. exact H.
Qed.

Lemma unmapped_nil_of_no_self (u : usage) :
  no_self_mapping u -> unmapped u = [].
Proof.
  unfold no_self_mapping, unmapped. induction u as [|ce u IH]; intros H.
  - reflexivity.
  - inversion H as [|? ? Hh Ht]; subst. simpl. rewrite Hh. auto.
Qed.

Lemma collect_codes_no_self (e : eob) (m : carc_table) (u : usage) :
  no_self_mapping u ->
  no_self_mapping (carc_mapping_usage (collect_codes e m u)).
Proof.
  intros Hu. unfold collect_codes.
  assert (Hc : forall (l : list service_line) (c0 : collect),
             no_self_mapping (carc_mapping_usage c0) ->
             no_self_mapping
               (carc_mapping_usage
                  (fold_left
                     (fun c svc =>
                        fold_left (collect_code e m) (adj_codes svc) c)
                     l c0))).
  { induction l as [|svc l IH]; intros c0 H; simpl.
    - exact H.
    - apply IH. apply fold_collect_code_no_self. exact H. }
  apply Hc. exact Hu.
Qed.

(** Whatever the EOB and the table, the list of passed-through codes that
    the summary prints stays empty on a fresh tracker: a code is recorded
    only when its mapping differs from it. *)
Lemma collect_codes_never_unmapped (e : eob) (m : carc_table) :
  unmapped (carc_mapping_usage (collect_codes e m [])) = [].
Proof.
  apply unmapped_nil_of_no_self. apply collect_codes_no_self. constructor.
Qed.

(** C7, at a code that is not in the table.  [map_carc_code] passes
    ["N999"] through, and the code-collecting loop of
    [process_practice_type] leaves the tracker's usage table empty: the
    code is recorded nowhere, and the summary's list of passed-through
    codes is empty. *)
Theorem absent_code_is_not_recorded :
  dict_get "N999" DEFAULT_CARC_MAPPING = None
  /\ map_carc_code "N999" DEFAULT_CARC_MAPPING = "N999"
  /\ carc_mapping_usage (collect_codes eob_n999 DEFAULT_CARC_MAPPING []) = []
  /\ unmapped (carc_mapping_usage
                 (collect_codes eob_n999 DEFAULT_CARC_MAPPING [])) = []
  /\ any_remapped (collect_codes eob_n999 DEFAULT_CARC_MAPPING []) = false.
Proof. repeat split. Qed.

End EobFacts.

(** ** Dictionaries *)

Lemma dict_get_set_same {V : Type} (k : string) (v : V) (d : list (string * V)) :
  dict_get k (dict_set k v d) = Some v.
Proof.
  induction d as [|[k' v'] d IH]; simpl.
  - rewrite eqs_refl. reflexivity.
  - destruct (eqs k k') eqn:E; simpl; rewrite E; [reflexivity | exact IH].
Qed.

Lemma dict_get_set_other {V : Type} (k k2 : string) (v : V)
  (d : list (string * V)) :
  k2 <> k -> dict_get k2 (dict_set k v d) = dict_get k2 d.
Proof.
  intros Hne. induction d as [|[k' v'] d IH]; simpl.
  - apply eqs_false_iff in Hne. rewrite Hne. reflexivity.
  - destruct (eqs k k') eqn:E; simpl.
    + apply eqs_true_iff in E. subst k'.
      apply eqs_false_iff in Hne. rewrite Hne. reflexivity.
    + destruct (eqs k2 k'); [reflexivity | exact IH].
Qed.

Lemma dict_mem_get {V : Type} (k : string) (d : list (string * V)) :
  dict_mem k d = true <-> exists v, dict_get k d = Some v.
Proof.
  induction d as [|[k' v'] d IH]; simpl.
  - split; [discriminate | intros [v H]; discriminate].
  - destruct (eqs k k'); simpl; [split; eauto | exact IH].
Qed.

Lemma dict_mem_false_get {V : Type} (k : string) (d : list (string * V)) :
  dict_mem k d = false <-> dict_get k d = None.
Proof.
  induction d as [|[k' v'] d IH]; simpl.
  - split; reflexivity.
  - destruct (eqs k k'); simpl; [split; discriminate | exact IH].
Qed.

Ltac break_if :=
  match goal with
  | |- context [if ?b then _ else _] => destruct b eqn:?
  end.

(** ** Missing elements *)

Section AccessorFacts.
Import RealtimeEligibility.

Lemma _elem_missing (seg : list string) (idx : nat) :
  List.length seg <= idx -> _elem seg idx = "".
Proof.
  intros H. unfold _elem.
  destruct (idx <? List.length seg) eqn:E; [|reflexivity].
  apply Nat.ltb_lt in E. lia.
Qed.

Lemma eb_pct_empty (py_float : string -> option pyfloat) :
  eb_pct py_float "" = Ok 0%Z.
Proof. reflexivity. Qed.

(** An EB segment without EB07 is interpreted without an exception. *)
Lemma _parse_eb_segment_no_amount (py_float : string -> option pyfloat)
  (seg : list string) (p : pydict) :
  _elem seg 7 = "" ->
  exists p', _parse_eb_segment py_float seg p = Ok p'.
Proof.
  intros H7. unfold _parse_eb_segment. rewrite H7.
  unfold eb_benefit. rewrite eb_pct_empty. cbn [bind].
  repeat break_if; cbn [bind]; eauto.
Qed.

(** The only exception an EB segment can raise is [OverflowError]. *)
Lemma _parse_eb_segment_raises (py_float : string -> option pyfloat)
  (seg : list string) (p : pydict) (e : exn) :
  _parse_eb_segment py_float seg p = Raise e ->
  e = OverflowError
  /\ _elem seg 1 = "A"
  /\ truthy (_elem seg 7) = true
  /\ exists negative, py_float (_elem seg 7) = Some (FInf negative).
Proof.
  unfold _parse_eb_segment, eb_benefit.
  destruct (eqs (_elem seg 1) "C") eqn:EC.
  { repeat break_if; cbn [bind]; discriminate. }
  destruct (eqs (_elem seg 1) "B") eqn:EB.
  { repeat break_if; cbn [bind]; discriminate. }
  destruct (eqs (_elem seg 1) "A") eqn:EA.
  2:{ repeat break_if; cbn [bind]; discriminate. }
  apply eqs_true_iff in EA. unfold eb_pct.
  destruct (truthy (_elem seg 7)) eqn:E7.
  2:{ cbn [bind]. repeat break_if; cbn [bind]; discriminate. }
  destruct (py_float (_elem seg 7)) as [x|].
  2:{ cbn [bind]. repeat break_if; cbn [bind]; discriminate. }
  destruct x as [q|negative|]; cbn [int_of_float bind].
  - repeat break_if; cbn [bind]; discriminate.
  - intros H. inversion H. repeat split; eauto.
  - repeat break_if; cbn [bind]; discriminate.
Qed.

(** The walker's step raises only through an EB segment. *)
Lemma step_raises (py_float : string -> option pyfloat) (filepath : string)
  (st : wstate) (seg : list string) (e : exn) :
  step py_float filepath st seg = Raise e ->
  e = OverflowError
  /\ nth 0 seg "" = "EB"
  /\ _elem seg 1 = "A"
  /\ truthy (_elem seg 7) = true
  /\ exists negative, py_float (_elem seg 7) = Some (FInf negative).
Proof.
  unfold step.
  destruct (eqs (nth 0 seg "") "EB" && has_patient st) eqn:EEB.
  - apply andb_true_iff in EEB. destruct EEB as [Etag _].
    apply eqs_true_iff in Etag.
    repeat (break_if; try discriminate).
    destruct (current_patient st) as [l|]; [|discriminate].
    destruct (_parse_eb_segment py_float seg (store_get (heap st) l))
      as [p'|e'] eqn:Hp; cbn [bind]; [discriminate|].
    intros H. inversion H. subst e'.
    apply _parse_eb_segment_raises in Hp.
    destruct Hp as (He & H1 & H7 & Hinf). auto.
  - repeat (break_if; try discriminate).
Qed.

Lemma step_short_segment (py_float : string -> option pyfloat)
  (filepath : string) (st : wstate) (seg : list string) :
  List.length seg <= 7 ->
  exists st', step py_float filepath st seg = Ok st'.
Proof.
  intros Hlen.
  destruct (step py_float filepath st seg) as [st'|e] eqn:Hs; [eauto|].
  apply step_raises in Hs. destruct Hs as (_ & _ & _ & H7 & _).
  rewrite (_elem_missing seg 7 Hlen) in H7. discriminate.
Qed.

Lemma loader_step_short_segment (py_float : string -> option pyfloat)
  (practice_type : option string) (st : DenialsDbLoader.pstate)
  (seg : string) :
  List.length (split "*" seg) <= 3 ->
  exists st', DenialsDbLoader.step py_float practice_type st seg = Ok st'
    /\ (nth 0 (split "*" seg) "" = "CLP" ->
        exists c, DenialsDbLoader.current st' = Some c
                  /\ DenialsDbLoader.Balance_Amount c = FFin 0).
Proof.
  intros Hlen. unfold DenialsDbLoader.step.
  assert (H3 : (3 <? List.length (split "*" seg)) = false)
    by (apply Nat.ltb_ge; lia).
  rewrite H3. cbn [andb bind].
  destruct (truthy (nth 0 (split "*" seg) "")) eqn:Et; cbn [negb].
  2:{ eexists; split; [reflexivity|]. intros Htag. rewrite Htag in Et.
      discriminate. }
  destruct (eqs (nth 0 (split "*" seg) "") "CLP") eqn:Eclp.
  - apply eqs_true_iff in Eclp. rewrite Eclp. cbn.
    eexists; split; [reflexivity|]. intros _. eexists; split; reflexivity.
  - apply eqs_false_iff in Eclp.
    destruct (DenialsDbLoader.current st) as [cur|];
      repeat break_if; (eexists; split; [reflexivity | intros; contradiction]).
Qed.


End AccessorFacts.

(** ** The loop walker: flushing *)

Section WalkerFacts.
Import RealtimeEligibility.

Variable py_float : string -> option pyfloat.
Variable strptime_Ymd : string -> option instant.

Lemma store_set_length (h : store) (l : nat) (p : pydict) :
  List.length (store_set h l p) = List.length h.
Proof.
  revert l. induction h as [|x h IH]; intros l; simpl; [reflexivity|].
  destruct l; simpl; [reflexivity | rewrite IH; reflexivity].
Qed.

Lemma store_get_set (h : store) (l l' : nat) (x : pydict) :
  store_get (store_set h l x) l'
  = if (l' =? l) && (l <? List.length h) then x else store_get h l'.
Proof.
  unfold store_get. revert l l'.
  induction h as [|y h IH]; intros l l'; simpl.
  - rewrite andb_false_r. reflexivity.
  - destruct l as [|l]; destruct l' as [|l']; simpl; try reflexivity.
    rewrite IH. reflexivity.
Qed.

Lemma store_get_app_new (h : store) (x : pydict) (l : nat) :
  store_get (h ++ [x])%list l
  = if l =? List.length h then x else store_get h l.
Proof.
  unfold store_get. revert l.
  induction h as [|y h IH]; intros l; simpl.
  - destruct l as [|[|l]]; reflexivity.
  - destruct l as [|l]; simpl; [reflexivity | apply IH].
Qed.

Lemma frame_refl (st : wstate) : frame st st.
Proof. repeat split. Qed.

Lemma frame_on_patient (f : pydict -> pydict) (st : wstate) :
  frame st (on_patient f st).
Proof.
  unfold frame, on_patient. destruct (current_patient st) as [l|] eqn:E; simpl.
  - repeat split; auto. apply store_set_length.
  - rewrite E. repeat split.
Qed.

Lemma frame_set_payer (d : list (string * string)) (st : wstate) :
  frame st (set_payer d st).
Proof. repeat split. Qed.

Lemma frame_set_provider (d : list (string * string)) (st : wstate) :
  frame st (set_provider d st).
Proof. repeat split. Qed.

Lemma frame_set_context (c : string) (st : wstate) :
  frame st (set_context c st).
Proof. repeat split. Qed.

Lemma frame_trans (a b c : wstate) : frame a b -> frame b c -> frame a c.
Proof.
  unfold frame. intros (H1 & H2 & H3) (H4 & H5 & H6).
  repeat split; congruence.
Qed.

Create HintDb walker_frame.
#[local] Hint Resolve frame_refl frame_on_patient frame_set_payer
  frame_set_provider frame_set_context : walker_frame.

Ltac frame_ok :=
  let H := fresh in
  intros H; inversion H; subst;
  first [ solve [auto with walker_frame]
        | solve [eapply frame_trans; eauto with walker_frame] ].

(** A step either opens a subscriber loop, by [open_subscriber], or leaves
    the output list, the open record's reference and the size of the
    store as they are. *)
Lemma step_opens_or_frames (filepath : string) (st st' : wstate)
  (seg : list string) :
  step py_float filepath st seg = Ok st' ->
  (opens seg = true /\ st' = open_subscriber filepath st)
  \/ (opens seg = false /\ frame st st').
Proof.
  unfold step, opens.
  destruct (eqs (nth 0 seg "") "ISA") eqn:E1.
  { apply eqs_true_iff in E1. rewrite E1. right. split; [reflexivity|].
    inversion H; subst. auto with walker_frame. }
  destruct (eqs (nth 0 seg "") "GS") eqn:E2.
  { apply eqs_true_iff in E2. rewrite E2. right. split; [reflexivity|].
    inversion H; subst. auto with walker_frame. }
  destruct (eqs (nth 0 seg "") "ST") eqn:E3.
  { apply eqs_true_iff in E3. rewrite E3. right. split; [reflexivity|].
    inversion H; subst. auto with walker_frame. }
  destruct (eqs (nth 0 seg "") "BHT") eqn:E4.
  { apply eqs_true_iff in E4. rewrite E4. right. split; [reflexivity|].
    inversion H; subst. auto with walker_frame. }
  destruct (eqs (nth 0 seg "") "HL") eqn:E5.
  { cbn [andb].
    destruct (eqs (_elem seg 3) "20") eqn:L0.
    { apply eqs_true_iff in L0. rewrite L0. right. split; [reflexivity|].
      inversion H; subst. eapply frame_trans; eauto with walker_frame. }
    destruct (eqs (_elem seg 3) "21") eqn:L1.
    { apply eqs_true_iff in L1. rewrite L1. right. split; [reflexivity|].
      inversion H; subst. eapply frame_trans; eauto with walker_frame. }
    destruct (eqs (_elem seg 3) "22") eqn:L2.
    { left. inversion H; subst. auto. }
    right. inversion H; subst. auto with walker_frame. }
  cbn [andb]. right. split; [reflexivity|]. revert H.
  repeat (break_if; try frame_ok).
  destruct (current_patient st) as [l|] eqn:Ecur; [|frame_ok].
  destruct (_parse_eb_segment py_float seg (store_get (heap st) l));
    cbn [bind]; [frame_ok | discriminate].
Qed.

Lemma flushed_frame (st st' : wstate) :
  frame st st' -> flushed st' = flushed st.
Proof. unfold frame, flushed. intros (H1 & H2 & _). rewrite H1, H2. reflexivity. Qed.

Lemma step_patients (filepath : string) (st st' : wstate) (seg : list string) :
  step py_float filepath st seg = Ok st' ->
  patients st' = if opens seg then flushed st else patients st.
Proof.
  intros H. apply step_opens_or_frames in H.
  destruct H as [[Ho Hst]|[Ho (Hp & _)]]; rewrite Ho.
  - subst st'. reflexivity.
  - exact Hp.
Qed.

(** The references flushed so far, with the open one, are the records
    allocated so far, each once, in order of allocation. *)
Lemma walk_allocates (filepath : string) (segments : list (list string)) :
  forall (st st' : wstate) (n : nat),
    walk py_float filepath st segments = Ok st' ->
    List.length (heap st) = n ->
    flushed st = seq 0 n ->
    List.length (heap st') = n + opened segments
    /\ flushed st' = seq 0 (n + opened segments).
Proof.
  induction segments as [|seg rest IH]; intros st st' n Hw Hh Hf.
  - simpl in Hw. inversion Hw; subst. unfold opened. simpl.
    rewrite Nat.add_0_r. auto.
  - simpl in Hw.
    destruct (step py_float filepath st seg) as [st1|e] eqn:Hs;
      cbn [bind] in Hw; [|discriminate].
    apply step_opens_or_frames in Hs.
    unfold opened. simpl. fold (opened rest).
    destruct Hs as [[Ho Hst]|[Ho Hfr]]; rewrite Ho.
    + subst st1.
      destruct (IH _ _ (S n) Hw) as [H1 H2].
      * simpl. rewrite length_app. simpl. lia.
      * unfold flushed at 1. simpl. rewrite Hf, Hh.
        symmetry. apply seq_S.
      * cbn [List.length]. rewrite H1, H2.
        replace (n + S (opened rest)) with (S n + opened rest) by lia.
        auto.
    + destruct (IH _ _ n Hw) as [H1 H2].
      * destruct Hfr as (_ & _ & Hl). lia.
      * rewrite (flushed_frame _ _ Hfr). exact Hf.
      * auto.
Qed.

Lemma finalize_all_length (clock : nat -> instant) (refs : list nat) :
  forall (i : nat) (h : store),
    List.length (finalize_all strptime_Ymd clock i refs h) = List.length h.
Proof.
  induction refs as [|l refs IH]; intros i h; simpl; [reflexivity|].
  rewrite IH. apply store_set_length.
Qed.

(** The walk returns unless an EB segment carries an infinite amount. *)
Lemma walk_returns (filepath : string) (segments : list (list string)) :
  (forall seg negative,
      In seg segments -> py_float (_elem seg 7) <> Some (FInf negative)) ->
  forall st, exists st', walk py_float filepath st segments = Ok st'.
Proof.
  induction segments as [|seg rest IH]; intros Hfin st; simpl; [eauto|].
  destruct (step py_float filepath st seg) as [st1|e] eqn:Hs; cbn [bind].
  - apply IH. intros s neg Hin. apply Hfin. right. exact Hin.
  - apply step_raises in Hs.
    destruct Hs as (_ & _ & _ & _ & negative & Hinf).
    exfalso. apply (Hfin seg negative); [left; reflexivity | exact Hinf].
Qed.

(** C5.  A step of the walker moves the open record's reference into the
    output list exactly when its segment is an HL segment with level code
    22 (and then only if a record is open); the open record left at the
    end of the input is moved there as well; and the references returned
    are those of the records allocated, one per level-22 segment, each
    exactly once and in order of allocation.  The walk returns a result
    whenever no EB07 element reads as an infinite float. *)
Theorem subscribers_flushed_exactly_once (clock : nat -> instant)
  (segments : list (list string)) (filepath : string) :
  (forall st st' seg,
      step py_float filepath st seg = Ok st' ->
      patients st' = if opens seg then flushed st else patients st)
  /\ ((forall seg negative,
         In seg segments -> py_float (_elem seg 7) <> Some (FInf negative)) ->
      exists out,
        _walk_segments py_float strptime_Ymd clock segments filepath = Ok out)
  /\ (forall out,
        _walk_segments py_float strptime_Ymd clock segments filepath = Ok out ->
        snd out = seq 0 (opened segments)
        /\ List.length (fst out) = opened segments
        /\ NoDup (snd out)
        /\ (forall l, l < List.length (fst out) -> In l (snd out))).
Proof.
  split; [intros st st' seg; apply step_patients|].
  split.
  - intros Hfin. unfold _walk_segments.
    destruct (walk_returns filepath segments Hfin initial) as [st' Hw].
    rewrite Hw. cbn [bind]. eauto.
  - intros out Hout. unfold _walk_segments in Hout.
    destruct (walk py_float filepath initial segments) as [st'|e] eqn:Hw;
      cbn [bind] in Hout; [|discriminate].
    inversion Hout; subst out. cbn [fst snd].
    destruct (walk_allocates filepath segments initial st' 0 Hw)
      as [H1 H2]; [reflexivity | reflexivity |].
    simpl in H1, H2. rewrite finalize_all_length, H1, H2.
    repeat split; auto.
    + apply seq_NoDup.
    + intros l Hl. apply in_seq. lia.
Qed.

End WalkerFacts.

(** ** Coverage status *)

Lemma item_set_same (k : string) (v : pyval) (d : pydict) :
  item k (dict_set k v d) = v.
Proof. unfold item. rewrite dict_get_set_same. reflexivity. Qed.

Lemma item_set_other (k k2 : string) (v : pyval) (d : pydict) :
  k2 <> k -> item k2 (dict_set k v d) = item k2 d.
Proof. intros H. unfold item. rewrite dict_get_set_other by exact H. reflexivity. Qed.

Lemma item_set_sub_other (k kk k2 : string) (v : pyval) (d : pydict) :
  k2 <> k -> item k2 (set_sub k kk v d) = item k2 d.
Proof. intros H. unfold set_sub. apply item_set_other. exact H. Qed.

Lemma item_append_to_other (k k2 : string) (v : pyval) (d : pydict) :
  k2 <> k -> item k2 (append_to k v d) = item k2 d.
Proof.
  intros H. unfold append_to.
  destruct (dict_get k d) as [[| | | | |l|]|]; apply item_set_other; exact H.
Qed.

Ltac item_other :=
  repeat first
    [ rewrite item_set_other by (simpl; discriminate)
    | rewrite item_set_sub_other by (simpl; discriminate)
    | rewrite item_append_to_other by (simpl; discriminate) ].

Section CoverageFacts.
Import RealtimeEligibility.

Variable py_float : string -> option pyfloat.
Variable strptime_Ymd : string -> option instant.

Lemma eb_benefit_keeps (k : string) (eb01 eb02 eb03 eb06 eb07 cl : string)
  (oon : bool) (amount : pyfloat) (p p' : pydict) :
  k = "coverage_status" \/ k = "term_date" ->
  eb_benefit py_float eb01 eb02 eb03 eb06 eb07 cl oon amount p = Ok p' ->
  item k p' = item k p.
Proof.
  intros Hk. unfold eb_benefit.
  destruct (eb_pct py_float eb07) as [pct|e]; cbn [bind];
    repeat break_if; intros H; inversion H; subst;
    destruct Hk; subst k; item_other; reflexivity.
Qed.

Lemma eb_coverage_status (eb01 eb05 : string) (p : pydict) :
  item "coverage_status" (eb_coverage eb01 eb05 p)
  = if mem eb01 ["1"; "2"; "3"; "4"; "5"] then VStr "Active"
    else if mem eb01 ["6"; "7"; "8"]
              && negb (val_eq_str (item "coverage_status" p) "Active")
    then VStr "Inactive"
    else item "coverage_status" p.
Proof.
  unfold eb_coverage.
  destruct (mem eb01 ["1"; "2"; "3"; "4"; "5"]).
  - destruct (truthy eb05); item_other; apply item_set_same.
  - destruct (mem eb01 ["6"; "7"; "8"]); cbn [andb]; [|reflexivity].
    destruct (negb (val_eq_str (item "coverage_status" p) "Active"));
      [apply item_set_same | reflexivity].
Qed.

Lemma eb_coverage_term_date (eb01 eb05 : string) (p : pydict) :
  item "term_date" (eb_coverage eb01 eb05 p) = item "term_date" p.
Proof.
  unfold eb_coverage. repeat break_if; item_other; reflexivity.
Qed.

Lemma _parse_eb_segment_status (seg : list string) (p p' : pydict) :
  _parse_eb_segment py_float seg p = Ok p' ->
  item "coverage_status" p'
  = if is_active_code seg then VStr "Active"
    else if is_inactive_code seg
              && negb (val_eq_str (item "coverage_status" p) "Active")
    then VStr "Inactive"
    else item "coverage_status" p.
Proof.
  unfold _parse_eb_segment, is_active_code, is_inactive_code.
  match goal with
  | |- context [bind ?m _] => destruct m as [p2|e] eqn:Hb
  end; cbn [bind]; [|discriminate].
  apply (eb_benefit_keeps "coverage_status") in Hb; [|auto].
  rewrite eb_coverage_status in Hb.
  break_if; intros H; inversion H; subst; item_other; exact Hb.
Qed.

Lemma _parse_eb_segment_term_date (seg : list string) (p p' : pydict) :
  _parse_eb_segment py_float seg p = Ok p' ->
  item "term_date" p' = item "term_date" p.
Proof.
  unfold _parse_eb_segment.
  match goal with
  | |- context [bind ?m _] => destruct m as [p2|e] eqn:Hb
  end; cbn [bind]; [|discriminate].
  apply (eb_benefit_keeps "term_date") in Hb; [|auto].
  rewrite eb_coverage_term_date in Hb.
  break_if; intros H; inversion H; subst; item_other; exact Hb.
Qed.

(** The status after a run of EB segments, from any status before. *)
Lemma parse_eb_all_status (segs : list (list string)) :
  forall p p',
    parse_eb_all py_float segs p = Ok p' ->
    item "coverage_status" p'
    = if existsb is_active_code segs then VStr "Active"
      else if val_eq_str (item "coverage_status" p) "Active"
      then item "coverage_status" p
      else if existsb is_inactive_code segs then VStr "Inactive"
      else item "coverage_status" p.
Proof.
  induction segs as [|seg rest IH]; intros p p' H; simpl in H.
  - inversion H; subst. simpl.
    destruct (val_eq_str (item "coverage_status" p') "Active"); reflexivity.
  - destruct (_parse_eb_segment py_float seg p) as [p1|e] eqn:Hs;
      cbn [bind] in H; [|discriminate].
    apply IH in H. apply _parse_eb_segment_status in Hs.
    rewrite H, Hs. cbn [existsb].
    destruct (is_active_code seg); cbn [orb].
    + destruct (existsb is_active_code rest); reflexivity.
    + destruct (existsb is_active_code rest); [reflexivity|].
      destruct (is_inactive_code seg); cbn [orb andb].
      * destruct (val_eq_str (item "coverage_status" p) "Active") eqn:Ea;
          cbn [negb].
        -- rewrite Ea. reflexivity.
        -- cbn [val_eq_str eqs String.eqb Ascii.eqb Bool.eqb].
           destruct (existsb is_inactive_code rest); reflexivity.
      * destruct (val_eq_str (item "coverage_status" p) "Active");
          reflexivity.
Qed.

Lemma finalize_copay_keeps_status (p : pydict) :
  item "coverage_status" (finalize_copay p) = item "coverage_status" p.
Proof.
  unfold finalize_copay.
  repeat first [ break_if
               | match goal with
                 | |- context [match ?x with _ => _ end] => destruct x
                 end ];
    item_other; reflexivity.
Qed.

Lemma format_date_field_keeps_status (f : string) (p : pydict) :
  f = "dob" \/ f = "effective_date" \/ f = "term_date" ->
  item "coverage_status" (format_date_field f p) = item "coverage_status" p.
Proof.
  intros Hf. unfold format_date_field. break_if; [|reflexivity].
  destruct Hf as [->|[->| ->]]; item_other; reflexivity.
Qed.

Lemma _finalize_patient_status (now : instant) (p : pydict) :
  item "coverage_status" (_finalize_patient strptime_Ymd now p)
  = if terminated_before strptime_Ymd now p
       && mem (as_str (item "coverage_status" p)) ["Unknown"; "Inactive"]
    then VStr "Terminated"
    else item "coverage_status" p.
Proof.
  unfold _finalize_patient. cbn [fold_left].
  rewrite !format_date_field_keeps_status by auto.
  rewrite finalize_copay_keeps_status.
  unfold finalize_status, terminated_before.
  destruct (val_truthy (item "term_date" p)); cbn [andb]; [|reflexivity].
  destruct (strptime_Ymd (as_str (item "term_date" p))) as [td|];
    [|reflexivity].
  destruct (td <? now)%Z; cbn [andb]; [|reflexivity].
  destruct (mem (as_str (item "coverage_status" p)) ["Unknown"; "Inactive"]);
    [apply item_set_same | reflexivity].
Qed.

Lemma add_message_status (m : string) (p : pydict) :
  item "coverage_status" (add_message m p) = item "coverage_status" p.
Proof. unfold add_message. repeat break_if; item_other; reflexivity. Qed.

Lemma on_patient_status (f : pydict -> pydict) (st : wstate) (l : nat) :
  (forall p, item "coverage_status" (f p) = item "coverage_status" p) ->
  item "coverage_status" (store_get (heap (on_patient f st)) l)
  = item "coverage_status" (store_get (heap st) l).
Proof.
  intros Hf. unfold on_patient.
  destruct (current_patient st) as [c|]; cbn [heap]; [|reflexivity].
  rewrite store_get_set.
  destruct ((l =? c) && (c <? List.length (heap st))) eqn:E; [|reflexivity].
  apply andb_true_iff in E. destruct E as [E _].
  apply Nat.eqb_eq in E. subst c. apply Hf.
Qed.

(** Only EB segments touch the coverage status of the records in the
    store: every other step leaves it as it is. *)
Lemma step_keeps_status (filepath : string) (st st' : wstate)
  (seg : list string) (l : nat) :
  step py_float filepath st seg = Ok st' ->
  nth 0 seg "" <> "EB" ->
  l < List.length (heap st) ->
  item "coverage_status" (store_get (heap st') l)
  = item "coverage_status" (store_get (heap st) l).
Proof.
  intros Hs Hne Hl. revert Hs. unfold step.
  repeat (break_if;
          try (intros Hs; inversion Hs; subst;
               first [ reflexivity
                     | apply on_patient_status; intros p;
                       first [ apply add_message_status
                             | item_other; reflexivity ] ])).
  - (* HL*22 *)
    intros Hs; inversion Hs; subst. unfold open_subscriber. cbn [heap].
    rewrite store_get_app_new.
    destruct (l =? List.length (heap st)) eqn:E; [|reflexivity].
    apply Nat.eqb_eq in E. lia.
  - (* EB *)
    exfalso. apply Hne. apply eqs_true_iff.
    match goal with
    | H : eqs (nth 0 seg "") "EB" && _ = true |- _ =>
        apply andb_true_iff in H; destruct H as [H _]; exact H
    end.
Qed.

(** An EB step is [_parse_eb_segment] on the open record. *)
Lemma step_eb (filepath : string) (st st' : wstate) (seg : list string)
  (l : nat) :
  step py_float filepath st seg = Ok st' ->
  nth 0 seg "" = "EB" ->
  current_patient st = Some l ->
  has_patient st = true ->
  exists p', _parse_eb_segment py_float seg (store_get (heap st) l) = Ok p'
             /\ heap st' = store_set (heap st) l p'.
Proof.
  intros Hs Htag Hcur Hhas. revert Hs. unfold step.
  rewrite Htag, Hhas, Hcur. cbn.
  destruct (_parse_eb_segment py_float seg (store_get (heap st) l))
    as [p'|e]; cbn [bind]; [|discriminate].
  intros Hs; inversion Hs; subst. exists p'. split; [reflexivity|].
  unfold on_patient. rewrite Hcur. reflexivity.
Qed.


End CoverageFacts.

(** *** Worked 271 examples *)

Section CoverageExamples.
Import RealtimeEligibility.



End CoverageExamples.

(** ** Dependence on the wall clock *)

Section ClockFacts.
Import RealtimeEligibility.

Variable py_float : string -> option pyfloat.
Variable strptime_Ymd : string -> option instant.

Lemma term_from_keeps (segments : list (list string)) (p p' : pydict) :
  item "term_date" p' = item "term_date" p ->
  term_from segments p -> term_from segments p'.
Proof. unfold term_from. intros H. rewrite H. auto. Qed.

Lemma term_from_empty (segments : list (list string)) :
  term_from segments [].
Proof. unfold term_from. simpl. discriminate. Qed.

Lemma store_term_from_set (segments : list (list string)) (h : store)
  (l : nat) (x : pydict) :
  term_from segments x ->
  store_term_from segments h ->
  store_term_from segments (store_set h l x).
Proof.
  intros Hx Hh l'. rewrite store_get_set.
  destruct ((l' =? l) && (l <? List.length h)); [exact Hx | apply Hh].
Qed.

Lemma on_patient_term_from (segments : list (list string))
  (f : pydict -> pydict) (st : wstate) :
  (forall p, term_from segments p -> term_from segments (f p)) ->
  store_term_from segments (heap st) ->
  store_term_from segments (heap (on_patient f st)).
Proof.
  intros Hf Hh. unfold on_patient.
  destruct (current_patient st) as [l|]; simpl; [|exact Hh].
  apply store_term_from_set; [apply Hf, Hh | exact Hh].
Qed.

Lemma add_message_term_date (m : string) (p : pydict) :
  item "term_date" (add_message m p) = item "term_date" p.
Proof. unfold add_message. repeat break_if; item_other; reflexivity. Qed.

Lemma open_subscriber_term_from (segments : list (list string))
  (filepath : string) (st : wstate) :
  store_term_from segments (heap st) ->
  store_term_from segments (heap (open_subscriber filepath st)).
Proof.
  intros Hh l. unfold open_subscriber. cbn [heap].
  rewrite store_get_app_new.
  destruct (l =? List.length (heap st)); [|apply Hh].
  unfold term_from. item_other. cbn. discriminate.
Qed.

Ltac keeps_term :=
  apply on_patient_term_from; [|assumption];
  let p := fresh "p" in
  intros p; apply term_from_keeps;
  first [ apply add_message_term_date | item_other; reflexivity ].

(** A step keeps the termination dates of the store within the file's. *)
Lemma step_term_from (segments : list (list string)) (filepath : string)
  (st st' : wstate) (seg : list string) :
  In seg segments ->
  step py_float filepath st seg = Ok st' ->
  store_term_from segments (heap st) ->
  store_term_from segments (heap st').
Proof.
  intros Hin Hs Hh. revert Hs. unfold step.
  repeat (break_if;
          try (intros Hs; inversion Hs; subst;
               first [ exact Hh
                     | apply open_subscriber_term_from; exact Hh
                     | keeps_term ])).
  - (* DTP*357 *)
    intros Hs; inversion Hs; subst.
    apply on_patient_term_from; [|exact Hh].
    intros p _ _. exists (_elem seg 3). split; [|apply item_set_same].
    exists seg. repeat split; auto.
    + repeat match goal with
             | H : _ && _ = true |- _ => apply andb_true_iff in H; destruct H
             end.
      apply eqs_true_iff. assumption.
    + apply eqs_true_iff. assumption.
  - (* EB *)
    destruct (current_patient st) as [l|] eqn:Ecur.
    + destruct (_parse_eb_segment py_float seg (store_get (heap st) l))
        as [p'|e] eqn:Hp; cbn [bind]; [|discriminate].
      intros Hs; inversion Hs; subst.
      unfold on_patient. rewrite Ecur. cbn [heap].
      apply store_term_from_set; [|exact Hh].
      apply (term_from_keeps segments (store_get (heap st) l));
        [apply (_parse_eb_segment_term_date py_float seg); exact Hp | apply Hh].
    + intros Hs; inversion Hs; subst. exact Hh.
Qed.

Lemma walk_term_from (segments : list (list string)) (filepath : string)
  (rest : list (list string)) :
  forall st st',
    incl rest segments ->
    walk py_float filepath st rest = Ok st' ->
    store_term_from segments (heap st) ->
    store_term_from segments (heap st').
Proof.
  induction rest as [|seg rest IH]; intros st st' Hincl Hw Hh; simpl in Hw.
  - inversion Hw; subst. exact Hh.
  - destruct (step py_float filepath st seg) as [st1|e] eqn:Hs;
      cbn [bind] in Hw; [|discriminate].
    apply (IH st1 st'); [|exact Hw|].
    + intros x Hx. apply Hincl. right. exact Hx.
    + apply (step_term_from segments filepath st st1 seg);
        [apply Hincl; left; reflexivity | exact Hs | exact Hh].
Qed.

Lemma finalize_copay_term_date (p : pydict) :
  item "term_date" (finalize_copay p) = item "term_date" p.
Proof.
  unfold finalize_copay.
  repeat first [ break_if
               | match goal with
                 | |- context [match ?x with _ => _ end] => destruct x
                 end ];
    item_other; reflexivity.
Qed.

Lemma format_date_field_term_date (f : string) (p : pydict) :
  f = "dob" \/ f = "effective_date" \/ f = "term_date" ->
  item "term_date" (format_date_field f p) = item "term_date" p.
Proof.
  intros Hf. unfold format_date_field. break_if; [|reflexivity].
  destruct Hf as [->|[->| ->]]; item_other; reflexivity.
Qed.

Lemma finalize_status_term_date (now : instant) (p : pydict) :
  item "term_date" (finalize_status strptime_Ymd now p) = item "term_date" p.
Proof.
  unfold finalize_status.
  repeat first [ break_if
               | match goal with
                 | |- context [match ?x with _ => _ end] => destruct x
                 end ];
    item_other; reflexivity.
Qed.

Lemma _finalize_patient_term_date (now : instant) (p : pydict) :
  item "term_date" (_finalize_patient strptime_Ymd now p)
  = item "term_date" p.
Proof.
  unfold _finalize_patient. cbn [fold_left].
  rewrite !format_date_field_term_date by auto.
  rewrite finalize_copay_term_date. apply finalize_status_term_date.
Qed.

(** Finalizing a record reads the clock only to compare it with the
    record's termination date. *)
Lemma _finalize_patient_same_side (segments : list (list string))
  (now1 now2 : instant) (p : pydict) :
  term_from segments p ->
  same_side strptime_Ymd segments now1 now2 ->
  _finalize_patient strptime_Ymd now1 p
  = _finalize_patient strptime_Ymd now2 p.
Proof.
  intros Hp Hside. unfold _finalize_patient.
  assert (Hst : finalize_status strptime_Ymd now1 p
                = finalize_status strptime_Ymd now2 p).
  { unfold finalize_status.
    destruct (val_truthy (item "term_date" p)) eqn:Et; [|reflexivity].
    destruct (Hp Et) as (s & Hs & Hitem). rewrite Hitem. cbn [as_str].
    destruct (strptime_Ymd s) as [td|] eqn:Htd; [|reflexivity].
    rewrite (Hside s td Hs Htd). reflexivity. }
  rewrite Hst. reflexivity.
Qed.

Lemma finalize_all_same_side (segments : list (list string))
  (clock1 clock2 : nat -> instant) (refs : list nat) :
  (forall i, same_side strptime_Ymd segments (clock1 i) (clock2 i)) ->
  forall (i : nat) (h : store),
    store_term_from segments h ->
    finalize_all strptime_Ymd clock1 i refs h
    = finalize_all strptime_Ymd clock2 i refs h.
Proof.
  intros Hside. induction refs as [|l refs IH]; intros i h Hh; simpl.
  - reflexivity.
  - rewrite (_finalize_patient_same_side segments (clock1 i) (clock2 i))
      by (auto; apply Hh).
    apply IH. apply store_term_from_set; [|exact Hh].
    apply (term_from_keeps segments (store_get h l));
      [apply _finalize_patient_term_date | apply Hh].
Qed.

(** C9 (amended).  [_walk_segments] reads the wall clock while it
    finalizes a record with a termination date.  Two runs on the same
    segments return the same result whenever, at each record, the two
    clock readings lie on the same side of every termination date of the
    file (element 3 of its [DTP*357] segments); in particular when the
    readings are equal. *)
Theorem parse_depends_on_clock_through_term_dates
  (clock1 clock2 : nat -> instant) (segments : list (list string))
  (filepath : string) :
  (forall i, same_side strptime_Ymd segments (clock1 i) (clock2 i)) ->
  _walk_segments py_float strptime_Ymd clock1 segments filepath
  = _walk_segments py_float strptime_Ymd clock2 segments filepath.
Proof.
  intros Hside. unfold _walk_segments.
  destruct (walk py_float filepath initial segments) as [st|e] eqn:Hw;
    cbn [bind]; [|reflexivity].
  rewrite (finalize_all_same_side segments clock1 clock2); auto.
  apply (walk_term_from segments filepath segments initial st);
    [apply incl_refl | exact Hw |].
  intros l. unfold initial, store_get. cbn [heap].
  destruct l; apply term_from_empty.
Qed.

End ClockFacts.

Section ClockExamples.
Import RealtimeEligibility.

(** C9 as stated fails: nothing injects the current time, and the same
    file, parsed with the clock at noon of 2019-01-01 and at noon of
    2024-01-01, gives a record with status ["Inactive"] the first time and
    ["Terminated"] the second. *)
Lemma same_file_two_clocks_two_results :
  term_and_status
    (parse_file decimal_float ymd8 (fun _ => noon_2019)
                example_271_inactive "f.edi")
  = [ (VStr "20200101", VStr "Inactive") ]
  /\ term_and_status
       (parse_file decimal_float ymd8 (fun _ => noon_2024)
                   example_271_inactive "f.edi")
     = [ (VStr "20200101", VStr "Terminated") ].
Proof. split; reflexivity. Qed.

Lemma parse_depends_on_clock_through_term_dates_witness :
  _walk_segments decimal_float ymd8 (fun _ => noon_2021)
                 (_tokenize example_271_inactive) "f.edi"
  = _walk_segments decimal_float ymd8 (fun _ => noon_2024)
                   (_tokenize example_271_inactive) "f.edi".
Proof.
  apply (parse_depends_on_clock_through_term_dates decimal_float ymd8).
  intros i s td (seg & Hin & Htag & Hq & Hs) Htd. subst s.
  simpl in Hin.
  repeat (destruct Hin as [<-|Hin]; [try discriminate Htag|]);
    [|contradiction].
  vm_compute in Htd. inversion Htd. reflexivity.
Defined.

End ClockExamples.

(** ** Deduplication of patient rows *)

Section DedupFacts.
Import EtlEngine.

Lemma etl_store_get_set (h : store) (l l' : nat) (x : row) :
  store_get (store_set h l x) l'
  = if (l' =? l) && (l <? List.length h) then x else store_get h l'.
Proof.
  unfold store_get. revert l l'.
  induction h as [|y h IH]; intros l l'; simpl.
  - rewrite andb_false_r. reflexivity.
  - destruct l as [|l]; destruct l' as [|l']; simpl; try reflexivity.
    rewrite IH. reflexivity.
Qed.

Lemma etl_store_get_set_other (h : store) (l l' : nat) (x : row) :
  l' <> l -> store_get (store_set h l x) l' = store_get h l'.
Proof.
  intros H. rewrite etl_store_get_set.
  apply Nat.eqb_neq in H. rewrite H. reflexivity.
Qed.

(** The rows with all three key fields empty have the key ["||"]. *)
Lemma empty_fields_keyless (h : store) (p : nat) :
  table_get (store_get h p) "last_name" "" = "" ->
  table_get (store_get h p) "first_name" "" = "" ->
  table_get (store_get h p) "dob" "" = "" ->
  keyless h p = true.
Proof.
  intros Hl Hf Hd. unfold keyless, key_in, build_dedup_key.
  rewrite Hl, Hf, Hd. reflexivity.
Qed.

Lemma count_occ_snoc (l : list nat) (x p : nat) :
  count_occ Nat.eq_dec (l ++ [x]) p
  = count_occ Nat.eq_dec l p + (if Nat.eq_dec x p then 1 else 0).
Proof.
  rewrite count_occ_app. simpl. destruct (Nat.eq_dec x p); reflexivity.
Qed.

Lemma filter_snoc_length {A : Type} (f : A -> bool) (l : list A) (x : A) :
  List.length (filter f (l ++ [x]))
  = List.length (filter f l) + (if f x then 1 else 0).
Proof.
  rewrite filter_app, length_app. simpl. destruct (f x); reflexivity.
Qed.

Lemma keyless_inv_step (h : store) (st : dstate) (done : list nat) (p : nat) :
  keyless_inv h st done -> keyless_inv h (step st p) (done ++ [p]).
Proof.
  intros [J1 J2 J3 J4 J5]. unfold step.
  destruct (no_key (build_dedup_key (store_get (heap st) p))) eqn:Ek.
  - (* kept without a key *)
    constructor; cbn [heap seen deduplicated duplicate_count duplicate_details];
      auto.
    + intros q Hq. rewrite !count_occ_snoc, (J3 q Hq). reflexivity.
    + rewrite filter_snoc_length. lia.
  - assert (Hp : keyless h p = false).
    { destruct (keyless h p) eqn:E; [|reflexivity].
      unfold keyless, key_in in E. rewrite <- (J1 p) in E.
      - rewrite E in Ek. discriminate.
      - unfold keyless, key_in. exact E. }
    assert (Hne : forall q, keyless h q = true -> p <> q).
    { intros q Hq ->. rewrite Hq in Hp. discriminate. }
    destruct (dict_get (build_dedup_key (store_get (heap st) p)) (seen st))
      as [o|] eqn:Es.
    + (* a duplicate: merged into the first-seen row *)
      constructor;
        cbn [heap seen deduplicated duplicate_count duplicate_details]; auto.
      * intros l Hl. rewrite etl_store_get_set_other; [apply J1; exact Hl|].
        intros ->. rewrite (J2 _ _ Es) in Hl. discriminate.
      * intros q Hq. rewrite count_occ_snoc, (J3 q Hq).
        destruct (Nat.eq_dec p q) as [E|E]; [|lia].
        exfalso. exact (Hne q Hq E).
      * rewrite filter_snoc_length, Hp. simpl. lia.
      * intros d Hd. apply in_app_or in Hd. destruct Hd as [Hd|[<-|[]]];
          [apply J5; exact Hd | exact Ek].
    + (* first row with this key *)
      constructor;
        cbn [heap seen deduplicated duplicate_count duplicate_details]; auto.
      * intros k o Hk.
        destruct (string_dec k (build_dedup_key (store_get (heap st) p)))
          as [->|Hd].
        -- rewrite dict_get_set_same in Hk. inversion Hk; subst. exact Hp.
        -- rewrite dict_get_set_other in Hk by exact Hd. eapply J2; eauto.
      * intros q Hq. rewrite !count_occ_snoc, (J3 q Hq). reflexivity.
      * rewrite filter_snoc_length. lia.
Qed.

Lemma keyless_inv_fold (h : store) (refs : list nat) :
  forall st done,
    keyless_inv h st done ->
    keyless_inv h (fold_left step refs st) (done ++ refs).
Proof.
  induction refs as [|p refs IH]; intros st done H; simpl.
  - rewrite app_nil_r. exact H.
  - replace (done ++ p :: refs)%list with ((done ++ [p]) ++ refs)%list
      by (rewrite <- app_assoc; reflexivity).
    apply IH. apply keyless_inv_step. exact H.
Qed.

Lemma keyless_inv_result (h : store) (refs : list nat) :
  keyless_inv h (deduplicate_patients h refs) refs.
Proof.
  unfold deduplicate_patients.
  apply (keyless_inv_fold h refs (mkD h [] [] 0 []) []).
  constructor; simpl; auto; try discriminate; try contradiction.
Qed.

(** C10.  A row whose last name, first name and date of birth are all
    empty is kept as often as it occurs in the input, is left unchanged,
    and is never a duplicate: no duplicate detail has the empty key, and
    the duplicate count is at most the number of input rows that have a
    key.  Two such rows therefore never collapse into one. *)
Theorem empty_key_rows_are_kept (h : store) (refs : list nat) (p : nat) :
  table_get (store_get h p) "last_name" "" = "" ->
  table_get (store_get h p) "first_name" "" = "" ->
  table_get (store_get h p) "dob" "" = "" ->
  count_occ Nat.eq_dec (deduplicated (deduplicate_patients h refs)) p
  = count_occ Nat.eq_dec refs p
  /\ store_get (heap (deduplicate_patients h refs)) p = store_get h p
  /\ (forall d, In d (duplicate_details (deduplicate_patients h refs)) ->
                patient_key d <> "||")
  /\ duplicate_count (deduplicate_patients h refs)
     <= List.length (filter (fun q => negb (keyless h q)) refs).
Proof.
  intros Hl Hf Hd.
  pose proof (empty_fields_keyless h p Hl Hf Hd) as Hk.
  destruct (keyless_inv_result h refs) as [J1 J2 J3 J4 J5].
  repeat split; auto.
  intros d Hin Hkey. apply J5 in Hin. rewrite Hkey in Hin. discriminate.
Qed.

(** *** The merge *)

Lemma mem_true_iff (k : string) (ks : list string) :
  mem k ks = true <-> In k ks.
Proof.
  unfold mem. rewrite existsb_exists. split.
  - intros (x & Hin & He). apply eqs_true_iff in He. subst. exact Hin.
  - intros Hin. exists k. split; [exact Hin | apply eqs_refl].
Qed.

Lemma mem_false_iff (k : string) (ks : list string) :
  mem k ks = false <-> ~ In k ks.
Proof.
  rewrite <- mem_true_iff. destruct (mem k ks); split; congruence.
Qed.

Lemma keys_of_in (d : row) :
  forall seen_keys k,
    In k (keys_of seen_keys d)
    <-> dict_mem k d = true /\ ~ In k seen_keys.
Proof.
  induction d as [|[k' v] d IH]; intros sk k; simpl.
  - split; [contradiction | intros [H _]; discriminate].
  - destruct (mem k' sk) eqn:Em.
    + rewrite IH. apply mem_true_iff in Em.
      destruct (eqs k k') eqn:E; simpl; [|tauto].
      apply eqs_true_iff in E. subst k'. tauto.
    + apply mem_false_iff in Em. simpl. rewrite IH.
      destruct (eqs k k') eqn:E; simpl.
      * apply eqs_true_iff in E. subst k'. tauto.
      * apply eqs_false_iff in E. simpl.
        split.
        -- intros [H|[H1 H2]]; [congruence|]. split; [exact H1|]. tauto.
        -- intros [H1 H2]. right. split; [exact H1|].
           intros [H|H]; [congruence | exact (H2 H)].
Qed.

Lemma keys_of_NoDup (d : row) :
  forall seen_keys, NoDup (keys_of seen_keys d).
Proof.
  induction d as [|[k' v] d IH]; intros sk; simpl.
  - constructor.
  - destruct (mem k' sk); [apply IH|].
    constructor; [|apply IH].
    rewrite keys_of_in. intros [_ H]. apply H. left. reflexivity.
Qed.

Lemma merge_field_at (dup orig : row) (f : string) :
  dict_get f (merge_field dup orig f) = merged_value orig dup f.
Proof.
  unfold merge_field, merged_value, table_get.
  destruct (dict_get f orig) as [v|] eqn:Eg.
  - assert (Hm : dict_mem f orig = true) by (apply dict_mem_get; eauto).
    rewrite Hm. cbn [negb orb].
    destruct (truthy v); cbn [negb]; [exact Eg | apply dict_get_set_same].
  - apply dict_mem_false_get in Eg. rewrite Eg. cbn [negb orb].
    apply dict_get_set_same.
Qed.

Lemma merge_field_other (dup orig : row) (f f' : string) :
  f' <> f -> dict_get f' (merge_field dup orig f) = dict_get f' orig.
Proof.
  intros H. unfold merge_field.
  destruct (negb (dict_mem f orig) || negb (truthy (table_get orig f "")));
    [apply dict_get_set_other; exact H | reflexivity].
Qed.

Lemma fold_merge_other (dup : row) (f : string) (ks : list string) :
  forall orig,
    ~ In f ks ->
    dict_get f (fold_left (merge_field dup) ks orig) = dict_get f orig.
Proof.
  induction ks as [|k ks IH]; intros orig H; simpl; [reflexivity|].
  rewrite IH by (intros Hin; apply H; right; exact Hin).
  apply merge_field_other. intros ->. apply H. left. reflexivity.
Qed.

Lemma fold_merge_at (dup : row) (f : string) (ks : list string) :
  forall orig,
    NoDup ks -> In f ks ->
    dict_get f (fold_left (merge_field dup) ks orig) = merged_value orig dup f.
Proof.
  induction ks as [|k ks IH]; intros orig Hnd Hin; simpl; [contradiction|].
  inversion Hnd as [|? ? Hnk Hnd']; subst.
  destruct (string_dec k f) as [->|Hne].
  - rewrite fold_merge_other by exact Hnk. apply merge_field_at.
  - destruct Hin as [->|Hin]; [congruence|].
    rewrite IH by assumption.
    unfold merged_value. rewrite merge_field_other by congruence.
    reflexivity.
Qed.

(** Every field of the duplicate that the first-seen row lacks or has
    empty is filled from the duplicate; its other fields stay. *)
Lemma merge_fills (orig dup : row) (f : string) :
  dict_get f (merge orig dup)
  = if dict_mem f dup then merged_value orig dup f else dict_get f orig.
Proof.
  unfold merge. destruct (dict_mem f dup) eqn:Em.
  - apply fold_merge_at; [apply keys_of_NoDup|].
    apply keys_of_in. split; [exact Em | intros []].
  - apply fold_merge_other. rewrite keys_of_in.
    intros [H _]. congruence.
Qed.

(** *** The loop *)

Lemma dedup_inv_step (h : store) (st : dstate) (done : list nat) (p : nat) :
  ~ In p done ->
  dedup_inv h st done -> dedup_inv h (step st p) (done ++ [p]).
Proof.
  intros Hp [K1 K2 K3 K4 K5 K6]. unfold step.
  rewrite (K1 p Hp). fold (key_in h p). fold (keyless h p).
  destruct (keyless h p) eqn:Ek.
  - constructor; cbn [heap seen deduplicated duplicate_count duplicate_details].
    + intros l Hl. apply K1. intros Hin. apply Hl, in_or_app. auto.
    + intros k o Hk. destruct (K2 k o Hk). split; [apply in_or_app|]; auto.
    + intros q Hq Hkq. apply in_app_or in Hq.
      destruct Hq as [Hq|[<-|[]]]; [auto | congruence].
    + intros q Hq. apply in_app_or in Hq. destruct Hq as [Hq|[<-|[]]].
      * specialize (K4 q Hq). destruct (keyless h q); [apply in_or_app|]; auto.
      * rewrite Ek. apply in_or_app. right. left. reflexivity.
    + rewrite !length_app. simpl. lia.
    + intros q Hq. apply in_app_or in Hq. apply in_or_app.
      destruct Hq as [Hq|Hq]; auto.
  - destruct (dict_get (key_in h p) (seen st)) as [o|] eqn:Es.
    + constructor;
        cbn [heap seen deduplicated duplicate_count duplicate_details].
      * intros l Hl. rewrite etl_store_get_set_other.
        -- apply K1. intros Hin. apply Hl, in_or_app. auto.
        -- intros ->. apply Hl, in_or_app. left.
           apply K6. apply (K2 _ _ Es).
      * exact K2.
      * exact K3.
      * intros q Hq. apply in_app_or in Hq. destruct Hq as [Hq|[<-|[]]].
        -- apply K4. exact Hq.
        -- rewrite Ek. eauto.
      * rewrite length_app. simpl. lia.
      * intros q Hq. apply in_or_app. auto.
    + constructor;
        cbn [heap seen deduplicated duplicate_count duplicate_details].
      * intros l Hl. apply K1. intros Hin. apply Hl, in_or_app. auto.
      * intros k o Hk. destruct (string_dec k (key_in h p)) as [->|Hd].
        -- rewrite dict_get_set_same in Hk. inversion Hk; subst.
           split; [apply in_or_app; right; left|]; reflexivity.
        -- rewrite dict_get_set_other in Hk by exact Hd.
           destruct (K2 k o Hk). split; [apply in_or_app|]; auto.
      * intros q Hq Hkq. apply in_app_or in Hq.
        destruct Hq as [Hq|[<-|[]]]; [|apply dict_get_set_same].
        pose proof (K3 q Hq Hkq) as Hs.
        rewrite dict_get_set_other; [exact Hs|].
        intros E. rewrite E in Hs. congruence.
      * intros q Hq. apply in_app_or in Hq. destruct Hq as [Hq|[<-|[]]].
        -- specialize (K4 q Hq). destruct (keyless h q);
             [apply in_or_app; auto|].
           destruct K4 as [q' Hq'].
           destruct (string_dec (key_in h q) (key_in h p)) as [E|E].
           ++ rewrite E. rewrite dict_get_set_same. eauto.
           ++ rewrite dict_get_set_other by exact E. eauto.
        -- rewrite Ek, dict_get_set_same. eauto.
      * rewrite !length_app. simpl. lia.
      * intros q Hq. apply in_app_or in Hq. apply in_or_app.
        destruct Hq as [Hq|Hq]; auto.
Qed.

Lemma dedup_inv_fold (h : store) (refs : list nat) :
  forall st done,
    NoDup (done ++ refs) ->
    dedup_inv h st done ->
    dedup_inv h (fold_left step refs st) (done ++ refs).
Proof.
  induction refs as [|p refs IH]; intros st done Hnd H; simpl.
  - rewrite app_nil_r. exact H.
  - replace (done ++ p :: refs)%list with ((done ++ [p]) ++ refs)%list in *
      by (rewrite <- app_assoc; reflexivity).
    apply IH; [exact Hnd|].
    apply dedup_inv_step; [|exact H].
    rewrite <- app_assoc in Hnd. simpl in Hnd.
    apply NoDup_remove_2 in Hnd. intros Hin. apply Hnd, in_or_app. auto.
Qed.

Lemma dedup_inv_result (h : store) (refs : list nat) :
  NoDup refs -> dedup_inv h (deduplicate_patients h refs) refs.
Proof.
  intros Hnd. unfold deduplicate_patients.
  apply (dedup_inv_fold h refs (mkD h [] [] 0 []) []); [exact Hnd|].
  constructor; simpl; auto; try discriminate; try contradiction.
Qed.

(** What a collision does: the list is left alone, the counter goes up by
    one, and the first-seen row is merged with the duplicate. *)
Lemma step_collision (st : dstate) (p o : nat) :
  no_key (build_dedup_key (store_get (heap st) p)) = false ->
  dict_get (build_dedup_key (store_get (heap st) p)) (seen st) = Some o ->
  o < List.length (heap st) ->
  deduplicated (step st p) = deduplicated st
  /\ duplicate_count (step st p) = duplicate_count st + 1
  /\ forall f,
       dict_get f (store_get (heap (step st p)) o)
       = if dict_mem f (store_get (heap st) p)
         then merged_value (store_get (heap st) o) (store_get (heap st) p) f
         else dict_get f (store_get (heap st) o).
Proof.
  intros Hk Hs Ho. unfold step. rewrite Hk, Hs.
  cbn [heap deduplicated duplicate_count]. repeat split.
  intros f. rewrite etl_store_get_set, Nat.eqb_refl.
  apply Nat.ltb_lt in Ho. rewrite Ho. cbn [andb]. apply merge_fills.
Qed.

(** C6 (amended).  On an input of distinct rows: every row is either kept
    or counted, once; two kept rows with identical (last_name, first_name,
    dob) and a key other than ["||"] are the same row; every input row has
    a kept row with its key; and on a collision the list is left alone,
    the counter goes up by exactly one, and every field of the duplicate
    that the first-seen row lacks or has empty gets the duplicate's value,
    while its non-empty fields and the fields the duplicate lacks stay. *)
Theorem duplicates_collapse_into_first_seen (h : store) (refs : list nat) :
  NoDup refs ->
  List.length (deduplicated (deduplicate_patients h refs))
  + duplicate_count (deduplicate_patients h refs) = List.length refs
  /\ (forall p q,
        In p (deduplicated (deduplicate_patients h refs)) ->
        In q (deduplicated (deduplicate_patients h refs)) ->
        keyless h p = false ->
        table_get (store_get h p) "last_name" ""
        = table_get (store_get h q) "last_name" "" ->
        table_get (store_get h p) "first_name" ""
        = table_get (store_get h q) "first_name" "" ->
        table_get (store_get h p) "dob" ""
        = table_get (store_get h q) "dob" "" ->
        p = q)
  /\ (forall p,
        In p refs ->
        exists q, In q (deduplicated (deduplicate_patients h refs))
                  /\ key_in h q = key_in h p)
  /\ (forall st p o,
        no_key (build_dedup_key (store_get (heap st) p)) = false ->
        dict_get (build_dedup_key (store_get (heap st) p)) (seen st) = Some o ->
        o < List.length (heap st) ->
        deduplicated (step st p) = deduplicated st
        /\ duplicate_count (step st p) = duplicate_count st + 1
        /\ forall f,
             dict_get f (store_get (heap (step st p)) o)
             = if dict_mem f (store_get (heap st) p)
               then merged_value (store_get (heap st) o)
                                 (store_get (heap st) p) f
               else dict_get f (store_get (heap st) o)).
Proof.
  intros Hnd.
  destruct (dedup_inv_result h refs Hnd) as [K1 K2 K3 K4 K5 K6].
  split; [exact K5|]. split; [|split; [|exact step_collision]].
  - intros p q Hp Hq Hk Hl Hf Hd.
    assert (Hkey : key_in h p = key_in h q).
    { unfold key_in, build_dedup_key. rewrite Hl, Hf, Hd. reflexivity. }
    assert (Hkq : keyless h q = false).
    { unfold keyless in *. rewrite <- Hkey. exact Hk. }
    pose proof (K3 p Hp Hk) as H1. pose proof (K3 q Hq Hkq) as H2.
    rewrite Hkey in H1. congruence.
  - intros p Hp. specialize (K4 p Hp).
    destruct (keyless h p); [eauto|].
    destruct K4 as [q Hq]. destruct (K2 _ _ Hq). eauto.
Qed.

End DedupFacts.

Section DedupExamples.
Import EtlEngine.

(** C6 as stated fails: two rows with identical, empty (last_name,
    first_name, dob) are both kept, and the counter stays at 0. *)
Lemma blank_rows_do_not_collapse :
  deduplicated (deduplicate_patients [row_blank_1; row_blank_2] [0; 1])
  = [0; 1]
  /\ duplicate_count (deduplicate_patients [row_blank_1; row_blank_2] [0; 1])
     = 0
  /\ table_get row_blank_1 "last_name" "" = table_get row_blank_2 "last_name" ""
  /\ table_get row_blank_1 "first_name" "" = table_get row_blank_2 "first_name" ""
  /\ table_get row_blank_1 "dob" "" = table_get row_blank_2 "dob" "".
Proof. repeat split. Qed.

Lemma duplicates_collapse_into_first_seen_witness :
  List.length (deduplicated
                 (deduplicate_patients [row_doe_epic; row_doe_cerner] [0; 1]))
  + duplicate_count
      (deduplicate_patients [row_doe_epic; row_doe_cerner] [0; 1])
  = 2.
Proof.
  assert (Hnd : NoDup [0; 1]).
  { constructor; [simpl; intros [H|[]]; discriminate|].
    constructor; [intros []|]. constructor. }
  exact (proj1 (duplicates_collapse_into_first_seen
                  [row_doe_epic; row_doe_cerner] [0; 1] Hnd)).
Defined.

(** The two rows of the patient collapse into the first, which takes the
    phone and the social-security number of the second. *)
Example doe_rows_merge :
  deduplicated_rows
    (deduplicate_patients [row_doe_epic; row_doe_cerner] [0; 1])
  = [ [ ("patient_id", "A1"); ("source_system", "epic"); ("last_name", "DOE");
        ("first_name", "JOHN"); ("dob", "1980-01-01");
        ("phone", "(555) 010-2000"); ("ssn", "123-45-6789") ] ]
  /\ duplicate_count
       (deduplicate_patients [row_doe_epic; row_doe_cerner] [0; 1]) = 1.
Proof. split; reflexivity. Qed.

Lemma empty_key_rows_are_kept_witness :
  count_occ Nat.eq_dec
    (deduplicated (deduplicate_patients
                     [row_blank_1; row_doe_epic; row_blank_2] [0; 1; 2])) 2
  = count_occ Nat.eq_dec [0; 1; 2] 2
  /\ store_get (heap (deduplicate_patients
                        [row_blank_1; row_doe_epic; row_blank_2] [0; 1; 2])) 2
     = row_blank_2.
Proof.
  destruct (empty_key_rows_are_kept
              [row_blank_1; row_doe_epic; row_blank_2] [0; 1; 2] 2)
    as (H1 & H2 & _); try reflexivity.
  split; [exact H1 | exact H2].
Defined.

End DedupExamples.

(** ** Amounts of a generated claim *)

Section AmountFacts.
Import EobTo835.
Local Open Scope Q_scope.

Lemma is_cents_eq (a b : Q) : a == b -> is_cents a -> is_cents b.
Proof. intros E [c H]. exists c. rewrite <- E. exact H. Qed.

Lemma is_cents_0 : is_cents 0.
Proof. exists 0%Z. reflexivity. Qed.

Lemma is_cents_plus (a b : Q) : is_cents a -> is_cents b -> is_cents (a + b).
Proof.
  intros [c Hc] [d Hd]. exists (c + d)%Z. rewrite Hc, Hd.
  unfold Qeq, Qplus. simpl. lia.
Qed.

Lemma is_cents_minus (a b : Q) : is_cents a -> is_cents b -> is_cents (a - b).
Proof.
  intros [c Hc] [d Hd]. exists (c - d)%Z. rewrite Hc, Hd.
  unfold Qeq, Qminus, Qplus, Qopp. simpl. lia.
Qed.

Lemma round2_is_cents (q : Q) : is_cents (round2 q).
Proof. exists (round_half_even (q * 100)). reflexivity. Qed.

Lemma round_half_even_Z (x : Q) (c : Z) :
  x == inject_Z c -> round_half_even x = c.
Proof.
  intros H. unfold round_half_even.
  rewrite (Qfloor_comp _ _ H), Qfloor_Z.
  destruct (Qcompare_spec (x - inject_Z c) (1 # 2)) as [E|E|E];
    [exfalso; lra | reflexivity | exfalso; lra].
Qed.

(** Rounding to two decimals leaves whole cents as they are. *)
Lemma round2_cents (q : Q) : is_cents q -> round2 q == q.
Proof.
  intros [c H]. unfold round2.
  rewrite (round_half_even_Z (q * 100) c).
  - symmetry. exact H.
  - rewrite H. unfold Qeq, Qmult, inject_Z. simpl. lia.
Qed.

Lemma Qgtb_true (a b : Q) : Qgtb a b = true -> b < a.
Proof.
  unfold Qgtb. intros H. apply negb_true_iff in H.
  apply Qnot_le_lt. intros Hle. apply Qle_bool_iff in Hle. congruence.
Qed.

Lemma Qgtb_false (a b : Q) : Qgtb a b = false -> a <= b.
Proof.
  unfold Qgtb. intros H. apply negb_false_iff in H.
  apply Qle_bool_iff. exact H.
Qed.

Lemma Qltb_true (a b : Q) : Qltb a b = true -> a < b.
Proof. unfold Qltb. intros H. apply (Qgtb_true b a). exact H. Qed.

Lemma Qltb_false (a b : Q) : Qltb a b = false -> b <= a.
Proof. unfold Qltb. intros H. apply (Qgtb_false b a). exact H. Qed.

(** Turns the boolean tests in the context into order facts. *)
Ltac order_facts :=
  repeat match goal with
         | H : Qgtb _ _ = true |- _ => apply Qgtb_true in H
         | H : Qgtb _ _ = false |- _ => apply Qgtb_false in H
         | H : Qltb _ _ = true |- _ => apply Qltb_true in H
         | H : Qltb _ _ = false |- _ => apply Qltb_false in H
         | H : Qeq_bool _ _ = true |- _ => apply Qeq_bool_iff in H
         | H : Qeq_bool _ _ = false |- _ => apply Qeq_bool_neq in H
         | H : _ && _ = true |- _ => apply andb_true_iff in H; destruct H
         end.

Lemma adjustment_total_app (a b : list segment) :
  adjustment_total (a ++ b) == adjustment_total a + adjustment_total b.
Proof.
  unfold adjustment_total. induction a as [|s a IH]; simpl.
  - lra.
  - rewrite IH. lra.
Qed.

Lemma extra_amounts_zero (codes : list string) :
  Qsum (map elem_amount
          (flat_map (fun c => [EStr c; EAmt (format_amount 0)]) codes)) == 0.
Proof.
  induction codes as [|c codes IH]; simpl; [reflexivity|].
  rewrite IH. unfold format_amount.
  rewrite (round2_cents 0 is_cents_0). lra.
Qed.

Lemma cas_amount_co (code : string) (x : Q) (codes : list string) :
  cas_amount ([EStr "CAS"; EStr "CO"; EStr code; EAmt (format_amount x)]
              ++ extra_codes codes)%list
  == round2 x.
Proof.
  unfold cas_amount, extra_codes. cbn [seg_tag app eqs String.eqb Ascii.eqb Bool.eqb].
  cbn [map Qsum fold_right elem_amount].
  fold (Qsum (map elem_amount
                (flat_map (fun c => [EStr c; EAmt (format_amount 0)])
                          (firstn 5 (skipn 1 codes))))).
  rewrite extra_amounts_zero. unfold format_amount. lra.
Qed.

Lemma cas_amount_4 (g code : string) (x : Q) :
  cas_amount [EStr "CAS"; EStr g; EStr code; EAmt (format_amount x)]
  == round2 x.
Proof.
  unfold cas_amount. cbn [seg_tag eqs String.eqb Ascii.eqb Bool.eqb].
  cbn [map Qsum fold_right elem_amount]. unfold format_amount. lra.
Qed.

Lemma cents_below_half_cent (x : Q) :
  is_cents x -> 0 <= x -> x <= 5 # 1000 -> x == 0.
Proof.
  intros [c H] H0 H1. rewrite H in *.
  unfold Qle in H0, H1. simpl in H0, H1.
  assert (c = 0%Z) by lia. subst c. reflexivity.
Qed.

Lemma adjustment_total_single (s : segment) :
  adjustment_total [s] == cas_amount s.
Proof. unfold adjustment_total. simpl. lra. Qed.

Lemma adjustment_total_nil : adjustment_total [] == 0.
Proof. reflexivity. Qed.

Section Line.

Variable carc_mapping : carc_table.
Variable svc : service_line.
Hypothesis Hline : line_consistent carc_mapping svc.

(** The inferred coinsurance is what is left of allowed minus paid after
    deductible and copay. *)
Lemma line_coinsurance_eq :
  line_coinsurance svc
  == allowed svc - paid svc - (deductible svc + copay svc).
Proof.
  destruct Hline as [[cB pB] [cA pA] [cD pD] [cC pC] [cJ pJ] [cP pP]
                     HAB HDC HJ Hden].
  unfold line_coinsurance.
  destruct (Qgtb (allowed svc) 0) eqn:E1.
  - destruct (Qgtb (allowed svc - paid svc)
                   (deductible svc + copay svc + (5 # 1000))) eqn:E2.
    + rewrite round2_cents; [lra|].
      auto using is_cents_minus, is_cents_plus.
    + order_facts. symmetry. apply cents_below_half_cent; [|lra|lra].
      auto using is_cents_minus, is_cents_plus.
  - order_facts. lra.
Qed.

Lemma line_coinsurance_cents : is_cents (line_coinsurance svc).
Proof.
  destruct Hline as [[cB pB] [cA pA] [cD pD] [cC pC] [cJ pJ] [cP pP]
                     HAB HDC HJ Hden].
  apply (is_cents_eq (allowed svc - paid svc - (deductible svc + copay svc))).
  - symmetry. apply line_coinsurance_eq.
  - auto using is_cents_minus, is_cents_plus.
Qed.

(** The PR segments of a line add up to allowed minus paid. *)
Lemma line_pr_total :
  adjustment_total (line_pr_segments svc) == allowed svc - paid svc.
Proof.
  pose proof line_coinsurance_eq as Hco.
  pose proof line_coinsurance_cents as Hcc.
  destruct Hline as [[cB pB] [cA pA] [cD pD] [cC pC] [cJ pJ] [cP pP]
                     HAB HDC HJ Hden].
  unfold line_pr_segments. rewrite !adjustment_total_app.
  assert (H1 : adjustment_total
                 (if Qgtb (deductible svc) 0
                  then [[EStr "CAS"; EStr "PR"; EStr "1";
                         EAmt (format_amount (deductible svc))]]
                  else []) == deductible svc).
  { destruct (Qgtb (deductible svc) 0) eqn:E.
    - rewrite adjustment_total_single, cas_amount_4.
      apply round2_cents. exact cD.
    - order_facts. rewrite adjustment_total_nil. lra. }
  assert (H2 : adjustment_total
                 (if Qgtb (line_coinsurance svc) 0
                  then [[EStr "CAS"; EStr "PR"; EStr "2";
                         EAmt (format_amount (line_coinsurance svc))]]
                  else []) == line_coinsurance svc).
  { destruct (Qgtb (line_coinsurance svc) 0) eqn:E.
    - rewrite adjustment_total_single, cas_amount_4.
      apply round2_cents. exact Hcc.
    - order_facts. rewrite adjustment_total_nil. lra. }
  assert (H3 : adjustment_total
                 (if Qgtb (copay svc) 0
                  then [[EStr "CAS"; EStr "PR"; EStr "3";
                         EAmt (format_amount (copay svc))]]
                  else []) == copay svc).
  { destruct (Qgtb (copay svc) 0) eqn:E.
    - rewrite adjustment_total_single, cas_amount_4.
      apply round2_cents. exact cC.
    - order_facts. rewrite adjustment_total_nil. lra. }
  rewrite H1, H2, H3. lra.
Qed.

(** The CO segment of a line is at most billed minus allowed. *)
Lemma line_co_total :
  adjustment_total (line_co_segment svc carc_mapping)
  <= billed svc - allowed svc.
Proof.
  pose proof line_coinsurance_eq as Hco.
  pose proof line_coinsurance_cents as Hcc.
  destruct Hline as [[cB pB] [cA pA] [cD pD] [cC pC] [cJ pJ] [cP pP]
                     HAB HDC HJ Hden].
  unfold line_co_segment.
  set (pr := deductible svc + copay svc + line_coinsurance svc) in *.
  assert (Hpr : pr == allowed svc - paid svc) by (unfold pr; lra).
  assert (Hr : round2 (adj_amount svc - pr) == adj_amount svc - pr).
  { apply round2_cents. unfold pr.
    auto using is_cents_minus, is_cents_plus. }
  set (net := if Qltb (round2 (adj_amount svc - pr)) 0 then 0
              else round2 (adj_amount svc - pr)) in *.
  assert (Hnet_cents : is_cents net).
  { unfold net. destruct (Qltb (round2 (adj_amount svc - pr)) 0);
      [apply is_cents_0 | apply round2_is_cents]. }
  assert (Hnet : net <= billed svc - allowed svc).
  { unfold net. destruct (Qltb (round2 (adj_amount svc - pr)) 0); lra. }
  destruct (nonempty (line_co_adjustments svc carc_mapping)) eqn:Ene;
    cbn [andb negb].
  - destruct (Qgtb net 0) eqn:E1.
    + rewrite adjustment_total_single, cas_amount_co.
      rewrite round2_cents by exact Hnet_cents. exact Hnet.
    + destruct (Qgtb (adj_amount svc) 0 && Qeq_bool pr 0) eqn:E2.
      * order_facts.
        rewrite adjustment_total_single, cas_amount_co.
        rewrite round2_cents by exact cJ. lra.
      * rewrite adjustment_total_nil. lra.
  - assert (Hnil : line_co_adjustments svc carc_mapping = []).
    { destruct (line_co_adjustments svc carc_mapping);
        [reflexivity | discriminate]. }
    destruct (Qgtb (billed svc) (allowed svc) && Qgtb (allowed svc) 0) eqn:E1.
    + assert (Hw : round2 (billed svc - allowed svc)
                   == billed svc - allowed svc).
      { apply round2_cents. auto using is_cents_minus. }
      destruct (Qgtb (round2 (billed svc - allowed svc)) 0) eqn:E2.
      * rewrite adjustment_total_single, cas_amount_4.
        rewrite round2_cents by apply round2_is_cents. lra.
      * rewrite adjustment_total_nil. lra.
    + destruct (Qeq_bool (paid svc) 0 && Qgtb (billed svc) 0) eqn:E2.
      * rewrite adjustment_total_single, cas_amount_4.
        rewrite round2_cents by exact cB.
        apply andb_true_iff in E2. destruct E2 as [E2 E3].
        apply Qeq_bool_iff in E2. apply Qgtb_true in E3.
        destruct (Hden E2 Hnil) as [Hlt|Hz]; [|lra].
        apply andb_false_iff in E1.
        destruct E1 as [E1|E1]; apply Qgtb_false in E1; lra.
      * rewrite adjustment_total_nil. lra.
Qed.

(** The adjustments of a consistent line are at most billed minus paid. *)
Lemma line_adjustments_le (service_date : string) :
  adjustment_total (service_line_segments service_date svc carc_mapping)
  <= billed svc - paid svc.
Proof.
  unfold service_line_segments. rewrite !adjustment_total_app.
  rewrite line_pr_total.
  pose proof line_co_total as Hco.
  assert (H1 : adjustment_total
                 [[EStr "SVC"; EStr ("HC:" ++ cpt svc);
                   EAmt (format_amount (billed svc));
                   EAmt (format_amount (paid svc)); EStr ""; EStr "1"];
                  [EStr "DTM"; EStr "472"; EStr service_date]] == 0)
    by reflexivity.
  assert (H2 : adjustment_total
                 [[EStr "AMT"; EStr "B6"; EAmt (format_amount (allowed svc))]]
               == 0) by reflexivity.
  rewrite H1, H2. lra.
Qed.

End Line.

Lemma lines_adjustments_le (carc_mapping : carc_table)
  (service_date : string) (lines : list service_line) :
  Forall (line_consistent carc_mapping) lines ->
  adjustment_total
    (flat_map (fun svc => service_line_segments service_date svc carc_mapping)
              lines)
  <= Qsum (map billed lines) - Qsum (map paid lines).
Proof.
  induction 1 as [|svc lines Hsvc Hrest IH];
    cbn [flat_map map Qsum fold_right].
  - rewrite adjustment_total_nil. lra.
  - rewrite adjustment_total_app.
    pose proof (line_adjustments_le carc_mapping svc Hsvc service_date).
    fold (Qsum (map billed lines)). fold (Qsum (map paid lines)).
    lra.
Qed.

Lemma lines_cents (carc_mapping : carc_table) (lines : list service_line) :
  Forall (line_consistent carc_mapping) lines ->
  is_cents (Qsum (map billed lines)) /\ is_cents (Qsum (map paid lines)).
Proof.
  induction 1 as [|svc lines Hsvc Hrest [IHb IHp]];
    cbn [map Qsum fold_right].
  - split; apply is_cents_0.
  - destruct Hsvc as [[cB _] _ _ _ _ [cP _] _ _ _ _].
    split; apply is_cents_plus; assumption.
Qed.


End AmountFacts.

Section AmountExamples.
Import EobTo835.
Local Open Scope Q_scope.


Lemma eob_contractual_consistent :
  eob_consistent DEFAULT_CARC_MAPPING eob_contractual.
Proof.
  constructor.
  - constructor; [|constructor].
    constructor; cbn [billed allowed deductible copay adj_amount paid].
    + split; [exists 10000%Z; reflexivity | lra].
    + split; [exists 8000%Z; reflexivity | lra].
    + split; [exists 1000%Z; reflexivity | lra].
    + split; [exists 0%Z; reflexivity | lra].
    + split; [exists 2000%Z; reflexivity | lra].
    + split; [exists 7000%Z; reflexivity | lra].
    + lra.
    + lra.
    + lra.
    + intros _ H. vm_compute in H. discriminate.
  - reflexivity.
  - reflexivity.
Defined.


End AmountExamples.

(* ===================================================================== *)
(** * Further properties *)
(* ===================================================================== *)

(** ** The 835 loader *)

Section LoaderMore.
Import DenialsDbLoader.

Variable py_float : string -> option pyfloat.

Lemma remove_char_app (c : ascii) (a b : string) :
  remove_char c (a ++ b) = (remove_char c a ++ remove_char c b)%string.
Proof.
  induction a as [|d a IH]; simpl; [reflexivity|].
  destruct (Ascii.eqb d c); simpl; rewrite IH; reflexivity.
Qed.

Lemma step_unknown_tag (practice_type : option string) (st : pstate)
  (seg : string) :
  known_tag seg = false -> step py_float practice_type st seg = Ok st.
Proof.
  unfold known_tag, tag_of, mem. cbn [existsb]. intros H.
  repeat (apply orb_false_iff in H; destruct H as [?E H]).
  unfold step. rewrite E, E0, E1, E2, E3. cbn [andb].
  destruct (negb (truthy (nth 0 (split "*" seg) ""))); [reflexivity|].
  destruct (current st); reflexivity.
Qed.

(** The records flushed so far together with the open one. *)
Lemma step_flush_length (practice_type : option string) (st st' : pstate)
  (seg : string) :
  step py_float practice_type st seg = Ok st' ->
  List.length (flush st')
  = List.length (flush st) + (if is_clp seg then 1 else 0).
Proof.
  unfold step, is_clp, tag_of.
  destruct (negb (truthy (nth 0 (split "*" seg) ""))) eqn:Et.
  { intros H; inversion H; subst.
    apply negb_true_iff, truthy_false_iff in Et. rewrite Et. simpl. lia. }
  destruct (eqs (nth 0 (split "*" seg) "") "N1"
            && (2 <? List.length (split "*" seg))
            && eqs (nth 1 (split "*" seg) "") "PR") eqn:En.
  { intros H; inversion H; subst.
    apply andb_true_iff in En. destruct En as [En _].
    apply andb_true_iff in En. destruct En as [En _].
    apply eqs_true_iff in En. rewrite En. unfold flush. simpl. lia. }
  destruct (eqs (nth 0 (split "*" seg) "") "CLP") eqn:Ec.
  { match goal with
    | |- context [bind ?m _] => destruct m as [bal|e]
    end; cbn [bind]; [|discriminate].
    intros H; inversion H; subst. unfold flush at 1. cbn [current results].
    rewrite length_app. simpl. reflexivity. }
  destruct (current st) as [cur|] eqn:Ecur.
  - repeat break_if; intros H; inversion H; subst;
      unfold flush; cbn [current results]; rewrite ?Ecur;
      rewrite !length_app; simpl; lia.
  - intros H; inversion H; subst. lia.
Qed.

Lemma loop_flush_length (practice_type : option string)
  (segments : list string) :
  forall st st',
    loop py_float practice_type st segments = Ok st' ->
    List.length (flush st')
    = List.length (flush st) + List.length (filter is_clp segments).
Proof.
  induction segments as [|seg rest IH]; intros st st' H; simpl in H.
  - inversion H; subst. simpl. lia.
  - destruct (step py_float practice_type st seg) as [st1|e] eqn:Hs;
      cbn [bind] in H; [|discriminate].
    apply step_flush_length in Hs. apply IH in H. rewrite H, Hs.
    simpl. destruct (is_clp seg); simpl; lia.
Qed.

(** X1.  When [parse_835_file] returns, it returns one record for each CLP
    segment of the file, whatever else the file holds. *)
Theorem loader_one_record_per_clp (raw_text : string)
  (practice_type : option string) (recs : list denial) :
  parse_835_file py_float raw_text practice_type = Ok recs ->
  List.length recs = List.length (filter is_clp (segments_of raw_text)).
Proof.
  unfold parse_835_file, segments_of.
  destruct (loop py_float practice_type (mkPState None None [])
                 (split "~" (remove_char "010" raw_text))) as [st|e] eqn:Hl;
    cbn [bind]; [|discriminate].
  intros H; inversion H; subst.
  apply loop_flush_length in Hl. rewrite Hl. reflexivity.
Qed.

Lemma step_raises_value_error (practice_type : option string) (st : pstate)
  (seg : string) (e : exn) :
  step py_float practice_type st seg = Raise e ->
  e = ValueError /\ ~ clp_amount_ok py_float seg.
Proof.
  unfold step, clp_amount_ok, is_clp, tag_of.
  destruct (negb (truthy (nth 0 (split "*" seg) ""))); [discriminate|].
  destruct (eqs (nth 0 (split "*" seg) "") "N1"
            && (2 <? List.length (split "*" seg))
            && eqs (nth 1 (split "*" seg) "") "PR"); [discriminate|].
  destruct (eqs (nth 0 (split "*" seg) "") "CLP") eqn:Ec.
  - destruct ((3 <? List.length (split "*" seg))
              && truthy (nth 3 (split "*" seg) "")) eqn:E3;
      cbn [bind]; [|discriminate].
    unfold float_or_raise.
    destruct (py_float (nth 3 (split "*" seg) "")) eqn:Ef;
      cbn [bind]; [discriminate|].
    intros H; inversion H. split; [reflexivity|].
    apply andb_true_iff in E3. destruct E3 as [E3 E4].
    apply Nat.ltb_lt in E3. intros Hok.
    apply (Hok eq_refl E3 E4). reflexivity.
  - destruct (current st); [|discriminate].
    repeat break_if; discriminate.
Qed.

Lemma step_returns (practice_type : option string) (st : pstate)
  (seg : string) :
  clp_amount_ok py_float seg ->
  exists st', step py_float practice_type st seg = Ok st'.
Proof.
  intros Hok. destruct (step py_float practice_type st seg) as [st'|e] eqn:H.
  - eauto.
  - apply step_raises_value_error in H. destruct H as [_ H]. contradiction.
Qed.

Lemma loop_returns_iff (practice_type : option string)
  (segments : list string) :
  forall st,
    (exists st', loop py_float practice_type st segments = Ok st')
    <-> Forall (clp_amount_ok py_float) segments.
Proof.
  induction segments as [|seg rest IH]; intros st; simpl.
  - split; [constructor | eauto].
  - split.
    + intros [st' H].
      destruct (step py_float practice_type st seg) as [st1|e] eqn:Hs;
        cbn [bind] in H; [|discriminate].
      constructor.
      * intros Hc H3 H4 Hf. revert Hs. unfold step.
        unfold is_clp, tag_of in Hc.
        assert (Ht : truthy (nth 0 (split "*" seg) "") = true).
        { apply eqs_true_iff in Hc. rewrite Hc. reflexivity. }
        rewrite Ht. cbn [negb].
        assert (Hn : eqs (nth 0 (split "*" seg) "") "N1" = false).
        { apply eqs_true_iff in Hc. rewrite Hc. reflexivity. }
        rewrite Hn, Hc. cbn [andb].
        apply Nat.ltb_lt in H3. rewrite H3, H4. cbn [andb].
        unfold float_or_raise. rewrite Hf. cbn [bind]. discriminate.
      * apply (IH st1). eauto.
    + intros H. inversion H as [|? ? Hseg Hrest]; subst.
      destruct (step_returns practice_type st seg Hseg) as [st1 Hs].
      rewrite Hs. cbn [bind]. apply IH. exact Hrest.
Qed.

Lemma loop_raises_value_error (practice_type : option string)
  (segments : list string) :
  forall st e,
    loop py_float practice_type st segments = Raise e -> e = ValueError.
Proof.
  induction segments as [|seg rest IH]; intros st e H; simpl in H.
  - discriminate.
  - destruct (step py_float practice_type st seg) as [st1|e1] eqn:Hs;
      cbn [bind] in H.
    + eapply IH; eauto.
    + inversion H; subst. apply step_raises_value_error in Hs. tauto.
Qed.

(** X2.  [parse_835_file] returns a result exactly when the float
    conversion reads the amount element of every CLP segment that has a
    non-empty one; the only exception it lets through is [ValueError]. *)
Theorem loader_raises_only_on_unreadable_amount (raw_text : string)
  (practice_type : option string) :
  ((exists recs, parse_835_file py_float raw_text practice_type = Ok recs)
   <-> Forall (clp_amount_ok py_float) (segments_of raw_text))
  /\ (forall e, parse_835_file py_float raw_text practice_type = Raise e ->
                e = ValueError).
Proof.
  unfold parse_835_file, segments_of. split.
  - rewrite <- (loop_returns_iff practice_type _ (mkPState None None [])).
    destruct (loop py_float practice_type (mkPState None None [])
                   (split "~" (remove_char "010" raw_text))) as [st|e];
      cbn [bind]; split; intros [x H]; eauto; discriminate.
  - intros e.
    destruct (loop py_float practice_type (mkPState None None [])
                   (split "~" (remove_char "010" raw_text))) as [st|e1] eqn:Hl;
      cbn [bind]; [discriminate|].
    intros H; inversion H; subst. eapply loop_raises_value_error; eauto.
Qed.

(** X3.  A line break anywhere in the file, even inside an element, does
    not change what [parse_835_file] returns. *)
Theorem loader_ignores_line_breaks (a b : string)
  (practice_type : option string) :
  parse_835_file py_float (a ++ String "010" b) practice_type
  = parse_835_file py_float (a ++ b) practice_type.
Proof.
  unfold parse_835_file. rewrite !remove_char_app. reflexivity.
Qed.

Lemma loop_skips_unknown (practice_type : option string)
  (segments : list string) :
  forall st,
    loop py_float practice_type st segments
    = loop py_float practice_type st (filter known_tag segments).
Proof.
  induction segments as [|seg rest IH]; intros st; simpl; [reflexivity|].
  destruct (known_tag seg) eqn:Ek; simpl.
  - destruct (step py_float practice_type st seg); cbn [bind];
      [apply IH | reflexivity].
  - rewrite (step_unknown_tag practice_type st seg Ek). cbn [bind]. apply IH.
Qed.

(** X4.  Segments with a tag other than N1, CLP, CAS, SVC and DTM are
    skipped: the result is that of the file without them. *)
Theorem loader_skips_unknown_segments (raw_text : string)
  (practice_type : option string) :
  parse_835_file py_float raw_text practice_type
  = (st <- loop py_float practice_type (mkPState None None [])
                (filter known_tag (segments_of raw_text)) ;;
     Ok (flush st)).
Proof.
  unfold parse_835_file, segments_of. rewrite <- loop_skips_unknown.
  reflexivity.
Qed.

End LoaderMore.

(** ** The 271 tokenizer and walker *)

Section WalkerMore.
Import RealtimeEligibility.

Variable py_float : string -> option pyfloat.
Variable strptime_Ymd : string -> option instant.

Lemma walk_raises (filepath : string) (segments : list (list string)) :
  forall st e,
    walk py_float filepath st segments = Raise e ->
    e = OverflowError
    /\ exists seg negative,
         In seg segments /\ nth 0 seg "" = "EB" /\ _elem seg 1 = "A"
         /\ py_float (_elem seg 7) = Some (FInf negative).
Proof.
  induction segments as [|seg rest IH]; intros st e H; simpl in H.
  - discriminate.
  - destruct (step py_float filepath st seg) as [st1|e1] eqn:Hs;
      cbn [bind] in H.
    + destruct (IH _ _ H) as (He & s & n & Hin & Hrest).
      split; [exact He|]. exists s, n. split; [right; exact Hin | exact Hrest].
    + inversion H; subst. apply step_raises in Hs.
      destruct Hs as (He & Htag & H1 & _ & n & Hinf).
      split; [exact He|]. exists seg, n. repeat split; auto. left. reflexivity.
Qed.

(** X5.  The only exception [_walk_segments] lets through is
    [OverflowError], and only for a file with an EB segment whose EB01 is
    ["A"] and whose EB07 reads as an infinite float. *)
Theorem walker_raises_only_overflow (clock : nat -> instant)
  (segments : list (list string)) (filepath : string) (e : exn) :
  _walk_segments py_float strptime_Ymd clock segments filepath = Raise e ->
  e = OverflowError
  /\ exists seg negative,
       In seg segments /\ nth 0 seg "" = "EB" /\ _elem seg 1 = "A"
       /\ py_float (_elem seg 7) = Some (FInf negative).
Proof.
  unfold _walk_segments.
  destruct (walk py_float filepath initial segments) as [st|e1] eqn:Hw;
    cbn [bind]; [discriminate|].
  intros H; inversion H; subst. eapply walk_raises; eauto.
Qed.

End WalkerMore.

Section TokenizerMore.
Import RealtimeEligibility.

Lemma split_single_empty (sep : ascii) (s : string) :
  split sep s = [""] -> s = "".
Proof.
  destruct s as [|c s]; [reflexivity|]. simpl.
  destruct (Ascii.eqb c sep).
  - intros H. inversion H as [H1]. exfalso. exact (split_nonempty sep s H1).
  - destruct (split sep s); discriminate.
Qed.

Lemma split_elem_no_sep (sep : ascii) (s : string) :
  forall x, In x (split sep s) -> has_char sep x = false.
Proof.
  induction s as [|c s IH]; intros x Hin; simpl in Hin.
  - destruct Hin as [<-|[]]. reflexivity.
  - destruct (Ascii.eqb c sep) eqn:E.
    + destruct Hin as [<-|Hin]; [reflexivity | auto].
    + destruct (split sep s) as [|w ws] eqn:Es.
      * destruct Hin as [<-|[]]. simpl. rewrite E. reflexivity.
      * destruct Hin as [<-|Hin].
        -- simpl. rewrite E. apply IH. left. reflexivity.
        -- apply IH. right. exact Hin.
Qed.

Lemma split_elem_chars (sep c : ascii) (s : string) :
  has_char c s = false ->
  forall x, In x (split sep s) -> has_char c x = false.
Proof.
  induction s as [|d s IH]; intros Hc x Hin; simpl in Hin, Hc.
  - destruct Hin as [<-|[]]. reflexivity.
  - apply orb_false_iff in Hc. destruct Hc as [Hd Hs].
    destruct (Ascii.eqb d sep).
    + destruct Hin as [<-|Hin]; [reflexivity | auto].
    + destruct (split sep s) as [|w ws] eqn:Es.
      * destruct Hin as [<-|[]]. simpl. rewrite Hd. reflexivity.
      * destruct Hin as [<-|Hin].
        -- simpl. rewrite Hd. apply IH; [exact Hs | left; reflexivity].
        -- apply IH; [exact Hs | right; exact Hin].
Qed.

Lemma has_char_lstrip (c : ascii) (s : string) :
  has_char c s = false -> has_char c (lstrip s) = false.
Proof.
  induction s as [|d s IH]; simpl; [auto|].
  intros H. destruct (is_space d); [|exact H].
  apply orb_false_iff in H. destruct H as [_ H]. auto.
Qed.

Lemma has_char_rstrip (c : ascii) (s : string) :
  has_char c s = false -> has_char c (rstrip s) = false.
Proof.
  induction s as [|d s IH]; simpl; [auto|].
  intros H. apply orb_false_iff in H. destruct H as [Hd Hs].
  specialize (IH Hs).
  destruct (rstrip s) as [|e r] eqn:Er.
  - destruct (is_space d); simpl; [reflexivity | rewrite Hd; reflexivity].
  - change (has_char c (String d (String e r)) = false).
    simpl in *. rewrite Hd. exact IH.
Qed.

Lemma has_char_strip (c : ascii) (s : string) :
  has_char c s = false -> has_char c (strip s) = false.
Proof. intros H. unfold strip. apply has_char_rstrip, has_char_lstrip, H. Qed.

Lemma has_char_remove_same (c : ascii) (s : string) :
  has_char c (remove_char c s) = false.
Proof.
  induction s as [|d s IH]; simpl; [reflexivity|].
  destruct (Ascii.eqb d c) eqn:E; simpl; [exact IH | rewrite E; exact IH].
Qed.

Lemma has_char_remove_other (c d : ascii) (s : string) :
  has_char c s = false -> has_char c (remove_char d s) = false.
Proof.
  induction s as [|x s IH]; simpl; [auto|].
  intros H. apply orb_false_iff in H. destruct H as [Hx Hs].
  destruct (Ascii.eqb x d); simpl; [auto | rewrite Hx; auto].
Qed.

(** X6.  No segment that [_tokenize] returns is empty or blank, and no
    element of it holds an element separator, a segment terminator or a
    line break. *)
Theorem tokenizer_segments_are_clean (raw : string) (seg : list string) :
  In seg (_tokenize raw) ->
  seg <> [] /\ seg <> [""] /\ forall x, In x seg -> clean_element x.
Proof.
  unfold _tokenize. intros H. apply in_map_iff in H.
  destruct H as (t & <- & Ht). apply filter_In in Ht.
  destruct Ht as [Ht Htruthy]. apply in_map_iff in Ht.
  destruct Ht as (u & <- & Hu).
  set (raw' := remove_char "013" (remove_char "010" raw)) in *.
  assert (Hnl : has_char "010" raw' = false)
    by (apply has_char_remove_other, has_char_remove_same).
  assert (Hcr : has_char "013" raw' = false) by apply has_char_remove_same.
  split; [apply split_nonempty|]. split.
  - intros E. apply split_single_empty in E. rewrite E in Htruthy.
    discriminate.
  - intros x Hx. unfold clean_element, ELEMENT_SEPARATOR in *.
    split; [eapply split_elem_no_sep; eauto|].
    split; [|split].
    + eapply split_elem_chars; [|exact Hx]. apply has_char_strip.
      eapply split_elem_no_sep. exact Hu.
    + eapply split_elem_chars; [|exact Hx]. apply has_char_strip.
      eapply split_elem_chars; [exact Hnl | exact Hu].
    + eapply split_elem_chars; [|exact Hx]. apply has_char_strip.
      eapply split_elem_chars; [exact Hcr | exact Hu].
Qed.

(** X7.  A line feed or a carriage return anywhere in the text does not
    change the segments [_tokenize] returns. *)
Theorem tokenizer_ignores_line_breaks (a b : string) :
  _tokenize (a ++ String "010" b) = _tokenize (a ++ b)
  /\ _tokenize (a ++ String "013" b) = _tokenize (a ++ b).
Proof.
  unfold _tokenize. split.
  - rewrite !(remove_char_app "010"). reflexivity.
  - rewrite !(remove_char_app "010"). cbn [remove_char Ascii.eqb Bool.eqb].
    rewrite !(remove_char_app "013"). reflexivity.
Qed.

End TokenizerMore.

(** ** The keys of a patient record *)

Section RecordKeys.
Import RealtimeEligibility.

Variable py_float : string -> option pyfloat.
Variable strptime_Ymd : string -> option instant.

Lemma dict_mem_set {V : Type} (k k2 : string) (v : V) (d : list (string * V)) :
  dict_mem k2 d = true -> dict_mem k2 (dict_set k v d) = true.
Proof.
  induction d as [|[k' v'] d IH]; simpl; [discriminate|].
  intros H. destruct (eqs k k'); simpl; [exact H|].
  destruct (eqs k2 k'); simpl in *; [reflexivity | auto].
Qed.

Lemma keys_set (k : string) (v : pyval) (p : pydict) :
  has_record_keys p -> has_record_keys (dict_set k v p).
Proof. intros H x Hx. apply dict_mem_set. apply H. exact Hx. Qed.

Lemma keys_set_sub (k kk : string) (v : pyval) (p : pydict) :
  has_record_keys p -> has_record_keys (set_sub k kk v p).
Proof. intros H. unfold set_sub. apply keys_set. exact H. Qed.

Lemma keys_append_to (k : string) (v : pyval) (p : pydict) :
  has_record_keys p -> has_record_keys (append_to k v p).
Proof.
  intros H. unfold append_to.
  destruct (dict_get k p) as [[| | | | |l|]|]; apply keys_set; exact H.
Qed.

Ltac keys_step :=
  repeat first [ assumption
               | apply keys_set | apply keys_set_sub | apply keys_append_to ].

Lemma keys_new (filepath : string) :
  has_record_keys (_new_patient_record filepath).
Proof.
  intros k Hk. unfold record_keys in Hk. simpl in Hk.
  repeat (destruct Hk as [<-|Hk]; [reflexivity|]). contradiction.
Qed.

Lemma keys_add_message (m : string) (p : pydict) :
  has_record_keys p -> has_record_keys (add_message m p).
Proof. intros H. unfold add_message. repeat break_if; keys_step. Qed.

Lemma keys_eb_coverage (eb01 eb05 : string) (p : pydict) :
  has_record_keys p -> has_record_keys (eb_coverage eb01 eb05 p).
Proof. intros H. unfold eb_coverage. repeat break_if; keys_step. Qed.

Lemma keys_eb_benefit (eb01 eb02 eb03 eb06 eb07 level : string) (oon : bool)
  (amount : pyfloat) (p p' : pydict) :
  has_record_keys p ->
  eb_benefit py_float eb01 eb02 eb03 eb06 eb07 level oon amount p = Ok p' ->
  has_record_keys p'.
Proof.
  intros H. unfold eb_benefit.
  destruct (eb_pct py_float eb07) as [pct|e]; cbn [bind];
    repeat break_if; cbn [bind]; intros E; inversion E; subst; keys_step.
Qed.

Lemma keys_parse_eb (seg : list string) (p p' : pydict) :
  has_record_keys p ->
  _parse_eb_segment py_float seg p = Ok p' ->
  has_record_keys p'.
Proof.
  intros H. unfold _parse_eb_segment. cbv zeta.
  match goal with
  | |- context [bind ?m _] => destruct m as [p2|e] eqn:Hb
  end; cbn [bind]; [|discriminate].
  apply keys_eb_benefit in Hb; [|apply keys_eb_coverage; exact H].
  break_if; intros E; inversion E; subst; keys_step.
Qed.

Lemma keys_finalize_status (now : instant) (p : pydict) :
  has_record_keys p -> has_record_keys (finalize_status strptime_Ymd now p).
Proof.
  intros H. unfold finalize_status.
  destruct (val_truthy (item "term_date" p)); [|exact H].
  destruct (strptime_Ymd (as_str (item "term_date" p))); [|exact H].
  repeat break_if; keys_step.
Qed.

Lemma keys_finalize_copay (p : pydict) :
  has_record_keys p -> has_record_keys (finalize_copay p).
Proof.
  intros H. unfold finalize_copay. cbv zeta.
  break_if; [|exact H].
  assert (H1 : has_record_keys
                 match find (fun key => dict_mem key (sub_dict "copays" p))
                            ["copay_96"; "copay_UC"; "copay_30"] with
                 | Some key => dict_set "copay"
                                 (item key (sub_dict "copays" p)) p
                 | None => p
                 end).
  { destruct (find _ _); keys_step. }
  break_if; [|exact H1].
  destruct (map snd (sub_dict "copays" p)); keys_step.
Qed.

Lemma keys_format_date_field (f : string) (p : pydict) :
  has_record_keys p -> has_record_keys (format_date_field f p).
Proof. intros H. unfold format_date_field. cbv zeta. break_if; keys_step. Qed.

Lemma keys_finalize (now : instant) (p : pydict) :
  has_record_keys p -> has_record_keys (_finalize_patient strptime_Ymd now p).
Proof.
  intros H. unfold _finalize_patient. cbn [fold_left].
  repeat apply keys_format_date_field.
  apply keys_finalize_copay, keys_finalize_status, H.
Qed.

Lemma store_has_keys_set (h : store) (l : nat) (x : pydict) :
  store_has_keys h ->
  (has_record_keys (store_get h l) -> has_record_keys x) ->
  store_has_keys (store_set h l x).
Proof.
  unfold store_has_keys, store_get. revert l.
  induction h as [|y h IH]; intros l Hh Hx; simpl; [constructor|].
  inversion Hh as [|? ? Hy Hrest]; subst.
  destruct l as [|l]; simpl in *; constructor; auto.
Qed.

Lemma store_has_keys_get (h : store) (l : nat) :
  store_has_keys h -> l < List.length h -> has_record_keys (store_get h l).
Proof.
  unfold store_has_keys, store_get. intros Hh Hl.
  rewrite Forall_forall in Hh. apply Hh. apply nth_In. exact Hl.
Qed.

Lemma on_patient_has_keys (f : pydict -> pydict) (st : wstate) :
  (forall p, has_record_keys p -> has_record_keys (f p)) ->
  store_has_keys (heap st) ->
  store_has_keys (heap (on_patient f st)).
Proof.
  intros Hf Hh. unfold on_patient.
  destruct (current_patient st) as [l|]; cbn [heap]; [|exact Hh].
  apply store_has_keys_set; auto.
Qed.

Lemma step_has_keys (filepath : string) (st st' : wstate) (seg : list string) :
  step py_float filepath st seg = Ok st' ->
  store_has_keys (heap st) ->
  store_has_keys (heap st').
Proof.
  intros Hs Hh. revert Hs. unfold step.
  repeat (break_if;
          try (intros Hs; inversion Hs; subst;
               first [ exact Hh
                     | apply on_patient_has_keys; [|exact Hh];
                       intros p Hp;
                       first [ apply keys_add_message; exact Hp
                             | keys_step ] ])).
  - (* HL*22 *)
    intros Hs; inversion Hs; subst. unfold open_subscriber. cbn [heap].
    apply Forall_app. split; [exact Hh|]. constructor; [|constructor].
    pose proof (keys_new filepath). keys_step.
  - (* EB *)
    destruct (current_patient st) as [l|] eqn:Ecur.
    + destruct (_parse_eb_segment py_float seg (store_get (heap st) l))
        as [p'|e] eqn:Hp; cbn [bind]; [|discriminate].
      intros Hs; inversion Hs; subst.
      unfold on_patient. rewrite Ecur. cbn [heap].
      apply store_has_keys_set; [exact Hh|].
      intros Hk. eapply keys_parse_eb; eauto.
    + intros Hs; inversion Hs; subst. exact Hh.
Qed.

Lemma walk_has_keys (filepath : string) (segments : list (list string)) :
  forall st st',
    walk py_float filepath st segments = Ok st' ->
    store_has_keys (heap st) ->
    store_has_keys (heap st').
Proof.
  induction segments as [|seg rest IH]; intros st st' Hw Hh; simpl in Hw.
  - inversion Hw; subst. exact Hh.
  - destruct (step py_float filepath st seg) as [st1|e] eqn:Hs;
      cbn [bind] in Hw; [|discriminate].
    eapply IH; [exact Hw|]. eapply step_has_keys; eauto.
Qed.

Lemma finalize_all_has_keys (clock : nat -> instant) (refs : list nat) :
  forall i h,
    store_has_keys h ->
    store_has_keys (finalize_all strptime_Ymd clock i refs h).
Proof.
  induction refs as [|l refs IH]; intros i h Hh; simpl; [exact Hh|].
  apply IH. apply store_has_keys_set; [exact Hh|]. apply keys_finalize.
Qed.

(** X8.  Every record that [_walk_segments] returns has all the keys a
    record is created with; no step and no finalization removes one, so
    subscripting a returned record by such a key cannot fail. *)
Theorem returned_records_have_all_keys (clock : nat -> instant)
  (segments : list (list string)) (filepath : string)
  (out : store * list nat) (p : pydict) :
  _walk_segments py_float strptime_Ymd clock segments filepath = Ok out ->
  In p (records out) ->
  has_record_keys p.
Proof.
  unfold _walk_segments.
  destruct (walk py_float filepath initial segments) as [st|e] eqn:Hw;
    cbn [bind]; [|discriminate].
  intros H; inversion H; subst out. unfold records. cbn [fst snd].
  intros Hp. apply in_map_iff in Hp. destruct Hp as (l & <- & Hl).
  destruct (walk_allocates py_float filepath segments initial st 0 Hw)
    as [H1 H2]; [reflexivity | reflexivity |].
  apply store_has_keys_get.
  - apply finalize_all_has_keys.
    eapply walk_has_keys; [exact Hw | constructor].
  - rewrite finalize_all_length, H1. rewrite H2 in Hl.
    apply in_seq in Hl. lia.
Qed.

End RecordKeys.


(** ** Worked inputs *)

Section MoreExamples.
Import DenialsDbLoader RealtimeEligibility.

Lemma loader_one_record_per_clp_witness :
  exists recs,
    parse_835_file decimal_float example_two_claims None = Ok recs
    /\ List.length recs = 2
    /\ List.length recs
       = List.length (filter is_clp (segments_of example_two_claims)).
Proof.
  eexists. split; [reflexivity|]. split; [reflexivity|].
  apply (loader_one_record_per_clp decimal_float example_two_claims None).
  reflexivity.
Defined.

Lemma walker_raises_only_overflow_witness :
  _walk_segments decimal_or_inf_float ymd8 (fun _ => noon_2024)
                 segments_infinite_coinsurance "f.edi"
  = Raise OverflowError
  /\ (OverflowError = OverflowError
      /\ exists seg negative,
           In seg segments_infinite_coinsurance
           /\ nth 0 seg "" = "EB" /\ _elem seg 1 = "A"
           /\ decimal_or_inf_float (_elem seg 7) = Some (FInf negative)).
Proof.
  split; [reflexivity|].
  apply (walker_raises_only_overflow decimal_or_inf_float ymd8
           (fun _ => noon_2024) segments_infinite_coinsurance "f.edi").
  reflexivity.
Defined.

Lemma tokenizer_segments_are_clean_witness :
  In ["EB"; "6"] (_tokenize example_271_inactive)
  /\ (["EB"; "6"] <> [] /\ ["EB"; "6"] <> [""]
      /\ forall x, In x ["EB"; "6"] -> clean_element x).
Proof.
  assert (H : In ["EB"; "6"] (_tokenize example_271_inactive))
    by (vm_compute; tauto).
  split; [exact H|].
  exact (tokenizer_segments_are_clean example_271_inactive ["EB"; "6"] H).
Defined.

Lemma returned_records_have_all_keys_witness :
  exists out p,
    _walk_segments decimal_float ymd8 (fun _ => noon_2024)
                   (_tokenize example_271_inactive) "f.edi" = Ok out
    /\ In p (records out)
    /\ has_record_keys p.
Proof.
  eexists. eexists.
  assert (Hw : forall out,
             _walk_segments decimal_float ymd8 (fun _ => noon_2024)
                            (_tokenize example_271_inactive) "f.edi" = Ok out ->
             _walk_segments decimal_float ymd8 (fun _ => noon_2024)
                            (_tokenize example_271_inactive) "f.edi" = Ok out)
    by auto.
  split; [vm_compute; reflexivity|].
  split; [left; reflexivity|].
  eapply (returned_records_have_all_keys decimal_float ymd8
            (fun _ => noon_2024) (_tokenize example_271_inactive) "f.edi");
    [vm_compute; reflexivity | left; reflexivity].
Defined.

End MoreExamples.

(** ** Deduplication: order, details and merged values *)

Section DedupMore.
Import EtlEngine.

Lemma subsequence_snoc_keep {A : Type} (a b : list A) (x : A) :
  subsequence a b -> subsequence (a ++ [x]) (b ++ [x]).
Proof.
  induction 1; simpl.
  - apply subsequence_keep, subsequence_nil.
  - apply subsequence_keep. assumption.
  - apply subsequence_drop. assumption.
Qed.

Lemma subsequence_snoc_drop {A : Type} (a b : list A) (x : A) :
  subsequence a b -> subsequence a (b ++ [x]).
Proof.
  induction 1; simpl.
  - apply subsequence_drop, subsequence_nil.
  - apply subsequence_keep. assumption.
  - apply subsequence_drop. assumption.
Qed.

Lemma step_subsequence (st : dstate) (done : list nat) (p : nat) :
  subsequence (deduplicated st) done ->
  subsequence (deduplicated (step st p)) (done ++ [p]).
Proof.
  intros H. unfold step.
  destruct (no_key (build_dedup_key (store_get (heap st) p)));
    [apply subsequence_snoc_keep; exact H|].
  destruct (dict_get (build_dedup_key (store_get (heap st) p)) (seen st));
    cbn [deduplicated].
  - apply subsequence_snoc_drop. exact H.
  - apply subsequence_snoc_keep. exact H.
Qed.

Lemma fold_step_subsequence (refs : list nat) :
  forall st done,
    subsequence (deduplicated st) done ->
    subsequence (deduplicated (fold_left step refs st)) (done ++ refs).
Proof.
  induction refs as [|p refs IH]; intros st done H; simpl.
  - rewrite app_nil_r. exact H.
  - replace (done ++ p :: refs)%list with ((done ++ [p]) ++ refs)%list
      by (rewrite <- app_assoc; reflexivity).
    apply IH, step_subsequence, H.
Qed.

(** X9.  The rows [deduplicate_patients] keeps are rows of the input, in
    the order of the input: it leaves rows out and never reorders or adds
    one. *)
Theorem dedup_keeps_input_order (h : store) (refs : list nat) :
  subsequence (deduplicated (deduplicate_patients h refs)) refs.
Proof.
  unfold deduplicate_patients.
  apply (fold_step_subsequence refs (mkD h [] [] 0 []) []).
  apply subsequence_nil.
Qed.

Lemma dict_mem_set_same {V : Type} (k : string) (v : V) (d : list (string * V)) :
  dict_mem k (dict_set k v d) = true.
Proof.
  induction d as [|[k' v'] d IH]; simpl.
  - rewrite eqs_refl. reflexivity.
  - destruct (eqs k k') eqn:E; simpl; rewrite E; [reflexivity | exact IH].
Qed.

Lemma step_details (st : dstate) (p : nat) :
  List.length (duplicate_details st) = duplicate_count st ->
  Forall (fun d => dict_mem (patient_key d) (seen st) = true)
         (duplicate_details st) ->
  List.length (duplicate_details (step st p)) = duplicate_count (step st p)
  /\ Forall (fun d => dict_mem (patient_key d) (seen (step st p)) = true)
            (duplicate_details (step st p)).
Proof.
  intros Hc Hk. unfold step.
  destruct (no_key (build_dedup_key (store_get (heap st) p)));
    [split; assumption|].
  destruct (dict_get (build_dedup_key (store_get (heap st) p)) (seen st))
    as [o|] eqn:Es; cbn [duplicate_details duplicate_count seen].
  - split.
    + rewrite length_app, Hc. reflexivity.
    + apply Forall_app. split; [exact Hk|].
      constructor; [|constructor]. cbn [patient_key].
      apply dict_mem_get. eauto.
  - split; [exact Hc|].
    eapply Forall_impl; [|exact Hk]. intros d Hd. cbn beta in *.
    apply dict_mem_set. exact Hd.
Qed.

Lemma fold_step_details (refs : list nat) :
  forall st,
    List.length (duplicate_details st) = duplicate_count st ->
    Forall (fun d => dict_mem (patient_key d) (seen st) = true)
           (duplicate_details st) ->
    List.length (duplicate_details (fold_left step refs st))
    = duplicate_count (fold_left step refs st)
    /\ Forall (fun d => dict_mem (patient_key d)
                                 (seen (fold_left step refs st)) = true)
              (duplicate_details (fold_left step refs st)).
Proof.
  induction refs as [|p refs IH]; intros st Hc Hk; simpl.
  - split; assumption.
  - destruct (step_details st p Hc Hk) as [H1 H2]. apply IH; assumption.
Qed.

(** X10.  [deduplicate_patients] writes one duplicate detail for each
    duplicate it counts, and the key of every detail is the key of a row
    that was kept as the first with that key. *)
Theorem dedup_details_match_count (h : store) (refs : list nat) :
  List.length (duplicate_details (deduplicate_patients h refs))
  = duplicate_count (deduplicate_patients h refs)
  /\ forall d,
       In d (duplicate_details (deduplicate_patients h refs)) ->
       exists o,
         dict_get (patient_key d) (seen (deduplicate_patients h refs)) = Some o.
Proof.
  unfold deduplicate_patients.
  destruct (fold_step_details refs (mkD h [] [] 0 [])) as [H1 H2];
    [reflexivity | constructor |].
  split; [exact H1|].
  intros d Hd. rewrite Forall_forall in H2. apply dict_mem_get, H2, Hd.
Qed.

(** *** Values that are never overwritten *)

Lemma merge_keeps_value (orig dup : row) (f v : string) :
  dict_get f orig = Some v -> truthy v = true ->
  dict_get f (merge orig dup) = Some v.
Proof.
  intros Hf Hv. rewrite merge_fills. unfold merged_value. rewrite Hf, Hv.
  destruct (dict_mem f dup); reflexivity.
Qed.

Lemma merge_keeps_field (orig dup : row) (f : string) :
  dict_mem f orig = true -> dict_mem f (merge orig dup) = true.
Proof.
  intros H. apply dict_mem_get in H. destruct H as [v Hv].
  apply dict_mem_get. rewrite merge_fills. unfold merged_value. rewrite Hv.
  destruct (dict_mem f dup); [destruct (truthy v)|]; eauto.
Qed.

Lemma step_keeps_values (st : dstate) (p l : nat) (f v : string) :
  dict_get f (store_get (heap st) l) = Some v -> truthy v = true ->
  dict_get f (store_get (heap (step st p)) l) = Some v.
Proof.
  intros Hf Hv. unfold step.
  destruct (no_key (build_dedup_key (store_get (heap st) p))); [exact Hf|].
  destruct (dict_get (build_dedup_key (store_get (heap st) p)) (seen st))
    as [o|]; cbn [heap]; [|exact Hf].
  rewrite etl_store_get_set.
  destruct ((l =? o) && (o <? List.length (heap st))) eqn:E; [|exact Hf].
  apply andb_true_iff in E. destruct E as [E _].
  apply Nat.eqb_eq in E. subst l.
  apply merge_keeps_value; assumption.
Qed.

Lemma step_keeps_fields (st : dstate) (p l : nat) (f : string) :
  dict_mem f (store_get (heap st) l) = true ->
  dict_mem f (store_get (heap (step st p)) l) = true.
Proof.
  intros Hf. unfold step.
  destruct (no_key (build_dedup_key (store_get (heap st) p))); [exact Hf|].
  destruct (dict_get (build_dedup_key (store_get (heap st) p)) (seen st))
    as [o|]; cbn [heap]; [|exact Hf].
  rewrite etl_store_get_set.
  destruct ((l =? o) && (o <? List.length (heap st))) eqn:E; [|exact Hf].
  apply andb_true_iff in E. destruct E as [E _].
  apply Nat.eqb_eq in E. subst l.
  apply merge_keeps_field; assumption.
Qed.

Lemma fold_step_keeps_values (refs : list nat) (l : nat) (f v : string) :
  truthy v = true ->
  forall st,
    dict_get f (store_get (heap st) l) = Some v ->
    dict_get f (store_get (heap (fold_left step refs st)) l) = Some v.
Proof.
  intros Hv. induction refs as [|p refs IH]; intros st Hf; simpl.
  - exact Hf.
  - apply IH. apply step_keeps_values; assumption.
Qed.

Lemma fold_step_keeps_fields (refs : list nat) (l : nat) (f : string) :
  forall st,
    dict_mem f (store_get (heap st) l) = true ->
    dict_mem f (store_get (heap (fold_left step refs st)) l) = true.
Proof.
  induction refs as [|p refs IH]; intros st Hf; simpl.
  - exact Hf.
  - apply IH. apply step_keeps_fields; assumption.
Qed.

(** X11.  A field that a row has is never removed, and a value that is
    not empty is never overwritten: whatever rows are merged into it, the
    row still has the field, with that value. *)
Theorem dedup_never_overwrites (h : store) (refs : list nat) (l : nat)
  (f : string) :
  dict_mem f (store_get h l) = true ->
  dict_mem f (store_get (heap (deduplicate_patients h refs)) l) = true
  /\ forall v,
       dict_get f (store_get h l) = Some v -> truthy v = true ->
       dict_get f (store_get (heap (deduplicate_patients h refs)) l) = Some v.
Proof.
  intros Hm. unfold deduplicate_patients. split.
  - apply fold_step_keeps_fields. exact Hm.
  - intros v Hf Hv. apply fold_step_keeps_values; assumption.
Qed.

End DedupMore.

(** *** A second pass *)

Section DedupTwice.
Import EtlEngine.

Lemma upper_char_pipe (c : ascii) :
  Ascii.eqb (upper_char c) "|" = Ascii.eqb c "|".
Proof. destruct c as [[] [] [] [] [] [] [] []]; reflexivity. Qed.

Lemma has_char_upper_pipe (s : string) :
  has_char "|" (upper s) = has_char "|" s.
Proof.
  induction s as [|c s IH]; simpl; [reflexivity|].
  rewrite upper_char_pipe, IH. reflexivity.
Qed.

Lemma app_sep_inj (x : ascii) (a a' r r' : string) :
  has_char x a = false -> has_char x a' = false ->
  (a ++ String x r)%string = (a' ++ String x r')%string ->
  a = a' /\ r = r'.
Proof.
  revert a'. induction a as [|c a IH]; intros [|c' a'] Ha Ha' E; simpl in *.
  - inversion E. auto.
  - inversion E; subst. rewrite Ascii.eqb_refl in Ha'. discriminate.
  - inversion E; subst. rewrite Ascii.eqb_refl in Ha. discriminate.
  - inversion E; subst.
    apply orb_false_iff in Ha. apply orb_false_iff in Ha'.
    destruct (IH a') as [-> ->]; tauto.
Qed.

Lemma build_dedup_key_fields (r : row) :
  build_dedup_key r
  = (fst (fst (key_fields r)) ++ "|" ++ snd (fst (key_fields r)) ++ "|"
     ++ snd (key_fields r))%string.
Proof. reflexivity. Qed.

Lemma key_fields_key (r r' : row) :
  key_fields r = key_fields r' -> build_dedup_key r = build_dedup_key r'.
Proof. intros H. rewrite !build_dedup_key_fields, H. reflexivity. Qed.

Lemma key_key_fields (r r' : row) :
  pipe_free r -> pipe_free r' ->
  build_dedup_key r = build_dedup_key r' -> key_fields r = key_fields r'.
Proof.
  intros [Hl Hf] [Hl' Hf'] E. unfold build_dedup_key in E. cbv zeta in E.
  unfold key_fields.
  apply app_sep_inj in E;
    try (rewrite has_char_upper_pipe; apply has_char_strip; assumption).
  destruct E as [E1 E].
  apply app_sep_inj in E;
    try (rewrite has_char_upper_pipe; apply has_char_strip; assumption).
  destruct E as [E2 E3]. rewrite E1, E2, E3. reflexivity.
Qed.

Lemma merge_table_get (orig dup : row) (f : string) :
  table_get (merge orig dup) f ""
  = if dict_mem f dup && negb (truthy (table_get orig f ""))
    then table_get dup f "" else table_get orig f "".
Proof.
  unfold table_get at 1. rewrite merge_fills. unfold merged_value, table_get.
  destruct (dict_mem f dup); cbn [andb]; [|reflexivity].
  destruct (dict_get f orig) as [v|]; [destruct (truthy v)|]; reflexivity.
Qed.

Lemma merge_normalized (n : string -> string) (orig dup : row) (f : string) :
  n (table_get dup f "") = n (table_get orig f "") ->
  n (table_get (merge orig dup) f "") = n (table_get orig f "").
Proof.
  intros H. rewrite merge_table_get.
  destruct (dict_mem f dup && negb (truthy (table_get orig f "")));
    [exact H | reflexivity].
Qed.

Lemma merge_key_fields (orig dup : row) :
  key_fields dup = key_fields orig ->
  key_fields (merge orig dup) = key_fields orig.
Proof.
  unfold key_fields. intros H. injection H as H1 H2 H3.
  f_equal; [f_equal|].
  - exact (merge_normalized (fun s => upper (strip s)) orig dup "last_name" H1).
  - exact (merge_normalized (fun s => upper (strip s)) orig dup "first_name" H2).
  - exact (merge_normalized strip orig dup "dob" H3).
Qed.

Lemma dict_get_none_keys {V : Type} (k : string) (d : list (string * V)) :
  dict_get k d = None <-> ~ In k (map fst d).
Proof.
  induction d as [|[k' v] d IH]; simpl; [tauto|].
  destruct (eqs k k') eqn:E.
  - apply eqs_true_iff in E. subst. split; [discriminate | tauto].
  - apply eqs_false_iff in E. rewrite IH. split; [|tauto].
    intros H [H1|H1]; [congruence | tauto].
Qed.

Lemma dict_set_new_keys {V : Type} (k : string) (v : V) (d : list (string * V)) :
  dict_get k d = None ->
  map fst (dict_set k v d) = (map fst d ++ [k])%list.
Proof.
  induction d as [|[k' v'] d IH]; simpl; [reflexivity|].
  destruct (eqs k k'); [discriminate|]. intros H. simpl. rewrite IH; auto.
Qed.

Lemma keys_in_snoc (h : store) (refs : list nat) (p : nat) :
  keys_in h (refs ++ [p])
  = (keys_in h refs ++ (if keyless h p then [] else [key_in h p]))%list.
Proof.
  unfold keys_in. rewrite filter_app, map_app. simpl.
  destruct (keyless h p); reflexivity.
Qed.

Lemma key_inv_step (h : store) (st : dstate) (done : list nat) (p : nat) :
  (forall o, In o done -> pipe_free (store_get h o)) ->
  pipe_free (store_get h p) ->
  key_inv h st done -> key_inv h (step st p) (done ++ [p]).
Proof.
  intros Hdone Hp [J1 J2 J3 J4].
  assert (Hkey : build_dedup_key (store_get (heap st) p) = key_in h p)
    by (apply key_fields_key, J1).
  unfold step. rewrite Hkey.
  destruct (no_key (key_in h p)) eqn:Ek.
  - constructor; cbn [heap seen deduplicated]; auto.
    + intros k o Hk. destruct (J2 k o Hk). split; [apply in_or_app|]; auto.
    + rewrite keys_in_snoc. unfold keyless. rewrite Ek, app_nil_r. exact J3.
  - destruct (dict_get (key_in h p) (seen st)) as [o|] eqn:Es.
    + destruct (J2 _ _ Es) as [Ho Hko].
      constructor; cbn [heap seen deduplicated]; auto.
      * intros l. rewrite etl_store_get_set.
        destruct ((l =? o) && (o <? List.length (heap st))) eqn:E;
          [|apply J1].
        apply andb_true_iff in E. destruct E as [E _].
        apply Nat.eqb_eq in E. subst l.
        rewrite merge_key_fields; [apply J1|].
        rewrite !J1.
        apply key_key_fields; [exact Hp | apply Hdone, Ho | symmetry; exact Hko].
      * intros k o' Hk. destruct (J2 k o' Hk).
        split; [apply in_or_app|]; auto.
    + constructor; cbn [heap seen deduplicated]; auto.
      * intros k o Hk.
        destruct (string_dec k (key_in h p)) as [->|Hd].
        -- rewrite dict_get_set_same in Hk. inversion Hk; subst.
           split; [apply in_or_app; right; left|]; reflexivity.
        -- rewrite dict_get_set_other in Hk by exact Hd.
           destruct (J2 k o Hk). split; [apply in_or_app|]; auto.
      * rewrite keys_in_snoc. unfold keyless. rewrite Ek.
        rewrite dict_set_new_keys by exact Es. rewrite J3. reflexivity.
      * rewrite dict_set_new_keys by exact Es.
        apply NoDup_app; [exact J4 | constructor; [tauto | constructor] |].
        intros k Hin [<-|[]]. apply dict_get_none_keys in Es. tauto.
Qed.

Lemma key_inv_fold (h : store) (refs : list nat) :
  forall st done,
    (forall o, In o (done ++ refs) -> pipe_free (store_get h o)) ->
    key_inv h st done ->
    key_inv h (fold_left step refs st) (done ++ refs).
Proof.
  induction refs as [|p refs IH]; intros st done Hpf H; simpl.
  - rewrite app_nil_r. exact H.
  - replace (done ++ p :: refs)%list with ((done ++ [p]) ++ refs)%list in *
      by (rewrite <- app_assoc; reflexivity).
    apply IH; [exact Hpf|].
    apply key_inv_step; [| |exact H].
    + intros o Ho. apply Hpf. apply in_or_app. left. apply in_or_app. auto.
    + apply Hpf. apply in_or_app. left. apply in_or_app. right. left.
      reflexivity.
Qed.

Lemma key_inv_result (h : store) (refs : list nat) :
  (forall o, In o refs -> pipe_free (store_get h o)) ->
  key_inv h (deduplicate_patients h refs) refs.
Proof.
  intros Hpf. unfold deduplicate_patients.
  apply (key_inv_fold h refs (mkD h [] [] 0 []) []); [exact Hpf|].
  constructor; cbn [heap seen deduplicated]; auto.
  - discriminate.
  - constructor.
Qed.

Lemma keys_in_cons (g : store) (p : nat) (refs : list nat) :
  keys_in g (p :: refs)
  = if no_key (build_dedup_key (store_get g p)) then keys_in g refs
    else build_dedup_key (store_get g p) :: keys_in g refs.
Proof.
  unfold keys_in, keyless, key_in. simpl.
  destruct (no_key (build_dedup_key (store_get g p))); reflexivity.
Qed.

(** A pass over rows whose keys are all different and not yet seen keeps
    every row and changes none. *)
Lemma fold_step_distinct (g : store) (refs : list nat) :
  forall s d c dd,
    NoDup (keys_in g refs) ->
    (forall k, In k (keys_in g refs) -> dict_get k s = None) ->
    exists s',
      fold_left step refs (mkD g s d c dd) = mkD g s' (d ++ refs)%list c dd.
Proof.
  induction refs as [|p refs IH]; intros s d c dd Hnd Hs; simpl.
  - exists s. rewrite app_nil_r. reflexivity.
  - unfold step at 2. cbn [heap seen deduplicated duplicate_count
                             duplicate_details].
    rewrite keys_in_cons in Hnd, Hs.
    destruct (no_key (build_dedup_key (store_get g p))) eqn:Ek.
    + destruct (IH s (d ++ [p])%list c dd Hnd Hs) as [s' E].
      exists s'. rewrite E, <- app_assoc. reflexivity.
    + inversion Hnd as [|? ? Hnot Hnd']; subst.
      rewrite (Hs _ (or_introl eq_refl)).
      destruct (IH (dict_set (build_dedup_key (store_get g p)) p s)
                   (d ++ [p])%list c dd Hnd') as [s' E].
      * intros k Hk. rewrite dict_get_set_other.
        -- apply Hs. right. exact Hk.
        -- intros ->. apply Hnot. exact Hk.
      * exists s'. rewrite E, <- app_assoc. reflexivity.
Qed.

Lemma keys_in_ext (g h : store) (refs : list nat) :
  (forall l, key_in g l = key_in h l) -> keys_in g refs = keys_in h refs.
Proof.
  intros H. unfold keys_in, keyless.
  induction refs as [|p refs IH]; simpl; [reflexivity|].
  rewrite (H p). destruct (no_key (key_in h p)); simpl; rewrite ?IH, ?H;
    reflexivity.
Qed.

(** X12.  When no name of an input row holds the character [|], a second
    pass over the result of [deduplicate_patients] finds nothing: it keeps
    every row, counts no duplicate, writes no detail and changes no row. *)
Theorem dedup_second_pass_finds_nothing (h : store) (refs : list nat) :
  (forall o, In o refs -> pipe_free (store_get h o)) ->
  deduplicated (deduplicate_patients
                  (heap (deduplicate_patients h refs))
                  (deduplicated (deduplicate_patients h refs)))
  = deduplicated (deduplicate_patients h refs)
  /\ duplicate_count (deduplicate_patients
                        (heap (deduplicate_patients h refs))
                        (deduplicated (deduplicate_patients h refs))) = 0
  /\ duplicate_details (deduplicate_patients
                          (heap (deduplicate_patients h refs))
                          (deduplicated (deduplicate_patients h refs))) = []
  /\ heap (deduplicate_patients
             (heap (deduplicate_patients h refs))
             (deduplicated (deduplicate_patients h refs)))
     = heap (deduplicate_patients h refs).
Proof.
  intros Hpf. destruct (key_inv_result h refs Hpf) as [J1 J2 J3 J4].
  set (st := deduplicate_patients h refs) in *.
  assert (Hk : keys_in (heap st) (deduplicated st) = map fst (seen st)).
  { rewrite <- J3. apply keys_in_ext. intros l. apply key_fields_key, J1. }
  change (deduplicate_patients (heap st) (deduplicated st))
    with (fold_left step (deduplicated st) (mkD (heap st) [] [] 0 [])).
  destruct (fold_step_distinct (heap st) (deduplicated st) [] [] 0 [])
    as [s' E].
  - rewrite Hk. exact J4.
  - reflexivity.
  - rewrite E. cbn [heap deduplicated duplicate_count duplicate_details].
    auto.
Qed.

End DedupTwice.

Section DedupMoreExamples.
Import EtlEngine.

(** With a [|] in a name the key of a row can change in a merge, and a
    second pass then finds a duplicate: the third row is merged into the
    second, which thereby gets the key of the first. *)
Lemma second_pass_with_pipe_finds_duplicate :
  deduplicated (deduplicate_patients [row_pipe_1; row_pipe_2; row_pipe_3]
                                     [0; 1; 2]) = [0; 1]
  /\ duplicate_count
       (deduplicate_patients
          (heap (deduplicate_patients [row_pipe_1; row_pipe_2; row_pipe_3]
                                      [0; 1; 2]))
          [0; 1]) = 1.
Proof. split; reflexivity. Qed.

Lemma dedup_never_overwrites_witness :
  dict_mem "patient_id" (store_get [row_doe_epic; row_doe_cerner] 0) = true
  /\ dict_get "patient_id"
       (store_get (heap (deduplicate_patients [row_doe_epic; row_doe_cerner]
                                              [0; 1])) 0)
     = Some "A1".
Proof.
  assert (H : dict_mem "patient_id"
                (store_get [row_doe_epic; row_doe_cerner] 0) = true)
    by reflexivity.
  split; [exact H|].
  apply (proj2 (dedup_never_overwrites [row_doe_epic; row_doe_cerner] [0; 1]
                  0 "patient_id" H));
    reflexivity.
Defined.

Lemma dedup_second_pass_finds_nothing_witness :
  (forall o, In o [0; 1] ->
             pipe_free (store_get [row_doe_epic; row_doe_cerner] o))
  /\ duplicate_count
    (deduplicate_patients
       (heap (deduplicate_patients [row_doe_epic; row_doe_cerner] [0; 1]))
       (deduplicated (deduplicate_patients [row_doe_epic; row_doe_cerner]
                                           [0; 1]))) = 0.
Proof.
  assert (Hpf : forall o, In o [0; 1] ->
                  pipe_free (store_get [row_doe_epic; row_doe_cerner] o)).
  { intros o [<-|[<-|[]]]; split; reflexivity. }
  split; [exact Hpf|].
  exact (proj1 (proj2 (dedup_second_pass_finds_nothing
                         [row_doe_epic; row_doe_cerner] [0; 1] Hpf))).
Defined.

End DedupMoreExamples.

(** ** The generated transaction *)

Section GenerateFacts.
Import EobTo835.

Variable strptime_mdY : string -> option string.
Variable now_HM : nat -> string.

(** The loop body appends the segments of the line and counts each. *)
Lemma emit_service_line_segments (service_date : string)
  (carc_mapping : carc_table) (em : emitter) (svc : service_line) :
  segments (emit_service_line service_date carc_mapping em svc)
  = (segments em ++ service_line_segments service_date svc carc_mapping)%list
  /\ seg_count (emit_service_line service_date carc_mapping em svc)
     = seg_count em
       + List.length (service_line_segments service_date svc carc_mapping).
Proof.
  unfold emit_service_line, service_line_segments, line_co_segment,
    line_pr_segments, emit.
  cbv zeta.
  repeat break_if;
    cbn [segments seg_count]; rewrite <- ?app_assoc; cbn [app];
    rewrite ?length_app; cbn [List.length];
    (split; [reflexivity | lia]).
Qed.

Lemma emit_service_lines_segments (service_date : string)
  (carc_mapping : carc_table) (lines : list service_line) :
  forall em,
    segments (fold_left (emit_service_line service_date carc_mapping) lines em)
    = (segments em
       ++ flat_map (fun svc => service_line_segments service_date svc
                                                     carc_mapping) lines)%list
    /\ seg_count (fold_left (emit_service_line service_date carc_mapping)
                            lines em)
       = seg_count em
         + List.length
             (flat_map (fun svc => service_line_segments service_date svc
                                                         carc_mapping) lines).
Proof.
  induction lines as [|svc lines IH]; intros em; cbn [fold_left flat_map].
  - rewrite app_nil_r. cbn [List.length]. split; [reflexivity | lia].
  - destruct (IH (emit_service_line service_date carc_mapping em svc))
      as [H1 H2].
    destruct (emit_service_line_segments service_date carc_mapping em svc)
      as [H3 H4].
    rewrite H1, H2, H3, H4, length_app, <- app_assoc. split; [reflexivity | lia].
Qed.

(** The shape of the result: the interchange and group headers, the
    transaction-set header with the payment and the parties, the claim,
    and the three trailers, the first of which carries the counter. *)
Lemma generate_835_shape (e : eob) (carc_mapping : carc_table)
  (control_number group_control : nat) :
  exists isa gs parties,
    generate_835 strptime_mdY now_HM e carc_mapping control_number
                 group_control
    = ([isa; gs]
       ++ ([EStr "ST"; EStr "835"; EStr (zfill 4 (str_nat control_number));
            EStr "005010X221A1"] :: parties)
       ++ claim_segments (parse_date_to_edi strptime_mdY (service_from e)) e
                         carc_mapping
       ++ [ [ EStr "SE";
              EStr (str_nat
                      (1 + List.length parties
                       + List.length
                           (claim_segments
                              (parse_date_to_edi strptime_mdY (service_from e))
                              e carc_mapping)
                       + 1));
              EStr (zfill 4 (str_nat control_number)) ];
            [ EStr "GE"; EStr "1"; EStr (str_nat group_control) ];
            [ EStr "IEA"; EStr "1";
              EStr (zfill 9 (str_nat control_number)) ] ])%list
    /\ seg_tag isa = "ISA" /\ seg_tag gs = "GS"
    /\ Forall (fun s => mem (seg_tag s) header_tags = true) parties
    /\ 7 <= List.length parties <= 9.
Proof.
  unfold generate_835, claim_segments. cbv zeta.
  match goal with
  | |- context [fold_left ?f ?l ?em] =>
      destruct (emit_service_lines_segments
                  (parse_date_to_edi strptime_mdY (service_from e))
                  carc_mapping l em) as [H1 H2]
  end.
  rewrite H1, H2. clear H1 H2.
  destruct (truthy (provider_address_line e));
    [destruct (truthy (provider_city e) && truthy (provider_state e))|];
    cbn [emit segments seg_count app List.length];
    do 2 eexists;
    [ eexists [ _; _; _; _; _; _; _; _; _ ]
    | eexists [ _; _; _; _; _; _; _; _ ]
    | eexists [ _; _; _; _; _; _; _ ] ];
    (split; [cbn [app List.length]; rewrite <- ?app_assoc; cbn [app];
             repeat f_equal; lia |]);
    (split; [reflexivity|]); (split; [reflexivity|]);
    (split; [repeat constructor | cbn [List.length]; lia]).
Qed.

Lemma firstn_length_app {A : Type} (l l' : list A) :
  firstn (List.length l) (l ++ l') = l.
Proof.
  rewrite firstn_app, firstn_all, Nat.sub_diag. cbn [firstn].
  apply app_nil_r.
Qed.

Lemma transaction_set_between (isa gs : segment) (mid : list segment)
  (se ge iea : segment) :
  transaction_set ([isa; gs] ++ mid ++ [se; ge; iea]) = (mid ++ [se])%list
  /\ se_segment ([isa; gs] ++ mid ++ [se; ge; iea]) = se.
Proof.
  unfold transaction_set, se_segment. split.
  - replace (List.length ([isa; gs] ++ mid ++ [se; ge; iea]) - 4)
      with (List.length (mid ++ [se]))
      by (cbn [app List.length]; rewrite !length_app; cbn [List.length]; lia).
    cbn [app skipn].
    replace (mid ++ [se; ge; iea])%list with ((mid ++ [se]) ++ [ge; iea])%list
      by (rewrite <- app_assoc; reflexivity).
    apply firstn_length_app.
  - replace (List.length ([isa; gs] ++ mid ++ [se; ge; iea]) - 3)
      with (List.length ([isa; gs] ++ mid))
      by (cbn [app List.length]; rewrite !length_app; cbn [List.length]; lia).
    rewrite app_assoc. apply nth_middle.
Qed.

Lemma se_count_between (out : list segment) (isa gs st se : segment)
  (mid : list segment) (n : nat) (st_control : string) (ge iea : segment) :
  out = ([isa; gs] ++ (st :: mid) ++ [se; ge; iea])%list ->
  se = [EStr "SE"; EStr (str_nat n); EStr st_control] ->
  n = List.length mid + 2 ->
  se_segment out
  = [ EStr "SE"; EStr (str_nat (List.length (transaction_set out)));
      EStr st_control ]
  /\ hd [] (transaction_set out) = st
  /\ last (transaction_set out) [] = se_segment out.
Proof.
  intros Hout Hse Hn. subst out.
  destruct (transaction_set_between isa gs (st :: mid) se ge iea) as [H1 H2].
  rewrite H1, H2. split; [|split].
  - etransitivity; [exact Hse|]. repeat f_equal. subst n.
    cbn [app List.length]. rewrite length_app. cbn [List.length]. lia.
  - reflexivity.
  - apply (last_last (st :: mid)).
Qed.


Lemma adjustment_total_no_cas (segs : list segment) :
  Forall (fun s => eqs (seg_tag s) "CAS" = false) segs ->
  (adjustment_total segs == 0)%Q.
Proof.
  induction 1 as [|s segs Hs _ IH]; [reflexivity|].
  unfold adjustment_total in *. cbn [map Qsum fold_right].
  fold (Qsum (map cas_amount segs)). rewrite IH.
  unfold cas_amount. rewrite Hs. reflexivity.
Qed.

Lemma adjustment_total_wrapped (header claim trailer : list segment) :
  Forall (fun s => eqs (seg_tag s) "CAS" = false) header ->
  Forall (fun s => eqs (seg_tag s) "CAS" = false) trailer ->
  (adjustment_total (header ++ claim ++ trailer) == adjustment_total claim)%Q.
Proof.
  intros Hh Ht. rewrite !adjustment_total_app.
  rewrite (adjustment_total_no_cas header Hh).
  rewrite (adjustment_total_no_cas trailer Ht). ring.
Qed.

Lemma find_clp_skip (head rest : list segment) :
  Forall (fun s => eqs (seg_tag s) "CLP" = false) head ->
  find (fun s => eqs (seg_tag s) "CLP") (head ++ rest)
  = find (fun s => eqs (seg_tag s) "CLP") rest.
Proof.
  induction 1 as [|s head Hs _ IH]; [reflexivity|].
  simpl. rewrite Hs. exact IH.
Qed.

Lemma claim_amounts_wrapped (header rest : list segment) :
  Forall (fun s => eqs (seg_tag s) "CLP" = false) header ->
  claim_billed (header ++ rest) = claim_billed rest
  /\ claim_paid (header ++ rest) = claim_paid rest.
Proof.
  intros H. unfold claim_billed, claim_paid. rewrite (find_clp_skip _ _ H).
  split; reflexivity.
Qed.

Lemma header_tag_not (t : string) (s : segment) :
  mem t header_tags = false ->
  mem (seg_tag s) header_tags = true -> eqs (seg_tag s) t = false.
Proof.
  intros Ht Hs. apply eqs_false_iff. intros E. rewrite E in Hs. congruence.
Qed.


End GenerateFacts.

(** ** The tracker and the collected codes *)

Section TrackerFacts.
Import EobTo835.

Lemma dict_get_update_same {V : Type} (k : string) (f : V -> V)
  (d : list (string * V)) :
  dict_get k (dict_update k f d) = option_map f (dict_get k d).
Proof.
  induction d as [|[k' v] d IH]; simpl; [reflexivity|].
  destruct (eqs k k') eqn:E; simpl; rewrite E; [reflexivity | exact IH].
Qed.

Lemma dict_get_update_other {V : Type} (k k2 : string) (f : V -> V)
  (d : list (string * V)) :
  k2 <> k -> dict_get k2 (dict_update k f d) = dict_get k2 d.
Proof.
  intros Hne. induction d as [|[k' v] d IH]; simpl; [reflexivity|].
  destruct (eqs k k') eqn:E; simpl.
  - apply eqs_true_iff in E. subst k'.
    apply eqs_false_iff in Hne. rewrite Hne. reflexivity.
  - destruct (eqs k2 k'); [reflexivity | exact IH].
Qed.

Lemma dict_get_app_new {V : Type} (k k2 : string) (v : V)
  (d : list (string * V)) :
  dict_get k2 (d ++ [(k, v)])
  = match dict_get k2 d with
    | Some x => Some x
    | None => if eqs k2 k then Some v else None
    end.
Proof.
  induction d as [|[k' v'] d IH]; simpl; [reflexivity|].
  destruct (eqs k2 k'); [reflexivity | exact IH].
Qed.

(** What one call does to the entry of each practice type. *)
Lemma record_practice_result_get (t : totals) (k k2 : string) (ok : bool) :
  dict_get k2 (record_practice_result t k ok)
  = if eqs k2 k then
      let x := match dict_get k t with
               | Some x => x
               | None => mkTotal 0 0 0
               end in
      Some (mkTotal (processed x + 1)
                    (success x + (if ok then 1 else 0))
                    (fail x + (if ok then 0 else 1)))
    else dict_get k2 t.
Proof.
  unfold record_practice_result. cbv zeta.
  destruct (eqs k2 k) eqn:E.
  - apply eqs_true_iff in E. subst k2.
    destruct ok; rewrite !dict_get_update_same;
      destruct (dict_mem k t) eqn:Em; cbn [negb].
    + apply dict_mem_get in Em. destruct Em as [x Hx]. rewrite Hx.
      cbn. rewrite !Nat.add_0_r. reflexivity.
    + apply dict_mem_false_get in Em. rewrite dict_get_app_new, Em, eqs_refl.
      reflexivity.
    + apply dict_mem_get in Em. destruct Em as [x Hx]. rewrite Hx.
      cbn. rewrite !Nat.add_0_r. reflexivity.
    + apply dict_mem_false_get in Em. rewrite dict_get_app_new, Em, eqs_refl.
      reflexivity.
  - assert (Hne : k2 <> k) by (apply eqs_false_iff; exact E).
    destruct ok; rewrite !dict_get_update_other by exact Hne;
      destruct (dict_mem k t); cbn [negb]; try reflexivity;
      rewrite dict_get_app_new, E; destruct (dict_get k2 t); reflexivity.
Qed.

Lemma calls_of_snoc (pt : string) (calls : list (string * bool))
  (c : string * bool) :
  calls_of pt (calls ++ [c])
  = (calls_of pt calls ++ (if eqs (fst c) pt then [snd c] else []))%list.
Proof.
  unfold calls_of. rewrite filter_app, map_app. simpl.
  destruct (eqs (fst c) pt); reflexivity.
Qed.

(** X15.  After any sequence of calls of [record_practice_result] on a
    fresh tracker, the entry of a practice type counts the calls for it:
    [processed] all of them, [success] the successful and [fail] the failed
    ones, so [processed] is their sum; a practice type without a call has
    no entry. *)
Theorem practice_totals_count_calls (calls : list (string * bool))
  (practice_type : string) :
  match dict_get practice_type (totals_after calls) with
  | Some x =>
      processed x = List.length (calls_of practice_type calls)
      /\ success x
         = List.length (filter (fun ok => ok) (calls_of practice_type calls))
      /\ fail x
         = List.length (filter negb (calls_of practice_type calls))
      /\ processed x = success x + fail x
      /\ 0 < processed x
  | None => calls_of practice_type calls = []
  end.
Proof.
  induction calls as [|[k ok] calls IH] using rev_ind; [reflexivity|].
  unfold totals_after in *. rewrite fold_left_app. cbn [fold_left fst snd].
  rewrite record_practice_result_get, calls_of_snoc. cbn [fst snd].
  destruct (eqs practice_type k) eqn:E.
  - apply eqs_true_iff in E. subst k. rewrite eqs_refl.
    cbv zeta.
    destruct (dict_get practice_type
                (fold_left (fun t c => record_practice_result t (fst c) (snd c))
                           calls [])) as [x|].
    + destruct IH as (H1 & H2 & H3 & H4 & H5).
      cbn [processed success fail].
      rewrite !filter_app, !length_app, <- H1, <- H2, <- H3.
      destruct ok; cbn [filter negb List.length]; lia.
    + rewrite IH. cbn [processed success fail app].
      destruct ok; cbn [filter negb List.length]; lia.
  - assert (E' : eqs k practice_type = false).
    { apply eqs_false_iff. apply eqs_false_iff in E. congruence. }
    rewrite E', app_nil_r. exact IH.
Qed.

(** What one call does to the entry of each code. *)
Lemma record_carc_mapping_get (u : usage) (oc od mc md k : string) :
  dict_get k (record_carc_mapping u oc od mc md)
  = if eqs k oc then
      match dict_get oc u with
      | Some x => Some (mkUsage (original_description x) (mapped_code x)
                                (mapped_description x) (count x + 1))
      | None => Some (mkUsage od mc md 1)
      end
    else dict_get k u.
Proof.
  unfold record_carc_mapping. cbv zeta.
  destruct (eqs k oc) eqn:E.
  - apply eqs_true_iff in E. subst k. rewrite dict_get_update_same.
    destruct (dict_mem oc u) eqn:Em; cbn [negb].
    + apply dict_mem_get in Em. destruct Em as [x Hx]. rewrite Hx.
      reflexivity.
    + apply dict_mem_false_get in Em. rewrite dict_get_app_new, Em, eqs_refl.
      reflexivity.
  - assert (Hne : k <> oc) by (apply eqs_false_iff; exact E).
    rewrite dict_get_update_other by exact Hne.
    destruct (dict_mem oc u); cbn [negb]; [reflexivity|].
    rewrite dict_get_app_new, E. destruct (dict_get k u); reflexivity.
Qed.

Lemma calls_for_snoc (code : string) (calls : list mapping_call)
  (c : mapping_call) :
  calls_for code (calls ++ [c])
  = (calls_for code calls ++ (if eqs (call_code c) code then [c] else []))%list.
Proof.
  unfold calls_for. rewrite filter_app. simpl.
  destruct (eqs (call_code c) code); reflexivity.
Qed.

(** X16.  After any sequence of calls of [record_carc_mapping] on a fresh
    tracker, the entry of a code counts the calls for that code and holds
    the descriptions and the mapped code of the first of them: later
    calls never change them.  A code without a call has no entry. *)
Theorem usage_counts_calls_and_keeps_first (calls : list mapping_call)
  (code : string) :
  match dict_get code (usage_after calls), calls_for code calls with
  | Some x, first :: rest =>
      count x = List.length (first :: rest)
      /\ original_description x = call_desc first
      /\ mapped_code x = call_mapped first
      /\ mapped_description x = call_mapped_desc first
  | None, [] => True
  | _, _ => False
  end.
Proof.
  induction calls as [|c calls IH] using rev_ind; [exact I|].
  unfold usage_after in *. rewrite fold_left_app. cbn [fold_left].
  rewrite record_carc_mapping_get, calls_for_snoc.
  destruct (eqs code (call_code c)) eqn:E.
  - apply eqs_true_iff in E. subst code. rewrite eqs_refl.
    destruct (dict_get (call_code c)
                (fold_left
                   (fun u c0 => record_carc_mapping u (call_code c0)
                                  (call_desc c0) (call_mapped c0)
                                  (call_mapped_desc c0)) calls []))
      as [x|];
      destruct (calls_for (call_code c) calls) as [|first rest];
      try contradiction.
    + destruct IH as (H1 & H2 & H3 & H4).
      cbn [count original_description mapped_code mapped_description app].
      cbn [List.length] in *. rewrite length_app. cbn [List.length].
      repeat split; auto; lia.
    + cbn. auto.
  - assert (E' : eqs (call_code c) code = false).
    { apply eqs_false_iff. apply eqs_false_iff in E. congruence. }
    rewrite E', app_nil_r. exact IH.
Qed.

(** *** The remapper *)

Lemma lstrip_rstrip_fixed (s : string) :
  lstrip s = s -> lstrip (rstrip s) = rstrip s.
Proof.
  destruct s as [|c s]; [reflexivity|]. simpl.
  destruct (is_space c) eqn:Ec.
  - intros H. exfalso.
    assert (Hl : forall t, String.length (lstrip t) <= String.length t).
    { induction t as [|d t IHt]; simpl; [lia|].
      destruct (is_space d); simpl; lia. }
    specialize (Hl s). rewrite H in Hl. simpl in Hl. lia.
  - intros _. destruct (rstrip s); simpl; rewrite Ec; reflexivity.
Qed.

Lemma lstrip_idempotent (s : string) : lstrip (lstrip s) = lstrip s.
Proof.
  induction s as [|c s IH]; [reflexivity|]. simpl.
  destruct (is_space c) eqn:Ec; [exact IH|]. simpl. rewrite Ec. reflexivity.
Qed.

Lemma rstrip_idempotent (s : string) : rstrip (rstrip s) = rstrip s.
Proof.
  induction s as [|c s IH]; [reflexivity|]. simpl.
  destruct (rstrip s) as [|d r] eqn:Er.
  - destruct (is_space c) eqn:Ec; [reflexivity|]. simpl. rewrite Ec.
    reflexivity.
  - change (rstrip (String c (String d r)) = String c (String d r)).
    simpl in IH |- *.
    destruct (match rstrip r with
              | "" => if is_space d then "" else String d ""
              | String a s0 => String d (String a s0)
              end) eqn:E; [discriminate|].
    rewrite IH. reflexivity.
Qed.

Lemma strip_idempotent (s : string) : strip (strip s) = strip s.
Proof.
  unfold strip.
  rewrite (lstrip_rstrip_fixed (lstrip s) (lstrip_idempotent s)).
  apply rstrip_idempotent.
Qed.

Lemma map_carc_code_strip (code : string) (mapping : carc_table) :
  map_carc_code (strip code) mapping = map_carc_code code mapping.
Proof. unfold map_carc_code. rewrite strip_idempotent. reflexivity. Qed.

Lemma closed_mapping_get (mapping : carc_table) (k : string) (e : carc_entry) :
  closed_mapping mapping ->
  dict_get k mapping = Some e ->
  dict_get (standard_code e) mapping = None
  /\ strip (standard_code e) = standard_code e.
Proof.
  unfold closed_mapping. intros H Hk. rewrite Forall_forall in H.
  assert (Hin : In (fst (k, e), e) mapping \/ exists k', In (k', e) mapping).
  { right. clear H. induction mapping as [|[k' v] m IH]; simpl in *;
      [discriminate|].
    destruct (eqs k k'); [inversion Hk; subst; eauto|].
    destruct (IH Hk) as [k2 H2]. eauto. }
  destruct Hin as [Hin|[k' Hin]]; apply H in Hin; cbn [snd] in Hin;
    destruct Hin as [H1 H2]; (split; [apply dict_mem_false_get|]); assumption.
Qed.

(** X17.  On a mapping table that sends no code to one of its own keys
    and keeps no white space around its standard codes, as the built-in
    table does, [map_carc_code] is idempotent: a code that was mapped is
    left alone when it is mapped again. *)
Theorem map_carc_code_idempotent (mapping : carc_table) (code : string) :
  closed_mapping mapping ->
  map_carc_code (map_carc_code code mapping) mapping
  = map_carc_code code mapping.
Proof.
  intros Hc. unfold map_carc_code at 2 3.
  destruct (dict_get (strip code) mapping) as [e|] eqn:E.
  - destruct (closed_mapping_get mapping _ e Hc E) as [H1 H2].
    unfold map_carc_code. rewrite H2, H1. reflexivity.
  - rewrite map_carc_code_strip. unfold map_carc_code. rewrite E.
    reflexivity.
Qed.

(** *** The codes collected for the conversion log *)

Lemma set_add_in (x y : string) (s : list string) :
  In y (set_add x s) <-> y = x \/ In y s.
Proof.
  unfold set_add. destruct (mem x s) eqn:E.
  - apply mem_true_iff in E. split; [auto|]. intros [->|H]; auto.
  - rewrite in_app_iff. simpl. split; [intros [H|[H|[]]]; auto | ].
    intros [->|H]; auto.
Qed.

Lemma set_add_NoDup (x : string) (s : list string) :
  NoDup s -> NoDup (set_add x s).
Proof.
  intros H. unfold set_add. destruct (mem x s) eqn:E; [exact H|].
  apply mem_false_iff in E.
  apply NoDup_app; [exact H | constructor; [tauto | constructor] |].
  intros y Hy [<-|[]]. contradiction.
Qed.

Lemma collect_codes_flat (e : eob) (m : carc_table) (u : usage) :
  collect_codes e m u
  = fold_left (collect_code e m) (all_adj_codes e) (mkCollect [] [] false u).
Proof.
  unfold collect_codes, all_adj_codes.
  generalize (mkCollect [] [] false u).
  induction (service_lines e) as [|svc lines IH]; intros c; simpl;
    [reflexivity|].
  rewrite fold_left_app. apply IH.
Qed.

Lemma collect_code_sets (e : eob) (m : carc_table) (c : collect)
  (raw : string) :
  all_original_codes (collect_code e m c raw)
  = set_add raw (all_original_codes c)
  /\ all_mapped_codes (collect_code e m c raw)
     = set_add (map_carc_code raw m) (all_mapped_codes c)
  /\ any_remapped (collect_code e m c raw)
     = any_remapped c || negb (eqs (map_carc_code raw m) raw).
Proof.
  unfold collect_code. cbv zeta.
  destruct (eqs (map_carc_code raw m) raw); cbn;
    rewrite ?orb_false_r, ?orb_true_r; auto.
Qed.

Lemma fold_collect_code_sets (e : eob) (m : carc_table) (codes : list string) :
  forall c done,
    (forall x, In x (all_original_codes c) <-> In x done) ->
    (forall x, In x (all_mapped_codes c)
               <-> In x (map (fun raw => map_carc_code raw m) done)) ->
    NoDup (all_original_codes c) ->
    NoDup (all_mapped_codes c) ->
    any_remapped c
    = existsb (fun raw => negb (eqs (map_carc_code raw m) raw)) done ->
    let c' := fold_left (collect_code e m) codes c in
    (forall x, In x (all_original_codes c') <-> In x (done ++ codes))
    /\ (forall x, In x (all_mapped_codes c')
                  <-> In x (map (fun raw => map_carc_code raw m)
                                (done ++ codes)))
    /\ NoDup (all_original_codes c')
    /\ NoDup (all_mapped_codes c')
    /\ any_remapped c'
       = existsb (fun raw => negb (eqs (map_carc_code raw m) raw))
                 (done ++ codes).
Proof.
  induction codes as [|raw codes IH]; intros c done H1 H2 H3 H4 H5; cbv zeta.
  - simpl. rewrite app_nil_r. auto.
  - cbn [fold_left].
    replace (done ++ raw :: codes)%list with ((done ++ [raw]) ++ codes)%list
      by (rewrite <- app_assoc; reflexivity).
    destruct (collect_code_sets e m c raw) as (E1 & E2 & E3).
    apply IH.
    + intros x. rewrite E1, set_add_in, in_app_iff, H1. simpl.
      intuition (subst; auto).
    + intros x. rewrite E2, set_add_in, map_app, in_app_iff, H2. simpl.
      split; [intros [->|H]; auto | intros [H|[H|[]]]; auto].
    + rewrite E1. apply set_add_NoDup, H3.
    + rewrite E2. apply set_add_NoDup, H4.
    + rewrite E3, H5, existsb_app. simpl. rewrite orb_false_r. reflexivity.
Qed.

(** X18.  The code sets that [process_practice_type] collects for the
    conversion log: the original codes are the adjustment codes of the
    service lines, each once; the mapped codes are their images under
    [map_carc_code], each once; and the EOB is flagged as remapped exactly
    when the mapping changes one of its codes. *)
Theorem collected_codes_are_mapped (e : eob) (carc_mapping : carc_table)
  (u : usage) :
  (forall raw, In raw (all_original_codes (collect_codes e carc_mapping u))
               <-> In raw (all_adj_codes e))
  /\ (forall x, In x (all_mapped_codes (collect_codes e carc_mapping u))
                <-> exists raw, In raw (all_adj_codes e)
                                /\ map_carc_code raw carc_mapping = x)
  /\ NoDup (all_original_codes (collect_codes e carc_mapping u))
  /\ NoDup (all_mapped_codes (collect_codes e carc_mapping u))
  /\ (any_remapped (collect_codes e carc_mapping u) = true
      <-> exists raw, In raw (all_adj_codes e)
                      /\ map_carc_code raw carc_mapping <> raw).
Proof.
  rewrite collect_codes_flat.
  assert (H : forall x : string, In x [] <-> In x []) by tauto.
  destruct (fold_collect_code_sets e carc_mapping (all_adj_codes e)
              (mkCollect [] [] false u) [] H H (NoDup_nil _) (NoDup_nil _)
              eq_refl)
    as (H1 & H2 & H3 & H4 & H5).
  cbn [app] in *.
  split; [exact H1|]. split; [|split; [exact H3 | split; [exact H4|]]].
  - intros x. rewrite H2, in_map_iff.
    split; intros (raw & A & B); exists raw; auto.
  - rewrite H5, existsb_exists.
    split; intros (raw & Hr & Hn); exists raw; (split; [exact Hr|]).
    + apply negb_true_iff, eqs_false_iff in Hn. exact Hn.
    + apply negb_true_iff, eqs_false_iff. exact Hn.
Qed.

End TrackerFacts.

Section TrackerExamples.
Import EobTo835.

Lemma map_carc_code_idempotent_witness :
  closed_mapping DEFAULT_CARC_MAPPING
  /\ map_carc_code (map_carc_code " N004 " DEFAULT_CARC_MAPPING)
                   DEFAULT_CARC_MAPPING = "29".
Proof.
  assert (H : closed_mapping DEFAULT_CARC_MAPPING)
    by (repeat constructor).
  split; [exact H|].
  rewrite (map_carc_code_idempotent DEFAULT_CARC_MAPPING " N004 " H).
  reflexivity.
Defined.

End TrackerExamples.

(** ** Standardization of phone numbers, social security numbers, codes
       and names *)

Section StandardizeFacts.
Import EtlEngine.

Lemma space_not_digit (c : ascii) : is_space c = true -> is_digit c = false.
Proof. destruct c as [[] [] [] [] [] [] [] []]; vm_compute; congruence. Qed.

Lemma upper_char_idempotent (c : ascii) :
  upper_char (upper_char c) = upper_char c.
Proof. destruct c as [[] [] [] [] [] [] [] []]; reflexivity. Qed.

Lemma is_space_upper_char (c : ascii) : is_space (upper_char c) = is_space c.
Proof. destruct c as [[] [] [] [] [] [] [] []]; reflexivity. Qed.

Lemma filter_chars_app (f : ascii -> bool) (a b : string) :
  filter_chars f (a ++ b) = (filter_chars f a ++ filter_chars f b)%string.
Proof.
  induction a as [|c a IH]; simpl; [reflexivity|].
  destruct (f c); simpl; rewrite IH; reflexivity.
Qed.

Lemma all_chars_filter (f : ascii -> bool) (s : string) :
  all_chars f (filter_chars f s) = true.
Proof.
  induction s as [|c s IH]; simpl; [reflexivity|].
  destruct (f c) eqn:E; simpl; rewrite ?E; exact IH.
Qed.

Lemma filter_chars_all (f : ascii -> bool) (s : string) :
  all_chars f s = true -> filter_chars f s = s.
Proof.
  induction s as [|c s IH]; simpl; [reflexivity|].
  intros H. apply andb_true_iff in H. destruct H as [Hc Hs].
  rewrite Hc, IH; auto.
Qed.

Lemma all_chars_substring (f : ascii -> bool) (s : string) :
  all_chars f s = true ->
  forall n m, all_chars f (substring n m s) = true.
Proof.
  induction s as [|c s IH]; intros H n m.
  - destruct n, m; reflexivity.
  - simpl in H. apply andb_true_iff in H. destruct H as [Hc Hs].
    destruct n as [|n]; destruct m as [|m]; simpl; auto.
    rewrite Hc. simpl. auto.
Qed.

Lemma all_chars_drop_first (f : ascii -> bool) (s : string) :
  all_chars f s = true -> all_chars f (drop_first s) = true.
Proof.
  destruct s as [|c s]; simpl; [auto|].
  intros H. apply andb_true_iff in H. tauto.
Qed.

Lemma digits_only_lstrip (s : string) :
  digits_only (lstrip s) = digits_only s.
Proof.
  unfold digits_only. induction s as [|c s IH]; simpl; [reflexivity|].
  destruct (is_space c) eqn:E; [|reflexivity].
  rewrite (space_not_digit c E). exact IH.
Qed.

Lemma digits_only_rstrip (s : string) :
  digits_only (rstrip s) = digits_only s.
Proof.
  unfold digits_only. induction s as [|c s IH]; simpl; [reflexivity|].
  destruct (rstrip s) as [|d r] eqn:Er.
  - destruct (is_space c) eqn:E.
    + rewrite (space_not_digit c E). simpl in IH. exact IH.
    + simpl. rewrite <- IH. reflexivity.
  - change (filter_chars is_digit (String c (String d r))
            = if is_digit c then String c (filter_chars is_digit s)
              else filter_chars is_digit s).
    rewrite <- IH. reflexivity.
Qed.

Lemma digits_only_strip (s : string) : digits_only (strip s) = digits_only s.
Proof. unfold strip. rewrite digits_only_rstrip. apply digits_only_lstrip. Qed.

Lemma digits_only_digits (s : string) :
  all_chars is_digit s = true -> digits_only s = s.
Proof. apply filter_chars_all. Qed.

(** The text that [standardize_phone] prints for ten digits. *)
Lemma phone_format_digits (d : string) :
  all_chars is_digit d = true -> String.length d = 10 ->
  digits_only ("(" ++ substring 0 3 d ++ ") " ++ substring 3 3 d ++ "-"
               ++ substring 6 4 d)
  = d.
Proof.
  intros Hd Hl. unfold digits_only.
  change ("(" ++ substring 0 3 d ++ ") " ++ substring 3 3 d ++ "-"
          ++ substring 6 4 d)%string
    with ("(" ++ (substring 0 3 d ++ (") " ++ (substring 3 3 d ++ ("-"
          ++ substring 6 4 d)))))%string.
  rewrite !filter_chars_app.
  rewrite !(filter_chars_all is_digit (substring _ _ d))
    by (apply all_chars_substring; exact Hd).
  change (filter_chars is_digit "(") with "".
  change (filter_chars is_digit ") ") with "".
  change (filter_chars is_digit "-") with "".
  do 11 (destruct d as [|? d]; try discriminate Hl). reflexivity.
Qed.

Lemma ssn_format_digits (d : string) :
  all_chars is_digit d = true -> String.length d = 9 ->
  digits_only (substring 0 3 d ++ "-" ++ substring 3 2 d ++ "-"
               ++ substring 5 4 d)
  = d.
Proof.
  intros Hd Hl. unfold digits_only.
  change (substring 0 3 d ++ "-" ++ substring 3 2 d ++ "-"
          ++ substring 5 4 d)%string
    with (substring 0 3 d ++ ("-" ++ (substring 3 2 d ++ ("-"
          ++ substring 5 4 d))))%string.
  rewrite !filter_chars_app.
  rewrite !(filter_chars_all is_digit (substring _ _ d))
    by (apply all_chars_substring; exact Hd).
  change (filter_chars is_digit "-") with "".
  do 10 (destruct d as [|? d]; try discriminate Hl). reflexivity.
Qed.

(** X19.  [standardize_phone] is idempotent: a standardized phone number
    is left as it is when it is standardized again. *)
Theorem standardize_phone_idempotent (raw_phone : string) :
  standardize_phone (standardize_phone raw_phone)
  = standardize_phone raw_phone.
Proof.
  destruct (truthy raw_phone) eqn:Et;
    [|destruct raw_phone; [reflexivity | discriminate Et]].
  unfold standardize_phone at 2 3. rewrite Et. cbn [negb]. cbv zeta.
  set (d := if (String.length (digits_only raw_phone) =? 11)
               && eqs (substring 0 1 (digits_only raw_phone)) "1"
            then drop_first (digits_only raw_phone)
            else digits_only raw_phone).
  assert (Hd : all_chars is_digit d = true).
  { unfold d. destruct (_ && _).
    - apply all_chars_drop_first, all_chars_filter.
    - apply all_chars_filter. }
  destruct (String.length d =? 10) eqn:El.
  - apply Nat.eqb_eq in El.
    set (R := ("(" ++ substring 0 3 d ++ ") " ++ substring 3 3 d ++ "-"
               ++ substring 6 4 d)%string).
    assert (HR : digits_only R = d) by (apply phone_format_digits; assumption).
    assert (Ht : truthy R = true) by reflexivity.
    unfold standardize_phone. rewrite Ht, HR, El. cbn [Nat.eqb andb negb].
    rewrite El. reflexivity.
  - unfold standardize_phone.
    destruct (truthy (strip raw_phone)) eqn:Es; cbn [negb].
    + cbv zeta. rewrite digits_only_strip. fold d. rewrite El.
      apply strip_idempotent.
    + destruct (strip raw_phone); [reflexivity | discriminate].
Qed.

(** X20.  [standardize_ssn] masks nothing: the digits of its result are
    the digits of its argument, all of them and in their order; and it is
    idempotent. *)
Theorem standardize_ssn_keeps_every_digit (raw_ssn : string) :
  digits_only (standardize_ssn raw_ssn) = digits_only raw_ssn
  /\ standardize_ssn (standardize_ssn raw_ssn) = standardize_ssn raw_ssn.
Proof.
  assert (Hd : all_chars is_digit (digits_only raw_ssn) = true)
    by apply all_chars_filter.
  unfold standardize_ssn at 1 3 4.
  destruct (truthy raw_ssn) eqn:Et; cbn [negb].
  2:{ destruct raw_ssn; [split; reflexivity | discriminate]. }
  cbv zeta.
  destruct (String.length (digits_only raw_ssn) =? 9) eqn:El.
  - apply Nat.eqb_eq in El.
    pose proof (ssn_format_digits _ Hd El) as Hf. split; [exact Hf|].
    set (R := (substring 0 3 (digits_only raw_ssn) ++ "-"
               ++ substring 3 2 (digits_only raw_ssn) ++ "-"
               ++ substring 5 4 (digits_only raw_ssn))%string) in *.
    assert (Ht : truthy R = true).
    { unfold R. destruct (digits_only raw_ssn); [discriminate El|].
      reflexivity. }
    unfold standardize_ssn. rewrite Ht, Hf, El. reflexivity.
  - split; [apply digits_only_strip|].
    unfold standardize_ssn.
    destruct (truthy (strip raw_ssn)) eqn:Es; cbn [negb].
    + cbv zeta. rewrite digits_only_strip, El. apply strip_idempotent.
    + destruct (strip raw_ssn); [reflexivity | discriminate].
Qed.

(** *** ICD-10 codes *)

Lemma lstrip_upper (s : string) : lstrip (upper s) = upper (lstrip s).
Proof.
  induction s as [|c s IH]; simpl; [reflexivity|].
  rewrite is_space_upper_char. destruct (is_space c); [exact IH | reflexivity].
Qed.

Lemma rstrip_upper (s : string) : rstrip (upper s) = upper (rstrip s).
Proof.
  induction s as [|c s IH]; simpl; [reflexivity|].
  rewrite IH, is_space_upper_char.
  destruct (rstrip s); simpl; [destruct (is_space c)|]; reflexivity.
Qed.

Lemma strip_upper (s : string) : strip (upper s) = upper (strip s).
Proof. unfold strip. rewrite lstrip_upper. apply rstrip_upper. Qed.

Lemma upper_idempotent (s : string) : upper (upper s) = upper s.
Proof.
  induction s as [|c s IH]; simpl; [reflexivity|].
  rewrite upper_char_idempotent, IH. reflexivity.
Qed.

Lemma cleaned_idempotent (s : string) :
  upper (strip (upper (strip s))) = upper (strip s).
Proof. rewrite strip_upper, strip_idempotent. apply upper_idempotent. Qed.

Lemma tail_matches_more (n : nat) (t : string) :
  tail_matches n t = true -> forall m, n <= m -> tail_matches m t = true.
Proof.
  revert n. induction t as [|c t IH]; intros n H m Hm; [reflexivity|].
  simpl in *. destruct (is_upper_alnum c); [|exact H].
  destruct n as [|n]; [discriminate|]. destruct m as [|m]; [lia|].
  apply (IH n H). lia.
Qed.

Lemma icd10_pattern_more (n m : nat) (s : string) :
  n <= m -> icd10_pattern n s = true -> icd10_pattern m s = true.
Proof.
  intros Hm. unfold icd10_pattern.
  destruct s as [|c0 [|c1 [|c2 rest]]]; try discriminate.
  intros H. apply andb_true_iff in H. destruct H as [H1 H2]. rewrite H1.
  cbn [andb].
  destruct rest as [|c r]; [reflexivity|].
  destruct (Ascii.eqb c ".") eqn:E.
  - apply Ascii.eqb_eq in E. subst c. eapply tail_matches_more; eauto.
  - assert (Hc : c <> "."%char) by (apply Ascii.eqb_neq; exact E).
    destruct c as [[] [] [] [] [] [] [] []];
      try (exfalso; apply Hc; reflexivity);
      eapply tail_matches_more; eauto.
Qed.

(** X21.  The first, shorter pattern of [validate_icd10] decides nothing:
    a code is accepted exactly when its cleaned form matches the extended
    pattern.  The cleaned form is stable: validating it again gives the
    same verdict and the same text. *)
Theorem validate_icd10_extended_pattern_decides (code : string) :
  fst (validate_icd10 code) = icd10_pattern 7 (upper (strip code))
  /\ snd (validate_icd10 code) = upper (strip code)
  /\ validate_icd10 (snd (validate_icd10 code)) = validate_icd10 code.
Proof.
  assert (H : forall c,
             fst (validate_icd10 c) = icd10_pattern 7 (upper (strip c))
             /\ snd (validate_icd10 c) = upper (strip c)).
  { intros c. unfold validate_icd10.
    destruct c as [|a c]; [split; reflexivity|].
    cbn [truthy negb]. cbv zeta.
    destruct (icd10_pattern 4 (upper (strip (String a c)))) eqn:E4.
    - rewrite (icd10_pattern_more 4 7 _ ltac:(lia) E4). split; reflexivity.
    - destruct (icd10_pattern 7 (upper (strip (String a c))));
        split; reflexivity. }
  destruct (H code) as [H1 H2]. split; [exact H1|]. split; [exact H2|].
  destruct (H (snd (validate_icd10 code))) as [H3 H4].
  apply injective_projections.
  - rewrite H3, H2, cleaned_idempotent. symmetry. exact H1.
  - rewrite H4, H2. apply cleaned_idempotent.
Qed.

(** *** Names *)

Lemma split_once_elem_chars (sep c : ascii) (s : string) :
  has_char c s = false ->
  forall x, In x (split_once sep s) -> has_char c x = false.
Proof.
  induction s as [|d s IH]; intros Hc x Hin; simpl in Hin, Hc.
  - destruct Hin as [<-|[]]. reflexivity.
  - apply orb_false_iff in Hc. destruct Hc as [Hd Hs].
    destruct (Ascii.eqb d sep).
    + destruct Hin as [<-|[<-|[]]]; [reflexivity | exact Hs].
    + destruct (split_once sep s) as [|w ws] eqn:Es.
      * destruct Hin as [<-|[]]. simpl. rewrite Hd. reflexivity.
      * destruct Hin as [<-|Hin].
        -- simpl. rewrite Hd. apply IH; [exact Hs | left; reflexivity].
        -- apply IH; [exact Hs | right; exact Hin].
Qed.

Lemma split_ws_elem_chars (c : ascii) (s : string) :
  has_char c s = false ->
  forall x, In x (split_ws s) -> has_char c x = false.
Proof.
  induction s as [|d s IH]; intros Hc x Hin; simpl in Hin, Hc.
  - contradiction.
  - apply orb_false_iff in Hc. destruct Hc as [Hd Hs].
    destruct (is_space d); [auto|].
    destruct s as [|e s'].
    + destruct Hin as [<-|[]]. simpl. rewrite Hd. reflexivity.
    + destruct (is_space e).
      * destruct Hin as [<-|Hin]; [simpl; rewrite Hd; reflexivity | auto].
      * destruct (split_ws (String e s')) as [|w ws] eqn:Es.
        -- destruct Hin as [<-|[]]. simpl. rewrite Hd. reflexivity.
        -- destruct Hin as [<-|Hin].
           ++ simpl. rewrite Hd. apply IH; [exact Hs | left; reflexivity].
           ++ apply IH; [exact Hs | right; exact Hin].
Qed.

Lemma nth_chars (c : ascii) (l : list string) (i : nat) :
  (forall x, In x l -> has_char c x = false) ->
  has_char c (nth i l "") = false.
Proof.
  intros H. destruct (nth_in_or_default i l "") as [Hin | ->];
    [apply H; exact Hin | reflexivity].
Qed.

Lemma last_chars (c : ascii) (l : list string) :
  (forall x, In x l -> has_char c x = false) ->
  has_char c (last l "") = false.
Proof.
  intros H. induction l as [|x l IH]; [reflexivity|].
  destruct l as [|y l]; [apply H; left; reflexivity|].
  change (has_char c (last (y :: l) "") = false).
  apply IH. intros z Hz. apply H. right. exact Hz.
Qed.

Lemma hd_chars (c : ascii) (l : list string) :
  (forall x, In x l -> has_char c x = false) ->
  has_char c (hd "" l) = false.
Proof.
  intros H. destruct l as [|x l]; [reflexivity|]. apply H. left. reflexivity.
Qed.

Lemma standardize_name_pipe_free (raw : string) :
  has_char "|" raw = false ->
  has_char "|" (fst (standardize_name raw)) = false
  /\ has_char "|" (snd (standardize_name raw)) = false.
Proof.
  intros H. unfold standardize_name.
  destruct (truthy raw); cbn [negb]; [|split; reflexivity].
  destruct (has_char "^" raw).
  { cbv zeta. cbn [fst snd]. rewrite !has_char_upper_pipe.
    split; repeat break_if; try reflexivity;
      apply has_char_strip, nth_chars, split_elem_chars; exact H. }
  destruct (has_char "," raw).
  { cbv zeta. cbn [fst snd]. rewrite !has_char_upper_pipe.
    split; repeat break_if; try reflexivity;
      apply has_char_strip, nth_chars, split_once_elem_chars; exact H. }
  cbv zeta.
  assert (Hp : forall x, In x (split_ws (strip raw)) ->
                         has_char "|" x = false).
  { apply split_ws_elem_chars, has_char_strip, H. }
  repeat break_if; cbn [fst snd]; rewrite ?has_char_upper_pipe;
    split; try reflexivity;
    first [apply last_chars | apply hd_chars]; exact Hp.
Qed.

Lemma get_field_split_fields_pipe_free (segment : string) (i : nat) :
  i <> 1 -> has_char "|" (get_field (split_fields segment) i "") = false.
Proof.
  intros Hi. unfold get_field, split_fields. cbv zeta.
  assert (Hs : forall x, In x (split "|" segment) -> has_char "|" x = false)
    by apply split_elem_no_sep.
  destruct (eqs (nth 0 (split "|" segment) "") "MSH").
  - break_if; [|reflexivity].
    destruct i as [|[|i]]; [reflexivity | congruence |].
    cbn [nth]. apply nth_chars. intros x Hx. apply Hs.
    destruct (split "|" segment); [contradiction | right; exact Hx].
  - break_if; [|reflexivity]. apply nth_chars, Hs.
Qed.

(** X22.  The last name and the first name that [parse_pid] stores never
    hold the field separator [|]: they come from a field that
    [split_fields] cut at every [|], and [standardize_name] adds none.
    Rows built from parsed messages therefore meet the condition under
    which a second deduplication pass finds nothing. *)
Theorem parsed_names_hold_no_separator (segment : string) :
  has_char "|" (fst (parse_pid_names (split_fields segment))) = false
  /\ has_char "|" (snd (parse_pid_names (split_fields segment))) = false.
Proof.
  unfold parse_pid_names. apply standardize_name_pipe_free.
  apply get_field_split_fields_pipe_free. discriminate.
Qed.

End StandardizeFacts.

(** ** Alerts on the records the parser returns *)

Section AlertFacts.
Import RealtimeEligibility.

Variable py_float : string -> option pyfloat.
Variable strptime_Ymd : string -> option instant.
Variable ratio_above : pyval -> pyval -> option bool.

Lemma alert_typed_set_other (k : string) (v : pyval) (p : pydict) :
  mem k alert_keys = false ->
  alert_typed p -> alert_typed (dict_set k v p).
Proof.
  intros Hk [H1 H2 H3 H4 H5].
  assert (Hne : forall k', In k' alert_keys -> k' <> k).
  { intros k' Hin ->. apply mem_false_iff in Hk. contradiction. }
  constructor; rewrite dict_get_set_other
    by (apply Hne; simpl; tauto); assumption.
Qed.

Lemma alert_typed_set_float (k : string) (x : pyfloat) (p : pydict) :
  k = "deductible" \/ k = "deductible_remaining" ->
  alert_typed p -> alert_typed (dict_set k (VFloat x) p).
Proof.
  intros Hk [H1 H2 H3 H4 H5].
  destruct Hk as [-> | ->]; constructor;
    rewrite ?dict_get_set_same, ?dict_get_set_other by discriminate;
    eauto.
Qed.

Lemma alert_typed_set_text (k s : string) (p : pydict) :
  k = "term_date" \/ k = "coverage_status" ->
  alert_typed p -> alert_typed (dict_set k (VStr s) p).
Proof.
  intros Hk [H1 H2 H3 H4 H5].
  destruct Hk as [-> | ->]; constructor;
    rewrite ?dict_get_set_same, ?dict_get_set_other by discriminate;
    eauto.
Qed.

Lemma alert_typed_set_sub (k kk : string) (v : pyval) (p : pydict) :
  mem k alert_keys = false ->
  alert_typed p -> alert_typed (set_sub k kk v p).
Proof. intros Hk H. unfold set_sub. apply alert_typed_set_other; assumption. Qed.

Lemma alert_typed_append_other (k : string) (v : pyval) (p : pydict) :
  mem k alert_keys = false ->
  alert_typed p -> alert_typed (append_to k v p).
Proof.
  intros Hk H. unfold append_to.
  destruct (dict_get k p) as [[| | | | |l|]|];
    apply alert_typed_set_other; assumption.
Qed.

Lemma alert_typed_append_preauth (v : pyval) (p : pydict) :
  preauth_entry_ok v ->
  alert_typed p -> alert_typed (append_to "preauth_services" v p).
Proof.
  intros Hv [H1 H2 (l & H3 & Hl) H4 H5]. unfold append_to. rewrite H3.
  constructor;
    rewrite ?dict_get_set_same, ?dict_get_set_other by discriminate;
    eauto.
  exists (l ++ [v])%list. split; [reflexivity|].
  apply Forall_app. split; [exact Hl | constructor; [exact Hv | constructor]].
Qed.

Ltac typed_step :=
  repeat first
    [ assumption
    | apply alert_typed_set_other; [reflexivity|]
    | apply alert_typed_set_sub; [reflexivity|]
    | apply alert_typed_append_other; [reflexivity|]
    | apply alert_typed_set_float; [auto|]
    | apply alert_typed_set_text; [auto|] ].

Lemma item_get (k : string) (p : pydict) (v : pyval) :
  dict_get k p = Some v -> item k p = v.
Proof. intros H. unfold item. rewrite H. reflexivity. Qed.

Lemma walk_inv_set_other (k : string) (v : pyval) (p : pydict) :
  mem k alert_keys = false ->
  walk_inv p -> walk_inv (dict_set k v p).
Proof.
  intros Hk [H1 H2]. split; [apply alert_typed_set_other; assumption|].
  rewrite item_set_other; [exact H2|].
  intros E. rewrite <- E in Hk. discriminate.
Qed.

Lemma walk_inv_set_term (s : string) (p : pydict) :
  walk_inv p -> walk_inv (dict_set "term_date" (VStr s) p).
Proof.
  intros [H1 H2]. split; [apply alert_typed_set_text; auto|].
  rewrite item_set_other by discriminate. exact H2.
Qed.

Lemma walk_inv_set_float (k : string) (x : pyfloat) (p : pydict) :
  k = "deductible" \/ k = "deductible_remaining" ->
  walk_inv p -> walk_inv (dict_set k (VFloat x) p).
Proof.
  intros Hk [H1 H2]. split; [apply alert_typed_set_float; assumption|].
  rewrite item_set_other; [exact H2|].
  destruct Hk as [-> | ->]; discriminate.
Qed.

Lemma walk_inv_set_sub (k kk : string) (v : pyval) (p : pydict) :
  mem k alert_keys = false ->
  walk_inv p -> walk_inv (set_sub k kk v p).
Proof. intros Hk H. unfold set_sub. apply walk_inv_set_other; assumption. Qed.

Lemma walk_inv_append_other (k : string) (v : pyval) (p : pydict) :
  mem k alert_keys = false ->
  walk_inv p -> walk_inv (append_to k v p).
Proof.
  intros Hk H. unfold append_to.
  destruct (dict_get k p) as [[| | | | |l|]|];
    apply walk_inv_set_other; assumption.
Qed.

Lemma walk_inv_append_preauth (v : pyval) (p : pydict) :
  preauth_entry_ok v ->
  walk_inv p -> walk_inv (append_to "preauth_services" v p).
Proof.
  intros Hv [H1 H2]. split; [apply alert_typed_append_preauth; assumption|].
  rewrite item_append_to_other by discriminate. exact H2.
Qed.

Lemma walk_inv_set_status (s : string) (p : pydict) :
  s <> "Terminated" ->
  walk_inv p -> walk_inv (dict_set "coverage_status" (VStr s) p).
Proof.
  intros Hs [H1 H2]. split; [apply alert_typed_set_text; auto|].
  rewrite item_set_same. congruence.
Qed.

Ltac inv_step :=
  repeat first
    [ assumption
    | apply walk_inv_set_other; [reflexivity|]
    | apply walk_inv_set_sub; [reflexivity|]
    | apply walk_inv_append_other; [reflexivity|]
    | apply walk_inv_set_float; [auto|]
    | apply walk_inv_set_term
    | apply walk_inv_set_status; [discriminate|] ].

Lemma walk_inv_new (filepath : string) :
  walk_inv (_new_patient_record filepath).
Proof.
  split; [|discriminate].
  constructor; cbn; eauto.
Qed.

Lemma walk_inv_add_message (m : string) (p : pydict) :
  walk_inv p -> walk_inv (add_message m p).
Proof. intros H. unfold add_message. repeat break_if; inv_step. Qed.

Lemma walk_inv_eb_coverage (eb01 eb05 : string) (p : pydict) :
  walk_inv p -> walk_inv (eb_coverage eb01 eb05 p).
Proof. intros H. unfold eb_coverage. repeat break_if; inv_step. Qed.

Lemma walk_inv_eb_benefit (eb01 eb02 eb03 eb06 eb07 level : string)
  (oon : bool) (amount : pyfloat) (p p' : pydict) :
  walk_inv p ->
  eb_benefit py_float eb01 eb02 eb03 eb06 eb07 level oon amount p = Ok p' ->
  walk_inv p'.
Proof.
  intros H. unfold eb_benefit.
  destruct (eb_pct py_float eb07) as [pct|e]; cbn [bind];
    repeat break_if; cbn [bind]; intros E; inversion E; subst; inv_step;
    try (apply walk_inv_append_preauth;
         [eexists; eexists; split; reflexivity | assumption]).
Qed.

Lemma walk_inv_parse_eb (seg : list string) (p p' : pydict) :
  walk_inv p ->
  _parse_eb_segment py_float seg p = Ok p' ->
  walk_inv p'.
Proof.
  intros H. unfold _parse_eb_segment. cbv zeta.
  match goal with
  | |- context [bind ?m _] => destruct m as [p2|e] eqn:Hb
  end; cbn [bind]; [|discriminate].
  apply walk_inv_eb_benefit in Hb; [|apply walk_inv_eb_coverage; exact H].
  break_if; intros E; inversion E; subst; inv_step.
Qed.

(** Every record of the store is a record being walked. *)
Lemma store_forall_set (P : pydict -> Prop) (h : store) (l : nat)
  (x : pydict) :
  Forall P h ->
  (P (store_get h l) -> P x) ->
  Forall P (store_set h l x).
Proof.
  unfold store_get. revert l.
  induction h as [|y h IH]; intros l Hh Hx; simpl; [constructor|].
  inversion Hh as [|? ? Hy Hrest]; subst.
  destruct l as [|l]; simpl in *; constructor; auto.
Qed.

Lemma store_forall_get (P : pydict -> Prop) (h : store) (l : nat) :
  Forall P h -> l < List.length h -> P (store_get h l).
Proof.
  unfold store_get. intros Hh Hl.
  rewrite Forall_forall in Hh. apply Hh. apply nth_In. exact Hl.
Qed.

Lemma on_patient_forall (P : pydict -> Prop) (f : pydict -> pydict)
  (st : wstate) :
  (forall p, P p -> P (f p)) ->
  Forall P (heap st) ->
  Forall P (heap (on_patient f st)).
Proof.
  intros Hf Hh. unfold on_patient.
  destruct (current_patient st) as [l|]; cbn [heap]; [|exact Hh].
  apply store_forall_set; auto.
Qed.

Lemma step_walk_inv (filepath : string) (st st' : wstate) (seg : list string) :
  step py_float filepath st seg = Ok st' ->
  Forall walk_inv (heap st) ->
  Forall walk_inv (heap st').
Proof.
  intros Hs Hh. revert Hs. unfold step.
  repeat (break_if;
          try (intros Hs; inversion Hs; subst;
               first [ exact Hh
                     | apply on_patient_forall; [|exact Hh];
                       intros p Hp;
                       first [ apply walk_inv_add_message; exact Hp
                             | inv_step ] ])).
  - (* HL*22 *)
    intros Hs; inversion Hs; subst. unfold open_subscriber. cbn [heap].
    apply Forall_app. split; [exact Hh|]. constructor; [|constructor].
    pose proof (walk_inv_new filepath). inv_step.
  - (* EB *)
    destruct (current_patient st) as [l|] eqn:Ecur.
    + destruct (_parse_eb_segment py_float seg (store_get (heap st) l))
        as [p'|e] eqn:Hp; cbn [bind]; [|discriminate].
      intros Hs; inversion Hs; subst.
      unfold on_patient. rewrite Ecur. cbn [heap].
      apply store_forall_set; [exact Hh|].
      intros Hk. eapply walk_inv_parse_eb; eauto.
    + intros Hs; inversion Hs; subst. exact Hh.
Qed.

Lemma walk_walk_inv (filepath : string) (segments : list (list string)) :
  forall st st',
    walk py_float filepath st segments = Ok st' ->
    Forall walk_inv (heap st) ->
    Forall walk_inv (heap st').
Proof.
  induction segments as [|seg rest IH]; intros st st' Hw Hh; simpl in Hw.
  - inversion Hw; subst. exact Hh.
  - destruct (step py_float filepath st seg) as [st1|e] eqn:Hs;
      cbn [bind] in Hw; [|discriminate].
    eapply IH; [exact Hw|]. eapply step_walk_inv; eauto.
Qed.

(** *** Finalization *)

Lemma terminated_before_later (now now' : instant) (p : pydict) :
  (now <= now')%Z ->
  terminated_before strptime_Ymd now p = true ->
  terminated_before strptime_Ymd now' p = true.
Proof.
  intros Hle. unfold terminated_before.
  destruct (val_truthy (item "term_date" p)); [|discriminate]. cbn [andb].
  destruct (strptime_Ymd (as_str (item "term_date" p))) as [td|];
    [|discriminate].
  rewrite !Z.ltb_lt. lia.
Qed.

Lemma alert_typed_finalize (now : instant) (p : pydict) :
  alert_typed p -> alert_typed (_finalize_patient strptime_Ymd now p).
Proof.
  intros H. unfold _finalize_patient. cbn [fold_left].
  assert (H1 : alert_typed (finalize_status strptime_Ymd now p)).
  { unfold finalize_status.
    destruct (val_truthy (item "term_date" p)); [|exact H].
    destruct (strptime_Ymd (as_str (item "term_date" p))); [|exact H].
    repeat break_if; typed_step. }
  assert (H2 : alert_typed (finalize_copay (finalize_status strptime_Ymd now p))).
  { revert H1. generalize (finalize_status strptime_Ymd now p). intros q Hq.
    unfold finalize_copay. cbv zeta. break_if; [|exact Hq].
    assert (Hq1 : alert_typed
                    match find (fun key => dict_mem key (sub_dict "copays" q))
                               ["copay_96"; "copay_UC"; "copay_30"] with
                    | Some key => dict_set "copay"
                                    (item key (sub_dict "copays" q)) q
                    | None => q
                    end).
    { destruct (find _ _); typed_step. }
    break_if; [|exact Hq1].
    destruct (map snd (sub_dict "copays" q)); typed_step. }
  revert H2.
  generalize (finalize_copay (finalize_status strptime_Ymd now p)).
  intros q Hq. unfold format_date_field. cbv zeta.
  repeat break_if; cbn [append]; typed_step.
Qed.

Lemma terminated_before_finalize (now now' : instant) (p : pydict) :
  terminated_before strptime_Ymd now' (_finalize_patient strptime_Ymd now p)
  = terminated_before strptime_Ymd now' p.
Proof.
  unfold terminated_before. rewrite _finalize_patient_term_date. reflexivity.
Qed.

Lemma alert_inv_finalize (now now' : instant) (p : pydict) :
  (now <= now')%Z ->
  alert_inv strptime_Ymd now' p ->
  alert_inv strptime_Ymd now' (_finalize_patient strptime_Ymd now p).
Proof.
  intros Hle [H1 H2]. split; [apply alert_typed_finalize; exact H1|].
  rewrite terminated_before_finalize, _finalize_patient_status.
  destruct (terminated_before strptime_Ymd now p
            && mem (as_str (item "coverage_status" p)) ["Unknown"; "Inactive"])
    eqn:E.
  - intros _. apply andb_true_iff in E. destruct E as [E _].
    eapply terminated_before_later; eauto.
  - exact H2.
Qed.

Lemma walk_inv_alert_inv (now' : instant) (p : pydict) :
  walk_inv p -> alert_inv strptime_Ymd now' p.
Proof. intros [H1 H2]. split; [exact H1 | contradiction]. Qed.

Lemma finalize_all_alert_inv (clock : nat -> instant) (now' : instant)
  (refs : list nat) :
  (forall i, (clock i <= now')%Z) ->
  forall i h,
    Forall (alert_inv strptime_Ymd now') h ->
    Forall (alert_inv strptime_Ymd now')
           (finalize_all strptime_Ymd clock i refs h).
Proof.
  intros Hclock. induction refs as [|l refs IH]; intros i h Hh; simpl;
    [exact Hh|].
  apply IH. apply store_forall_set; [exact Hh|].
  apply alert_inv_finalize, Hclock.
Qed.

Lemma returned_records_alert_inv (clock : nat -> instant) (now' : instant)
  (segments : list (list string)) (filepath : string)
  (out : store * list nat) (p : pydict) :
  (forall i, (clock i <= now')%Z) ->
  _walk_segments py_float strptime_Ymd clock segments filepath = Ok out ->
  In p (records out) ->
  alert_inv strptime_Ymd now' p.
Proof.
  intros Hclock. unfold _walk_segments.
  destruct (walk py_float filepath initial segments) as [st|e] eqn:Hw;
    cbn [bind]; [|discriminate].
  intros H; inversion H; subst out. unfold records. cbn [fst snd].
  intros Hp. apply in_map_iff in Hp. destruct Hp as (l & <- & Hl).
  destruct (walk_allocates py_float filepath segments initial st 0 Hw)
    as [H1 H2]; [reflexivity | reflexivity |].
  apply store_forall_get.
  - apply finalize_all_alert_inv; [exact Hclock|].
    eapply Forall_impl; [intros q; apply walk_inv_alert_inv|].
    eapply walk_walk_inv; [exact Hw | constructor].
  - rewrite finalize_all_length, H1. rewrite H2 in Hl.
    apply in_seq in Hl. lia.
Qed.

Lemma finalize_all_typed (clock : nat -> instant) (refs : list nat) :
  forall i h,
    Forall alert_typed h ->
    Forall alert_typed (finalize_all strptime_Ymd clock i refs h).
Proof.
  induction refs as [|l refs IH]; intros i h Hh; simpl; [exact Hh|].
  apply IH. apply store_forall_set; [exact Hh|]. apply alert_typed_finalize.
Qed.

Lemma returned_records_typed (clock : nat -> instant)
  (segments : list (list string)) (filepath : string)
  (out : store * list nat) (p : pydict) :
  _walk_segments py_float strptime_Ymd clock segments filepath = Ok out ->
  In p (records out) ->
  alert_typed p.
Proof.
  unfold _walk_segments.
  destruct (walk py_float filepath initial segments) as [st|e] eqn:Hw;
    cbn [bind]; [|discriminate].
  intros H; inversion H; subst out. unfold records. cbn [fst snd].
  intros Hp. apply in_map_iff in Hp. destruct Hp as (l & <- & Hl).
  destruct (walk_allocates py_float filepath segments initial st 0 Hw)
    as [H1 H2]; [reflexivity | reflexivity |].
  apply (store_forall_get alert_typed).
  - apply finalize_all_typed.
    apply Forall_impl with (P := walk_inv); [intros q [Hq _]; exact Hq|].
    eapply walk_walk_inv; [exact Hw | constructor].
  - rewrite finalize_all_length, H1. rewrite H2 in Hl.
    apply in_seq in Hl. lia.
Qed.

(** *** The alerts *)

Lemma service_labels_ok (l : list pyval) :
  Forall preauth_entry_ok l -> exists ts, service_labels l = Some ts.
Proof.
  induction 1 as [|s l (d & t & -> & Hd) _ [ts IH]]; [exists []; reflexivity|].
  exists (t :: ts). simpl. rewrite Hd, IH. reflexivity.
Qed.

Lemma generate_alerts_typed (now : instant) (p : pydict) :
  (forall x y, ratio_above (VFloat x) (VFloat y) <> None) ->
  alert_typed p ->
  exists high preauth,
    deductible_alert ratio_above p = Some high
    /\ preauth_alert p = Some preauth.
Proof.
  intros Hr [(x & H1) (y & H2) (l & H3 & Hl) _ _].
  assert (Hh : exists high, deductible_alert ratio_above p = Some high).
  { unfold deductible_alert. rewrite H1, H2. cbn [val_gt0].
    destruct (f_gt0 x); [|eauto]. destruct (f_gt0 y); [|eauto].
    destruct (ratio_above (VFloat y) (VFloat x)) as [[|]|] eqn:E; eauto.
    exfalso. exact (Hr _ _ E). }
  assert (Hp : exists preauth, preauth_alert p = Some preauth).
  { unfold preauth_alert. rewrite (item_get _ _ _ H3).
    destruct (val_truthy (VList l)); [|eauto].
    destruct (service_labels_ok l Hl) as [ts ->]. eauto. }
  destruct Hh as [high Hh]. destruct Hp as [preauth Hp]. eauto.
Qed.

(** X23.  [generate_alerts] raises no exception on a record that
    [_walk_segments] returned: the deductible fields it compares with 0
    and divides are floats, and every entry of [preauth_services] is a
    dict whose service type is a text. *)
Theorem generate_alerts_accepts_parsed_records (clock : nat -> instant)
  (now' : instant) (segments : list (list string)) (filepath : string)
  (out : store * list nat) (p : pydict) :
  (forall x y, ratio_above (VFloat x) (VFloat y) <> None) ->
  _walk_segments py_float strptime_Ymd clock segments filepath = Ok out ->
  In p (records out) ->
  exists alerts,
    generate_alerts strptime_Ymd ratio_above now' p = Some alerts.
Proof.
  intros Hr Hw Hp.
  pose proof (returned_records_typed clock segments filepath out p Hw Hp)
    as Ht.
  destruct (generate_alerts_typed now' p Hr Ht) as (high & preauth & H1 & H2).
  unfold generate_alerts. rewrite H1, H2. eauto.
Qed.

(** X24.  When the clock does not run backwards between parsing and
    alerting, a returned record whose coverage status is ["Terminated"]
    gets both the inactive-coverage and the expired-coverage alert. *)
Theorem terminated_record_gets_both_alerts (clock : nat -> instant)
  (now' : instant) (segments : list (list string)) (filepath : string)
  (out : store * list nat) (p : pydict) (alerts : list string) :
  (forall i, (clock i <= now')%Z) ->
  _walk_segments py_float strptime_Ymd clock segments filepath = Ok out ->
  In p (records out) ->
  item "coverage_status" p = VStr "Terminated" ->
  generate_alerts strptime_Ymd ratio_above now' p = Some alerts ->
  In "INACTIVE_COVERAGE" alerts /\ In "EXPIRED_COVERAGE" alerts.
Proof.
  intros Hclock Hw Hp Hs Ha.
  destruct (returned_records_alert_inv clock now' segments filepath out p
              Hclock Hw Hp) as [[_ _ _ (s & Hterm) (s' & Hstat)] Hev].
  specialize (Hev Hs).
  unfold generate_alerts in Ha. rewrite Hstat in Ha.
  assert (s' = "Terminated").
  { apply item_get in Hstat. rewrite Hs in Hstat. congruence. }
  subst s'.
  destruct (deductible_alert ratio_above p) as [high|]; [|discriminate].
  destruct (preauth_alert p) as [preauth|]; [|discriminate].
  inversion Ha; subst alerts. cbn [val_eq_str eqs String.eqb orb app].
  split; [left; reflexivity|].
  right. apply in_or_app. left.
  unfold terminated_before in Hev. unfold expired_alert.
  rewrite (item_get _ _ _ Hterm) in *. cbn [val_truthy as_str] in Hev.
  destruct (truthy s); [|discriminate]. cbn [andb] in Hev.
  destruct (strptime_Ymd s) as [td|]; [|discriminate].
  rewrite Hev. left. reflexivity.
Qed.

End AlertFacts.

Section AlertExamples.
Import RealtimeEligibility.

Lemma exact_ratio_above_floats (x y : pyfloat) :
  exact_ratio_above (VFloat x) (VFloat y) <> None.
Proof. destruct x, y; discriminate. Qed.

Lemma generate_alerts_accepts_parsed_records_witness :
  exists out p,
    _walk_segments decimal_float ymd8 (fun _ => noon_2024)
                   (_tokenize example_271_alerts) "f.edi" = Ok out
    /\ In p (records out)
    /\ exists alerts,
         generate_alerts ymd8 exact_ratio_above noon_2024 p = Some alerts.
Proof.
  eexists. eexists.
  split; [vm_compute; reflexivity|].
  split; [left; reflexivity|].
  eapply (generate_alerts_accepts_parsed_records decimal_float ymd8
            exact_ratio_above (fun _ => noon_2024) noon_2024
            (_tokenize example_271_alerts) "f.edi");
    [ exact exact_ratio_above_floats
    | vm_compute; reflexivity
    | left; reflexivity ].
Defined.

Lemma terminated_record_gets_both_alerts_witness :
  exists out p,
    _walk_segments decimal_float ymd8 (fun _ => noon_2024)
                   (_tokenize example_271_alerts) "f.edi" = Ok out
    /\ In p (records out)
    /\ item "coverage_status" p = VStr "Terminated"
    /\ generate_alerts ymd8 exact_ratio_above noon_2024 p
       = Some ["INACTIVE_COVERAGE"; "EXPIRED_COVERAGE";
               "HIGH_DEDUCTIBLE_REMAINING"; "PREAUTH_REQUIRED"]
    /\ In "INACTIVE_COVERAGE"
          ["INACTIVE_COVERAGE"; "EXPIRED_COVERAGE";
           "HIGH_DEDUCTIBLE_REMAINING"; "PREAUTH_REQUIRED"]
    /\ In "EXPIRED_COVERAGE"
          ["INACTIVE_COVERAGE"; "EXPIRED_COVERAGE";
           "HIGH_DEDUCTIBLE_REMAINING"; "PREAUTH_REQUIRED"].
Proof.
  eexists. eexists.
  split; [vm_compute; reflexivity|].
  split; [left; reflexivity|].
  split; [vm_compute; reflexivity|].
  split; [vm_compute; reflexivity|].
  eapply (terminated_record_gets_both_alerts decimal_float ymd8
            exact_ratio_above (fun _ => noon_2024) noon_2024
            (_tokenize example_271_alerts) "f.edi");
    [ intros i; apply Z.le_refl
    | vm_compute; reflexivity
    | left; reflexivity
    | vm_compute; reflexivity
    | vm_compute; reflexivity ].
Defined.

End AlertExamples.

(** ** The segments between one CLP segment and the next *)

Section LoaderBlock.
Import DenialsDbLoader.

Variable py_float : string -> option pyfloat.

Lemma denial_eta (c : denial) :
  c = mkDenial (Claim_ID c) (Status c) (Balance_Amount c) (Payer_ID c)
               (CPT_Code c) (CARC_Code c) (RARC_Code c) (Denial_Date c)
               (Practice_Type c).
Proof. destruct c; reflexivity. Qed.

Lemma block_result_nil (c : denial) : block_result c [] = c.
Proof.
  unfold block_result. cbn.
  destruct c as [a b d e cpt carc rarc dd pt]; cbn.
  destruct cpt, carc, rarc; reflexivity.
Qed.

Lemma truthy_empty (s : string) : truthy s = false -> s = "".
Proof. apply truthy_false_iff. Qed.

Lemma last_cons_default {A : Type} (x : A) (l : list A) (d d' : A) :
  last (x :: l) d = last (x :: l) d'.
Proof.
  revert x. induction l as [|y l IH]; intros x; [reflexivity|].
  change (last (y :: l) d = last (y :: l) d'). apply IH.
Qed.

(** One segment of a block, then the rest. *)
Lemma step_in_block (practice_type : option string) (st : pstate)
  (c : denial) (seg : string) (rest : list string) :
  current st = Some c ->
  is_clp seg = false ->
  exists st1 c1,
    step py_float practice_type st seg = Ok st1
    /\ current st1 = Some c1
    /\ results st1 = results st
    /\ block_result c1 rest = block_result c (seg :: rest).
Proof.
  intros Hc Hclp. unfold is_clp, tag_of in Hclp.
  unfold step. cbv zeta. rewrite Hclp, Hc.
  unfold block_result, cas_codes, svc_codes, denial_dates, nonempty_texts,
    tag_of.
  cbn [filter].
  destruct (truthy (nth 0 (split "*" seg) "")) eqn:Et; cbn [negb].
  2:{ apply truthy_empty in Et. rewrite Et. cbn [eqs String.eqb andb].
      exists st, c. rewrite Hc. repeat split. }
  destruct (eqs (nth 0 (split "*" seg) "") "N1") eqn:En.
  { apply eqs_true_iff in En. rewrite En. cbn [eqs String.eqb Ascii.eqb
                                                 Bool.eqb andb].
    break_if.
    - eexists. exists c. split; [reflexivity|]. cbn [current results].
      repeat split.
    - exists st, c. rewrite Hc. repeat split. }
  cbn [andb].
  destruct (eqs (nth 0 (split "*" seg) "") "CAS") eqn:Ecas.
  { apply eqs_true_iff in Ecas. rewrite Ecas.
    cbn [eqs String.eqb Ascii.eqb Bool.eqb andb].
    destruct (3 <=? List.length (split "*" seg)) eqn:E3; cbn [map filter].
    2:{ exists st, c. rewrite Hc. repeat split. }
    destruct (truthy (CARC_Code c)) eqn:Ea; cbn [negb].
    - destruct (truthy (RARC_Code c)) eqn:Eb; cbn [negb].
      + exists st, c. rewrite Hc, Ea, Eb. repeat split.
      + eexists. eexists. do 3 (split; [reflexivity|]).
        cbn [set_RARC Claim_ID Status Balance_Amount Payer_ID
             CPT_Code CARC_Code RARC_Code Denial_Date Practice_Type].
        rewrite ?Ea.
        destruct (truthy (nth 2 (split "*" seg) "")) eqn:Ek; reflexivity.
    - eexists. eexists. do 3 (split; [reflexivity|]).
      cbn [set_CARC Claim_ID Status Balance_Amount Payer_ID
           CPT_Code CARC_Code RARC_Code Denial_Date Practice_Type].
      destruct (truthy (nth 2 (split "*" seg) "")) eqn:Ek; rewrite ?Ea;
        reflexivity. }
  destruct (eqs (nth 0 (split "*" seg) "") "SVC") eqn:Esvc.
  { apply eqs_true_iff in Esvc. rewrite ?Esvc.
    cbn [eqs String.eqb Ascii.eqb Bool.eqb andb].
    destruct ((1 <? List.length (split "*" seg))
              && startswith "HC:" (nth 1 (split "*" seg) "")) eqn:E1;
      cbn [map filter].
    2:{ exists st, c. rewrite Hc. repeat split. }
    destruct (truthy (CPT_Code c)) eqn:Ea; cbn [negb].
    - exists st, c. rewrite Hc, Ea. repeat split.
    - eexists. eexists. do 3 (split; [reflexivity|]).
      cbn [set_CPT Claim_ID Status Balance_Amount Payer_ID
           CPT_Code CARC_Code RARC_Code Denial_Date Practice_Type].
      destruct (truthy (nth 1 (split ":" (nth 1 (split "*" seg) "")) ""))
        eqn:Ek; rewrite ?Ea; reflexivity. }
  destruct (eqs (nth 0 (split "*" seg) "") "DTM") eqn:Edtm.
  { apply eqs_true_iff in Edtm. rewrite ?Edtm.
    cbn [eqs String.eqb Ascii.eqb Bool.eqb andb].
    destruct ((3 <=? List.length (split "*" seg))
              && mem (nth 1 (split "*" seg) "") ["232"; "233"]) eqn:E3;
      cbn [map filter].
    2:{ exists st, c. rewrite Hc. repeat split. }
    eexists. eexists. do 3 (split; [reflexivity|]).
    cbn [set_Denial_Date Claim_ID Status Balance_Amount
         Payer_ID CPT_Code CARC_Code RARC_Code Denial_Date Practice_Type].
    f_equal.
    destruct (map (fun seg0 => nth 2 (split "*" seg0) "") _) as [|d ds];
      [reflexivity|].
    change (last (d :: ds) (nth 2 (split "*" seg) "")
            = last (d :: ds) (Denial_Date c)).
    apply last_cons_default. }
  exists st, c. rewrite Hc. cbn [andb]. repeat split.
Qed.

(** X25.  Between one CLP segment and the next, [parse_835_file] raises
    nothing and leaves the earlier results alone; the record of the claim
    takes as CARC and RARC code the first and the second non-empty reason
    code of the CAS segments that have at least three elements, as CPT
    code the first non-empty procedure code of the SVC segments whose
    second element starts with [HC:], and as denial date the date of the
    last DTM segment with qualifier 232 or 233.  Its other fields stay. *)
Theorem loader_reads_claim_block (practice_type : option string)
  (segs : list string) :
  forall (st : pstate) (c : denial),
    current st = Some c ->
    Forall (fun seg => is_clp seg = false) segs ->
    exists st',
      loop py_float practice_type st segs = Ok st'
      /\ results st' = results st
      /\ current st' = Some (block_result c segs).
Proof.
  induction segs as [|seg rest IH]; intros st c Hc Hn.
  - exists st. rewrite block_result_nil. auto.
  - inversion Hn as [|? ? Hseg Hrest]; subst.
    destruct (step_in_block practice_type st c seg rest Hc Hseg)
      as (st1 & c1 & Hs & Hc1 & Hr1 & Hb).
    destruct (IH st1 c1 Hc1 Hrest) as (st' & Hl & Hr & Hcur).
    exists st'. cbn [loop]. rewrite Hs. cbn [bind].
    rewrite Hl, Hr, Hr1, Hcur, Hb. auto.
Qed.

End LoaderBlock.

Section LoaderBlockExamples.
Import DenialsDbLoader.

Lemma loader_reads_claim_block_witness :
  Forall (fun seg => is_clp seg = false) example_block
  /\ exists st',
       loop decimal_float None
            (mkPState (Some (mkDenial "A1" "4" (FFin 10) "ACME" "" "" "" "" ""))
                      (Some "ACME") [])
            example_block = Ok st'
       /\ results st' = []
       /\ current st'
          = Some (mkDenial "A1" "4" (FFin 10) "ACME" "99213" "16" "1"
                           "20240105" "").
Proof.
  assert (H : Forall (fun seg => is_clp seg = false) example_block)
    by (repeat constructor).
  split; [exact H|].
  exact (loader_reads_claim_block decimal_float None example_block
           (mkPState (Some (mkDenial "A1" "4" (FFin 10) "ACME" "" "" "" "" ""))
                     (Some "ACME") [])
           (mkDenial "A1" "4" (FFin 10) "ACME" "" "" "" "" "")
           eq_refl H).
Defined.

End LoaderBlockExamples.
